(** * SocialMediaScheduler: a shallow embedding of [social_media_scheduler.py]

    The development follows the source file top to bottom: Python strings,
    the platform adapter and the files the program touches, the ledger
    functions, the two publishing routines, [safe_publish], the calendar
    validator and the scheduler driver.  The theorems at the end relate the
    publish-and-record workflow to its written specification. *)

From Stdlib Require Import String Ascii NArith DecimalString Lia.
From stdpp Require Import base option list.

Local Open Scope N_scope.
Local Open Scope nat_scope.

(** ** Python strings

    A Python [str] is a sequence of Unicode code points; [len], slicing and
    [+] are those of lists. *)

Definition char := N.
Definition str := list char.

(** An ASCII literal of the source, as a [str]. *)
Definition py (s : string) : str := N_of_ascii <$> list_ascii_of_string s.

Definition char_eqb (a b : char) : bool := N.eqb a b.

Fixpoint str_eqb (a b : str) : bool :=
  match a, b with
  | [], [] => true
  | x :: a', y :: b' => char_eqb x y && str_eqb a' b'
  | _, _ => false
  end.

(** [prefix in s]. *)
Fixpoint startswith (p s : str) : bool :=
  match p, s with
  | [], _ => true
  | x :: p', y :: s' => char_eqb x y && startswith p' s'
  | _ :: _, [] => false
  end.

(** [sub in s] for strings. *)
Fixpoint contains (sub s : str) : bool :=
  startswith sub s || match s with [] => false | _ :: s' => contains sub s' end.

(** [x in l] for a list of strings. *)
Definition str_in (x : str) (l : list str) : bool := existsb (str_eqb x) l.

(** [sep.join(l)]. *)
Fixpoint join (sep : str) (l : list str) : str :=
  match l with
  | [] => []
  | [x] => x
  | x :: l' => x ++ sep ++ join sep l'
  end.

(** [str.isspace] on one code point: the white-space table of CPython. *)
Definition isspace (c : char) : bool :=
  ((9 <=? c) && (c <=? 13) || (28 <=? c) && (c <=? 32) || (c =? 133) || (c =? 160)
   || (c =? 5760) || (8192 <=? c) && (c <=? 8202) || (c =? 8232) || (c =? 8233)
   || (c =? 8239) || (c =? 8287) || (c =? 12288))%N.

Fixpoint lstrip (s : str) : str :=
  match s with
  | c :: s' => if isspace c then lstrip s' else s
  | [] => []
  end.

Definition rstrip (s : str) : str := rev (lstrip (rev s)).

(** [s.strip()]. *)
Definition strip (s : str) : str := rstrip (lstrip s).

(** Decimal rendering, [str(n)] for a non-negative [int]. *)
Definition str_of_nat (n : nat) : str :=
  py (NilEmpty.string_of_uint (Nat.to_uint n)).

Definition PIPE : char := 124%N.
Definition DELIM : str := [PIPE; PIPE; PIPE].

Definition push (c : char) (l : list str) : list str :=
  match l with
  | p :: ps => (c :: p) :: ps
  | [] => [[c]]
  end.

(** [content.split("|||")]: the pieces between the non-overlapping
    occurrences of the delimiter, found from the left; never empty. *)
Fixpoint split_pipes (s : str) : list str :=
  match s with
  | [] => [[]]
  | c :: s' =>
      match s' with
      | c2 :: c3 :: rest =>
          if char_eqb c PIPE && char_eqb c2 PIPE && char_eqb c3 PIPE
          then [] :: split_pipes rest
          else push c (split_pipes s')
      | _ => push c (split_pipes s')
      end
  end.

(** [not l] for a list. *)
Definition is_empty {A} (l : list A) : bool :=
  match l with [] => true | _ => false end.

(** Truthiness of a string: [if s], [not s]. *)
Definition truthy (s : str) : bool := match s with [] => false | _ => true end.

(** [[part.strip() for part in content.split("|||") if part.strip()]],
    written at lines 129 and 185 of the source. *)
Definition thread_parts (content : str) : list str :=
  strip <$> filter (fun part => truthy (strip part) = true) (split_pipes content).

(** [if len(content) > 280: content = content[:277] + "..."], written at
    lines 73-74 and 98-99 of the source. *)
Definition truncate (content : str) : str :=
  if 280 <? length content then take 277 content ++ py "..." else content.

(** ** The literals of the source *)

Definition X_TWEET : str := py "X Tweet".
Definition X_THREAD : str := py "X Thread".
Definition POST_NOW : str := py "Post Now".
Definition CHECK_MARK : char := 9989%N.   (* U+2705 *)
Definition CROSS_MARK : char := 10060%N.  (* U+274C *)
Definition ARROW : char := 8594%N.        (* U+2192 *)
Definition WARNING_SIGN : str := [9888%N; 65039%N]. (* U+26A0 U+FE0F *)
Definition NEWLINE : char := 10%N.

Definition POSTED : str := py "Posted " ++ [CHECK_MARK].
Definition DRY_RUN_LABEL : str := py "Dry Run " ++ [CHECK_MARK].
Definition ERROR_LABEL : str := py "Error " ++ [CROSS_MARK] ++ py " (will retry)".

(** ** Dates, the platform and the files *)

Record date := Date { year : nat; month : nat; day : nat }.

Definition date_eqb (a b : date) : bool :=
  (year a =? year b) && (month a =? month b) && (day a =? day b).

(** A [datetime]: what [.date()] and [str()] give. *)
Record datetime := DateTime { dt_date : date; dt_str : str }.

(** The fields of a tweet read by [track_analytics]; [impression_count] is
    read with [getattr] and may be absent. *)
Record tweet_status := TweetStatus {
  favorite_count : nat;
  retweet_count : nat;
  impression_count : option nat
}.

(** What the program asks of the outside world, in order. *)
Inductive event :=
  | GetClient
  | UpdateStatus (status : str) (in_reply_to_status_id : option str)
  | Sleep (secs : nat)
  | GetStatus (id : str).

(** The collaborators that are not code of this repository.  Each answer
    may depend on everything asked so far.
    - [strptime s] is [datetime.strptime(s, "%Y-%m-%d").date()], [None]
      when it raises;
    - [datetime_now n] is the n-th reading of [datetime.now()];
    - [tweepy_API] is the construction of the client in
      [get_twitter_client]: [Some e] when it raises with text [e];
    - [update_status] answers [inl id_str] or raises with text [inr e];
    - [get_status] likewise. *)
Record Env := {
  strptime : str -> option date;
  datetime_now : nat -> datetime;
  tweepy_API : list event -> option str;
  update_status : list event -> str -> option str -> str + str;
  get_status : list event -> str -> tweet_status + str
}.

(** A CSV file as [csv.reader] reads it and [csv.writer] writes it: a list
    of rows of cells; [None] when the file does not exist. *)
Definition csv_file := option (list (list str)).

Record world := World {
  trace : list event;
  clock : nat;
  calendar : csv_file;
  success_log : csv_file;
  error_log : csv_file;
  analytics_log : csv_file;
  stdout : list str
}.

Definition set_trace (f : list event -> list event) (w : world) : world :=
  World (f (trace w)) (clock w) (calendar w) (success_log w) (error_log w)
        (analytics_log w) (stdout w).
Definition set_clock (f : nat -> nat) (w : world) : world :=
  World (trace w) (f (clock w)) (calendar w) (success_log w) (error_log w)
        (analytics_log w) (stdout w).
Definition set_calendar (f : csv_file -> csv_file) (w : world) : world :=
  World (trace w) (clock w) (f (calendar w)) (success_log w) (error_log w)
        (analytics_log w) (stdout w).
Definition set_success_log (f : csv_file -> csv_file) (w : world) : world :=
  World (trace w) (clock w) (calendar w) (f (success_log w)) (error_log w)
        (analytics_log w) (stdout w).
Definition set_error_log (f : csv_file -> csv_file) (w : world) : world :=
  World (trace w) (clock w) (calendar w) (success_log w) (f (error_log w))
        (analytics_log w) (stdout w).
Definition set_analytics_log (f : csv_file -> csv_file) (w : world) : world :=
  World (trace w) (clock w) (calendar w) (success_log w) (error_log w)
        (f (analytics_log w)) (stdout w).
Definition set_stdout (f : list str -> list str) (w : world) : world :=
  World (trace w) (clock w) (calendar w) (success_log w) (error_log w)
        (analytics_log w) (f (stdout w)).

(** ** Exceptions and the monad of the program *)

Inductive exn :=
  | ValueError (msg : str)
  | Exception (msg : str)
  | PlatformError (msg : str)
  | FileNotFoundError (msg : str)
  | StopIteration
  | IndexError (msg : str).

(** [str(e)]. *)
Definition exn_str (e : exn) : str :=
  match e with
  | ValueError m | Exception m | PlatformError m | FileNotFoundError m
  | IndexError m => m
  | StopIteration => []
  end.

Inductive result (A : Type) :=
  | Ok (a : A)
  | Raised (e : exn).
Arguments Ok {A} a.
Arguments Raised {A} e.

(** A computation runs on a world, returns or raises, and leaves a world;
    what was done before a [raise] stays done. *)
Definition M (A : Type) : Type := world -> result A * world.

Definition ret {A} (a : A) : M A := fun w => (Ok a, w).

Definition bind {A B} (m : M A) (k : A -> M B) : M B :=
  fun w =>
    match m w with
    | (Ok a, w') => k a w'
    | (Raised e, w') => (Raised e, w')
    end.

Definition raise {A} (e : exn) : M A := fun w => (Raised e, w).

(** [try: m  except Exception as e: handler(e)]. *)
Definition try_except {A} (m : M A) (handler : exn -> M A) : M A :=
  fun w =>
    match m w with
    | (Ok a, w') => (Ok a, w')
    | (Raised e, w') => handler e w'
    end.

#[global] Instance M_ret : MRet M := @ret.
#[global] Instance M_bind : MBind M := fun A B k m => bind m k.

Definition modify (f : world -> world) : M unit := fun w => (Ok tt, f w).

Definition print (line : str) : M unit :=
  modify (set_stdout (fun out => out ++ [line])).

Definition emit (e : event) : M unit :=
  modify (set_trace (fun t => t ++ [e])).

Definition get_trace : M (list event) := fun w => (Ok (trace w), w).

(** [writer.writerow(row)] on a file opened with mode ["a"]. *)
Definition append_row (row : list str) (f : csv_file) : csv_file :=
  Some (default [] f ++ [row]).

Section Program.

Variable E : Env.

(** [datetime.now()]. *)
Definition now : M datetime :=
  fun w => (Ok (datetime_now E (clock w)), set_clock S w).

(** [time.sleep(secs)]. *)
Definition sleep (secs : nat) : M unit := emit (Sleep secs).

(** ** Platform clients *)

(** Returns [true] for a client and [false] for [None]. *)
Definition get_twitter_client : M bool :=
  t ← get_trace;
  emit GetClient;;
  match tweepy_API E t with
  | None => ret true
  | Some e => print (py "Error initializing Twitter client: " ++ e);; ret false
  end.

(** [twitter_client.update_status(...).id_str]. *)
Definition client_update_status (status : str) (in_reply_to : option str) : M str :=
  t ← get_trace;
  emit (UpdateStatus status in_reply_to);;
  match update_status E t status in_reply_to with
  | inl id_str => ret id_str
  | inr e => raise (PlatformError e)
  end.

(** [twitter_client.get_status(post_id, tweet_mode="extended")]. *)
Definition client_get_status (post_id : str) : M tweet_status :=
  t ← get_trace;
  emit (GetStatus post_id);;
  match get_status E t post_id with
  | inl tweet => ret tweet
  | inr e => raise (PlatformError e)
  end.

(** ** Enhanced logging *)

Definition SUCCESS_HEADER : list str :=
  [py "Timestamp"; py "Platform"; py "Content Preview"; py "Status"; py "Post ID"].
Definition ERROR_HEADER : list str :=
  [py "Timestamp"; py "Platform"; py "Content Preview"; py "Error Message"; py "Resolved"].
Definition ANALYTICS_HEADER : list str :=
  [py "Timestamp"; py "Platform"; py "Post ID"; py "Likes"; py "Retweets";
   py "Replies"; py "Impressions"].

(** One round of the loop of [ensure_log_files]. *)
Definition ensure_header (headers : list str) (f : csv_file) : csv_file :=
  match f with
  | Some rows => Some rows
  | None => Some [headers]
  end.

Definition ensure_log_files : M unit :=
  modify (set_success_log (ensure_header SUCCESS_HEADER));;
  modify (set_error_log (ensure_header ERROR_HEADER));;
  modify (set_analytics_log (ensure_header ANALYTICS_HEADER)).

(** [post_id or "N/A"]. *)
Definition or_na (post_id : option str) : str :=
  match post_id with
  | Some (c :: s) => c :: s
  | _ => py "N/A"
  end.

Definition success_row (ts : datetime) (platform content : str) (post_id : option str)
  : list str :=
  [dt_str ts; platform; take 100 content; POSTED; or_na post_id].

Definition error_row (ts : datetime) (platform content error_message : str) : list str :=
  [dt_str ts; platform; take 100 content; error_message; py "No"].

Definition log_success (platform content : str) (post_id : option str) : M unit :=
  ts ← now;
  modify (set_success_log (append_row (success_row ts platform content post_id))).

Definition log_error (platform content error_message : str) : M unit :=
  ts ← now;
  modify (set_error_log (append_row (error_row ts platform content error_message))).

Definition log_analytics (platform post_id : str) (metrics : list str) : M unit :=
  ts ← now;
  modify (set_analytics_log (append_row ([dt_str ts; platform; post_id] ++ metrics))).

(** ** Platform publishing functions *)

Definition TAG_DRY_RUN : str := py "dry_run".
Definition TAG_ERROR : str := py "error".
Definition TAG_SUCCESS : str := py "success".
Definition NOT_INITIALIZED : str := py "Twitter client not initialized".

(** Returns the pair [(tag, id or error text or None)]. *)
Definition publish_tweet (content : str) (dry_run : bool) : M (str * option str) :=
  if dry_run then
    print (py "DRY RUN " ++ [ARROW] ++ py " Would tweet: " ++ content);;
    ret (TAG_DRY_RUN, None)
  else
    try_except
      (twitter_client ← get_twitter_client;
       if negb twitter_client then ret (TAG_ERROR, Some NOT_INITIALIZED)
       else
         let content := truncate content in
         id_str ← client_update_status content None;
         ret (TAG_SUCCESS, Some id_str))
      (fun e => ret (TAG_ERROR, Some (exn_str e))).

(** The second component returned by [publish_thread]: [None], the list of
    identifiers, or an error text. *)
Inductive ids_or_error :=
  | NoneValue
  | IdList (tweet_ids : list str)
  | ErrorText (e : str).

(** The [for i, content in enumerate(contents)] loop of the dry run. *)
Fixpoint print_thread (i : nat) (contents : list str) : M unit :=
  match contents with
  | [] => ret tt
  | content :: rest =>
      print (py "  Tweet " ++ str_of_nat (i + 1) ++ py ": " ++ content);;
      print_thread (S i) rest
  end.

(** The [for i, content in enumerate(contents)] loop of the live run, from
    index [i] on, with the loop variables as arguments. *)
Fixpoint thread_loop (i : nat) (previous_tweet_id : option str) (tweet_ids : list str)
    (contents : list str) : M (list str) :=
  match contents with
  | [] => ret tweet_ids
  | content :: rest =>
      let content := truncate content in
      id_str ← (if i =? 0 then client_update_status content None
                else sleep 1;; client_update_status content previous_tweet_id);
      thread_loop (S i) (Some id_str) (tweet_ids ++ [id_str]) rest
  end.

Definition publish_thread (contents : list str) (dry_run : bool)
  : M (list str * ids_or_error) :=
  if dry_run then
    print (py "DRY RUN " ++ [ARROW] ++ py " Would post thread with "
             ++ str_of_nat (length contents) ++ py " tweets");;
    print_thread 0 contents;;
    ret (replicate (length contents) TAG_DRY_RUN, NoneValue)
  else
    try_except
      (twitter_client ← get_twitter_client;
       if negb twitter_client then ret ([TAG_ERROR], ErrorText NOT_INITIALIZED)
       else
         tweet_ids ← thread_loop 0 None [] contents;
         ret (replicate (length contents) TAG_SUCCESS, IdList tweet_ids))
      (fun e => ret ([TAG_ERROR], ErrorText (exn_str e))).

(** ** Safe publish *)

(** [f"{v}"] for the value formatted at line 136; only an error text
    reaches that line, the two other cases are written for totality. *)
Definition format_value (v : ids_or_error) : str :=
  match v with
  | ErrorText e => e
  | NoneValue => py "None"
  | IdList l => py "[" ++ join (py ", ") ((fun s => py "'" ++ s ++ py "'") <$> l) ++ py "]"
  end.

Definition format_option (v : option str) : str :=
  match v with
  | Some s => s
  | None => py "None"
  end.

(** The [if platform == ... elif ... else] of lines 128-149, which leaves
    [post_id] or raises. *)
Definition publish_dispatch (platform content : str) (dry_run : bool)
  : M (option str) :=
  if str_eqb platform X_THREAD then
    let parts := thread_parts content in
    if is_empty parts then
      raise (ValueError (py "Thread content is empty after splitting"))
    else
      '(results, ids) ← publish_thread parts dry_run;
      if str_in TAG_ERROR results then
        raise (Exception (py "Thread posting failed: " ++ format_value ids))
      else
        ret (Some (match ids with
                   | IdList l => join (py ",") l
                   | _ => py "Unknown"
                   end))
  else if str_eqb platform X_TWEET then
    '(result, id_or_error) ← publish_tweet content dry_run;
    if str_eqb result TAG_ERROR then
      raise (Exception (py "Tweet posting failed: " ++ format_option id_or_error))
    else
      ret (if str_eqb result TAG_SUCCESS then id_or_error else Some (py "DryRun"))
  else
    raise (ValueError (py "Unsupported platform: " ++ platform)).

Definition safe_publish (platform content : str) (row_index : nat) (dry_run : bool)
  : M str :=
  try_except
    (if dry_run then
       print (py "DRY RUN " ++ [ARROW] ++ py " Would post to " ++ platform
                ++ py ": " ++ content);;
       ret DRY_RUN_LABEL
     else
       post_id ← publish_dispatch platform content dry_run;
       log_success platform content post_id;;
       ret POSTED)
    (fun e => log_error platform content (exn_str e);; ret ERROR_LABEL).

(** ** Content validation *)

Definition VALID_PLATFORMS : list str := [X_TWEET; X_THREAD].

(** [f"{valid_platforms}"]. *)
Definition VALID_PLATFORMS_REPR : str := py "['X Tweet', 'X Thread']".

Definition row_label (i : nat) : str := py "Row " ++ str_of_nat i.

(** [for j, part in enumerate(parts)] of the validator, from index [j]. *)
Fixpoint part_warnings (i j : nat) (parts : list str) (warnings : list str) : list str :=
  match parts with
  | [] => warnings
  | part :: rest =>
      part_warnings i (S j) rest
        (if 280 <? length part then
           warnings ++ [row_label i ++ py ", Thread part " ++ str_of_nat (j + 1)
                          ++ py ": Exceeds 280 characters ("
                          ++ str_of_nat (length part) ++ py ")"]
         else warnings)
  end.

(** The body of the loop of [validate_content_calendar] on row number [i]. *)
Definition validate_row (i : nat) (row : list str) (errors warnings : list str)
  : list str * list str :=
  match row with
  | date_planned :: platform :: content :: status :: _ =>
      let errors :=
        match strptime E date_planned with
        | Some _ => errors
        | None => errors ++ [row_label i ++ py ": Invalid date format " ++ date_planned
                               ++ py ". Use YYYY-MM-DD"]
        end in
      let errors :=
        if negb (str_in platform VALID_PLATFORMS) then
          errors ++ [row_label i ++ py ": Invalid platform " ++ platform
                       ++ py ". Must be one of " ++ VALID_PLATFORMS_REPR]
        else errors in
      if negb (truthy content) || negb (truthy (strip content)) then
        (errors ++ [row_label i ++ py ": Content is empty"], warnings)
      else if str_eqb platform X_TWEET && (280 <? length content) then
        (errors,
         warnings ++ [row_label i ++ py ": Tweet content exceeds 280 characters ("
                        ++ str_of_nat (length content) ++ py ")"])
      else if str_eqb platform X_THREAD then
        let parts := thread_parts content in
        let errors :=
          if is_empty parts then
            errors ++ [row_label i ++ py ": Thread content is empty after splitting with |||"]
          else errors in
        (errors, part_warnings i 0 parts warnings)
      else (errors, warnings)
  | _ => (* len(row) < 4 *)
      (errors ++ [row_label i ++ py ": Insufficient columns"], warnings)
  end.

(** [for i, row in enumerate(rows, start=2)], from row number [i]. *)
Fixpoint validate_rows (i : nat) (rows : list (list str)) (errors warnings : list str)
  : list str * list str :=
  match rows with
  | [] => (errors, warnings)
  | row :: rest =>
      let '(errors, warnings) := validate_row i row errors warnings in
      validate_rows (S i) rest errors warnings
  end.

Definition validate_content_calendar (rows : list (list str)) : list str * list str :=
  validate_rows 2 rows [] [].

(** ** Analytics tracking *)

(** [str] of an optional count, with the default of [getattr]. *)
Definition impressions_str (tweet : tweet_status) : str :=
  match impression_count tweet with
  | Some n => str_of_nat n
  | None => py "N/A"
  end.

(** The loop over the data rows of [success_log.csv]; [row[4]] raises on a
    short row. *)
Fixpoint collect_post_ids (rows : list (list str)) (post_ids : list (str * str))
  : M (list (str * str)) :=
  match rows with
  | [] => ret post_ids
  | row :: rest =>
      match row !! 4 with
      | None => raise (IndexError (py "list index out of range"))
      | Some post_id =>
          collect_post_ids rest
            (if truthy post_id && negb (str_eqb post_id (py "N/A"))
                && negb (str_eqb post_id (py "DryRun"))
             then post_ids ++ [(default [] (row !! 1), post_id)]
             else post_ids)
      end
  end.

Fixpoint track_posts (post_ids : list (str * str)) : M unit :=
  match post_ids with
  | [] => ret tt
  | (platform, post_id) :: rest =>
      (if str_in platform [X_TWEET; X_THREAD] then
         try_except
           (tweet ← client_get_status post_id;
            log_analytics platform post_id
              [str_of_nat (favorite_count tweet); str_of_nat (retweet_count tweet);
               py "0"; impressions_str tweet])
           (fun e => print (py "Error getting analytics for " ++ post_id ++ py ": "
                              ++ exn_str e))
       else ret tt);;
      track_posts rest
  end.

Definition read_success_log : M (list (list str)) :=
  fun w =>
    match success_log w with
    | Some rows => (Ok rows, w)
    | None =>
        (Raised (FileNotFoundError
                   (py "[Errno 2] No such file or directory: 'success_log.csv'")), w)
    end.

Definition track_analytics : M unit :=
  try_except
    (twitter_client ← get_twitter_client;
     if negb twitter_client then
       print (py "Cannot track analytics - Twitter client not available")
     else
       reader ← read_success_log;
       match reader with
       | [] => raise StopIteration (* next(reader) *)
       | _ :: rows =>
           post_ids ← collect_post_ids rows [];
           track_posts post_ids
       end)
    (fun e => print (py "Error in analytics tracking: " ++ exn_str e)).

(** ** Auto scheduler *)

Definition CALENDAR_HEADER : list str :=
  [py "date_planned"; py "platform"; py "content"; py "status"].

Definition SAMPLE_CALENDAR : list (list str) :=
  [CALENDAR_HEADER;
   [py "2023-12-15"; X_TWEET;
    py "This is a test tweet - replace with your content!"; POST_NOW];
   [py "2023-12-15"; X_THREAD;
    py "First part of my thread|||Second part with more details|||Final part with a call to action";
    POST_NOW]].

(** [str(b)] for a [bool]. *)
Definition bool_str (b : bool) : str := if b then py "True" else py "False".

Definition read_calendar : M csv_file := fun w => (Ok (calendar w), w).

(** [for item in items: print(prefix + item)]. *)
Fixpoint print_each (prefix : str) (items : list str) : M unit :=
  match items with
  | [] => ret tt
  | item :: rest => print (prefix ++ item);; print_each prefix rest
  end.

(** The body of the publishing loop on the row of index [i] (counted from
    1); it returns the row as the loop leaves it and the new count. *)
Definition schedule_row (today : date) (dry_run : bool) (i : nat) (row : list str)
    (posted_count : nat) : M (list str * nat) :=
  match row with
  | date_planned :: platform :: content :: status :: _ =>
      match strptime E date_planned with
      | None => ret (row, posted_count)
      | Some planned_date =>
          if str_eqb status POST_NOW && date_eqb planned_date today then
            print ([NEWLINE] ++ py "Processing row " ++ str_of_nat (i + 1) ++ py ": "
                     ++ platform);;
            result ← safe_publish platform content (i + 1) dry_run;
            let row := <[3 := result]> row in
            if contains (py "Posted") result then ret (row, posted_count + 1)
            else if contains (py "Error") result then
              print (py "  Failed to post: " ++ take 50 content ++ py "...");;
              ret (row, posted_count)
            else ret (row, posted_count)
          else ret (row, posted_count)
      end
  | _ => (* len(row) < 4 *) ret (row, posted_count)
  end.

(** [for i, row in enumerate(rows, start=1)], from index [i]. *)
Fixpoint schedule_rows (today : date) (dry_run : bool) (i : nat)
    (rows : list (list str)) (posted_count : nat) : M (list (list str) * nat) :=
  match rows with
  | [] => ret ([], posted_count)
  | row :: rest =>
      '(row, posted_count) ← schedule_row today dry_run i row posted_count;
      '(rest, posted_count) ← schedule_rows today dry_run (S i) rest posted_count;
      ret (row :: rest, posted_count)
  end.

(** Lines 252-303 of [auto_schedule_publish]: what is done with the
    calendar once it is read. *)
Definition process_calendar (today : date) (dry_run : bool) (reader : list (list str))
  : M unit :=
  match reader with
  | header :: ((_ :: _) as rows) =>
      let '(errors, warnings) := validate_content_calendar rows in
      (if negb (is_empty warnings) then
         print ([NEWLINE] ++ py "Warnings:");;
         print_each (py "  " ++ WARNING_SIGN ++ py "  ") warnings
       else ret tt);;
      if negb (is_empty errors) then
        print ([NEWLINE] ++ py "Errors found in content calendar:");;
        print_each (py "  " ++ [CROSS_MARK] ++ py " ") errors;;
        print (py "Fix errors before proceeding")
      else
        '(rows, posted_count) ← schedule_rows today dry_run 1 rows 0;
        modify (set_calendar (fun _ => Some (header :: rows)));;
        (if negb dry_run && (0 <? posted_count) then
           print ([NEWLINE] ++ py "Tracking analytics for previous posts...");;
           track_analytics
         else ret tt);;
        print ([NEWLINE; CHECK_MARK] ++ py " Auto-schedule complete. Posted "
                 ++ str_of_nat posted_count ++ py " items.")
  | _ => (* not reader or len(reader) < 2 *)
      print (py "Content calendar is empty")
  end.

(** [dry_run] is the module constant [DRY_RUN]. *)
Definition auto_schedule_publish (dry_run : bool) : M unit :=
  today ← now;
  let today := dt_date today in
  print (py "Running social media scheduler (Dry Run: " ++ bool_str dry_run ++ py ")");;
  current ← now;
  print (py "Current time: " ++ dt_str current);;
  ensure_log_files;;
  store ← read_calendar;
  match store with
  | None =>
      print (py "Error: content_calendar.csv not found");;
      print (py "Creating a sample content_calendar.csv file...");;
      modify (set_calendar (fun _ => Some SAMPLE_CALENDAR));;
      print (py "Sample content_calendar.csv created. Please edit it with your content.")
  | Some reader => process_calendar today dry_run reader
  end.

(** ** Post now *)

(** A value already computed, or the exception it raised. *)
Definition of_result {A} (r : result A) : M A := fun w => (r, w).

(** The menu loop of [post_now], from index [i]. *)
Fixpoint print_menu (i : nat) (rows : list (list str)) : M unit :=
  match rows with
  | [] => ret tt
  | row :: rest =>
      (match row with
       | _ :: platform :: content :: status :: _ =>
           print (str_of_nat i ++ py ". " ++ platform ++ py ": " ++ take 50 content
                    ++ py "... (Status: " ++ status ++ py ")")
       | _ => ret tt
       end);;
      print_menu (S i) rest
  end.

(** [post_now]; [dry_run] is the module constant [DRY_RUN] and [entered]
    is what [int(input(...))] gives: the number typed, or the exception
    raised by [input] or by [int]. *)
Definition post_now (dry_run : bool) (entered : result Z) : M unit :=
  store ← read_calendar;
  match store with
  | None => print (py "Error: content_calendar.csv not found")
  | Some reader =>
      match reader with
      | [] => (* reader[0] *) raise (IndexError (py "list index out of range"))
      | header :: rows =>
          print (py "Select content to post immediately:");;
          print_menu 1 rows;;
          try_except
            (print ([NEWLINE] ++ py "Enter row number to post: ");;
             n ← of_result entered;
             let choice := (n - 1)%Z in
             if (choice <? 0)%Z || (Z.of_nat (length rows) <=? choice)%Z then
               print (py "Invalid selection")
             else
               match rows !! Z.to_nat choice with
               | None => raise (IndexError (py "list index out of range"))
               | Some row =>
                   match row with
                   | date_planned :: platform :: content :: status :: _ =>
                       print (py "Posting: " ++ platform ++ py " - " ++ take 50 content
                                ++ py "...");;
                       result ← safe_publish platform content (Z.to_nat choice + 2) dry_run;
                       let rows := <[Z.to_nat choice := <[3 := result]> row]> rows in
                       modify (set_calendar (fun _ => Some (header :: rows)));;
                       print (py "Result: " ++ result)
                   | _ => (* len(row) < 4 *) print (py "Invalid row format")
                   end
               end)
            (fun e =>
               match e with
               | ValueError _ => print (py "Please enter a valid number")
               | _ => print (py "Error: " ++ exn_str e)
               end)
      end
  end.

End Program.

(** * The files as text

    The program keeps its files through the module [csv]: it reads the
    calendar with [csv.reader] from a file opened in text mode, and writes
    every file with [csv.writer] to a file opened with [newline=""] and
    [encoding="utf-8"].  The definitions above take a file to be the rows
    of cells these two exchange.  The text of the file is written out here,
    for the dialect both use by default: a comma between fields, the double
    quote as quote character, doubled inside a quoted field, a field quoted
    when it has to be, and a line ended by CR LF. *)

Definition COMMA : char := 44%N.
Definition QUOTE : char := 34%N.
Definition CR : char := 13%N.

(** ** [csv.writer] *)

(** A field is quoted when it holds the delimiter, the quote character or a
    character of the line terminator. *)
Definition needs_quotes (field : str) : bool :=
  existsb (fun c => char_eqb c COMMA || char_eqb c QUOTE || char_eqb c CR
                    || char_eqb c NEWLINE) field.

Fixpoint double_quotes (field : str) : str :=
  match field with
  | [] => []
  | c :: rest => (if char_eqb c QUOTE then [QUOTE; QUOTE] else [c]) ++ double_quotes rest
  end.

Definition csv_field (field : str) : str :=
  if needs_quotes field then [QUOTE] ++ double_quotes field ++ [QUOTE] else field.

(** [writer.writerow(row)]: the text written for one row.  A row of one
    empty field is written as a pair of quotes. *)
Definition csv_line (row : list str) : str :=
  match row with
  | [[]] => [QUOTE; QUOTE]
  | _ => join [COMMA] (csv_field <$> row)
  end ++ [CR; NEWLINE].

(** [writer.writerows(rows)] on a file opened with [newline=""]: the text
    of the file. *)
Definition csv_text (rows : list (list str)) : str := concat (csv_line <$> rows).

(** ** [csv.reader] *)

(** A file opened in text mode without [newline] gives its text with every
    CR LF and every CR left alone turned into LF. *)
Fixpoint universal_newlines (text : str) : str :=
  match text with
  | [] => []
  | c :: rest =>
      if char_eqb c CR then
        match rest with
        | c2 :: rest2 =>
            if char_eqb c2 NEWLINE then NEWLINE :: universal_newlines rest2
            else NEWLINE :: universal_newlines rest
        | [] => [NEWLINE]
        end
      else c :: universal_newlines rest
  end.

(** The states of the reader. *)
Inductive csv_state :=
  | StartRecord
  | StartField
  | InField
  | InQuotedField
  | QuoteInQuotedField.

(** The reader on the lines of a text that holds no CR: [fields] are the
    fields of the record being read and [field] the characters of the field
    being read.  A line end closes the record, but inside a quoted field,
    where it belongs to the field; a line with nothing on it gives a record
    of no field; at the end of the text a record that was begun is given as
    it stands. *)
Fixpoint csv_parse (st : csv_state) (fields : list str) (field : str) (text : str)
  : list (list str) :=
  match text with
  | [] =>
      match st with
      | StartRecord => []
      | _ => [fields ++ [field]]
      end
  | c :: rest =>
      match st with
      | StartRecord | StartField =>
          if char_eqb c NEWLINE then
            match st with
            | StartRecord => []
            | _ => fields ++ [field]
            end :: csv_parse StartRecord [] [] rest
          else if char_eqb c QUOTE then csv_parse InQuotedField fields [] rest
          else if char_eqb c COMMA then csv_parse StartField (fields ++ [[]]) [] rest
          else csv_parse InField fields [c] rest
      | InField =>
          if char_eqb c NEWLINE then (fields ++ [field]) :: csv_parse StartRecord [] [] rest
          else if char_eqb c COMMA then csv_parse StartField (fields ++ [field]) [] rest
          else csv_parse InField fields (field ++ [c]) rest
      | InQuotedField =>
          if char_eqb c QUOTE then csv_parse QuoteInQuotedField fields field rest
          else csv_parse InQuotedField fields (field ++ [c]) rest
      | QuoteInQuotedField =>
          if char_eqb c QUOTE then csv_parse InQuotedField fields (field ++ [QUOTE]) rest
          else if char_eqb c COMMA then csv_parse StartField (fields ++ [field]) [] rest
          else if char_eqb c NEWLINE then
            (fields ++ [field]) :: csv_parse StartRecord [] [] rest
          else csv_parse InField fields (field ++ [c]) rest
      end
  end.

(** [list(csv.reader(f))] for [f] opened with [open(name, "r",
    encoding="utf-8")], as at line 249 of the source. *)
Definition csv_read (text : str) : list (list str) :=
  csv_parse StartRecord [] [] (universal_newlines text).

(** ** What UTF-8 cannot encode

    The text of a row is encoded when it is written.  The code points
    U+D800 to U+DFFF have no encoding in UTF-8: the write raises
    [UnicodeEncodeError], a [ValueError], whose message names the position
    of the first of them in the line, and nothing is written. *)

Definition is_surrogate (c : char) : bool := ((55296 <=? c) && (c <=? 57343))%N.

Fixpoint surrogate_run (s : str) : nat :=
  match s with
  | c :: rest => if is_surrogate c then S (surrogate_run rest) else 0
  | [] => 0
  end.

(** The position, the code point and the length of the first run of code
    points without an encoding. *)
Fixpoint find_surrogate (i : nat) (s : str) : option (nat * char * nat) :=
  match s with
  | [] => None
  | c :: rest =>
      if is_surrogate c then Some (i, c, S (surrogate_run rest))
      else find_surrogate (S i) rest
  end.

Definition hex_digit (n : N) : char :=
  (if n <? 10 then 48 + n else 87 + n)%N.

(** [%04x]. *)
Definition hex4 (c : char) : str :=
  [hex_digit (c / 4096 mod 16); hex_digit (c / 256 mod 16); hex_digit (c / 16 mod 16);
   hex_digit (c mod 16)]%N.

(** [str(e)] for the error of encoding [line], when there is one. *)
Definition encode_error (line : str) : option str :=
  match find_surrogate 0 line with
  | None => None
  | Some (start, c, 1) =>
      Some (py "'utf-8' codec can't encode character '\u" ++ hex4 c ++ py "' in position "
              ++ str_of_nat start ++ py ": surrogates not allowed")
  | Some (start, _, n) =>
      Some (py "'utf-8' codec can't encode characters in position " ++ str_of_nat start
              ++ py "-" ++ str_of_nat (start + n - 1) ++ py ": surrogates not allowed")
  end.

(** [with open(name, "a", newline="", encoding="utf-8") as f:
    csv.writer(f).writerow(row)]: the file is created when it does not
    exist, and receives the row when its line can be encoded. *)
Definition write_row (set_file : (csv_file -> csv_file) -> world -> world)
    (row : list str) : M unit :=
  fun w =>
    match encode_error (csv_line row) with
    | Some message => (Raised (ValueError message), set_file (fun f => Some (default [] f)) w)
    | None => (Ok tt, set_file (append_row row) w)
    end.

Section Encoding.

Variable E : Env.

(** [log_success], [log_error] and [safe_publish] once more, lines 46-54
    and 120-156 of the source, with the encoding of the row written out:
    they are the functions of the same name above whenever the line of the
    row can be encoded. *)
Definition log_success_utf8 (platform content : str) (post_id : option str) : M unit :=
  ts ← now E;
  write_row set_success_log (success_row ts platform content post_id).

Definition log_error_utf8 (platform content error_message : str) : M unit :=
  ts ← now E;
  write_row set_error_log (error_row ts platform content error_message).

Definition safe_publish_utf8 (platform content : str) (row_index : nat) (dry_run : bool)
  : M str :=
  try_except
    (if dry_run then
       print (py "DRY RUN " ++ [ARROW] ++ py " Would post to " ++ platform ++ py ": "
                ++ content);;
       ret DRY_RUN_LABEL
     else
       post_id ← publish_dispatch E platform content dry_run;
       log_success_utf8 platform content post_id;;
       ret POSTED)
    (fun e => log_error_utf8 platform content (exn_str e);; ret ERROR_LABEL).

End Encoding.

(** ** A concrete environment

    An ASCII reading of the format [%Y-%m-%d], a clock and two platforms
    used to run the program on concrete calendars. *)

Module Sample.

Definition digit (c : char) : option nat :=
  if ((48 <=? c) && (c <=? 57))%N then Some (N.to_nat c - 48) else None.

Definition HYPHEN : char := 45%N.
Definition SPACE : char := 32%N.

Definition leap (y : nat) : bool :=
  ((y mod 4 =? 0) && negb (y mod 100 =? 0)) || (y mod 400 =? 0).

Definition days_in_month (y m : nat) : nat :=
  match m with
  | 2 => if leap y then 29 else 28
  | 4 | 6 | 9 | 11 => 30
  | _ => 31
  end.

Definition make_date (y m d : nat) : option date :=
  if (1 <=? y) && (1 <=? m) && (m <=? 12) && (1 <=? d) && (d <=? days_in_month y m)
  then Some (Date y m d) else None.

(** The day field: two digits, one digit, or a space and a digit. *)
Definition parse_day (s : str) : option nat :=
  match s with
  | [a; b] =>
      match digit a, digit b with
      | Some x, Some y => Some (10 * x + y)
      | None, Some y => if char_eqb a SPACE && (1 <=? y) then Some y else None
      | _, _ => None
      end
  | [a] => digit a
  | _ => None
  end.

Definition parse_month_day (y : nat) (s : str) : option date :=
  match s with
  | a :: b :: c :: rest =>
      match digit a, digit b with
      | Some x, Some z =>
          if char_eqb c HYPHEN then d ← parse_day rest; make_date y (10 * x + z) d
          else None
      | Some x, None =>
          if char_eqb b HYPHEN then d ← parse_day (c :: rest); make_date y x d
          else None
      | None, _ => None
      end
  | _ => None
  end.

Definition strptime_ymd (s : str) : option date :=
  match s with
  | a :: b :: c :: d :: h :: rest =>
      match digit a, digit b, digit c, digit d with
      | Some y1, Some y2, Some y3, Some y4 =>
          if char_eqb h HYPHEN
          then parse_month_day (1000 * y1 + 100 * y2 + 10 * y3 + y4) rest
          else None
      | _, _, _, _ => None
      end
  | _ => None
  end.

Definition TODAY : date := Date 2023 12 15.

Definition clock_reading (n : nat) : datetime :=
  DateTime TODAY (py "2023-12-15 09:00:0" ++ str_of_nat n).

(** The number of posting calls made so far. *)
Fixpoint posts_so_far (t : list event) : nat :=
  match t with
  | [] => 0
  | UpdateStatus _ _ :: t' => S (posts_so_far t')
  | _ :: t' => posts_so_far t'
  end.

(** A platform that accepts every post and numbers them from 123. *)
Definition friendly : Env := {|
  strptime := strptime_ymd;
  datetime_now := clock_reading;
  tweepy_API := fun _ => None;
  update_status := fun t _ _ => inl (str_of_nat (123 + posts_so_far t));
  get_status := fun _ _ => inl (TweetStatus 0 0 None)
|}.

(** A platform whose [n]-th posting call (counted from 1) fails. *)
Definition failing (n : nat) : Env := {|
  strptime := strptime_ymd;
  datetime_now := clock_reading;
  tweepy_API := fun _ => None;
  update_status := fun t _ _ =>
    if S (posts_so_far t) =? n then inr (py "503 Service Unavailable")
    else inl (str_of_nat (123 + posts_so_far t));
  get_status := fun _ _ => inr (py "404 Not Found")
|}.

(** A platform whose client cannot be built. *)
Definition offline : Env := {|
  strptime := strptime_ymd;
  datetime_now := clock_reading;
  tweepy_API := fun _ => Some (py "401 Unauthorized");
  update_status := fun t _ _ => inl (str_of_nat (123 + posts_so_far t));
  get_status := fun _ _ => inl (TweetStatus 0 0 None)
|}.

Definition empty_world : world := World [] 0 None None None None [].

Definition with_calendar (rows : list (list str)) : world :=
  World [] 0 (Some (CALENDAR_HEADER :: rows)) None None None [].

(** A world whose ledgers exist with their headers. *)
Definition ready_world : world :=
  World [] 0 None (Some [SUCCESS_HEADER]) (Some [ERROR_HEADER]) (Some [ANALYTICS_HEADER]) [].

(** A world whose success ledger names two posts, a dry run and a post on
    a platform that is not asked about. *)
Definition tracked_world : world :=
  World [] 0 None
    (Some [SUCCESS_HEADER;
           [py "t1"; X_TWEET; py "one"; POSTED; py "123"];
           [py "t2"; X_TWEET; py "two"; POSTED; py "DryRun"];
           [py "t3"; py "Mastodon"; py "three"; POSTED; py "77"];
           [py "t4"; X_THREAD; py "four"; POSTED; py "124,125"]])
    (Some [ERROR_HEADER]) (Some [ANALYTICS_HEADER]) [].

(** The same with a row cut short at the end. *)
Definition torn_world : world :=
  World [] 0 None
    (Some [SUCCESS_HEADER;
           [py "t1"; X_TWEET; py "one"; POSTED; py "123"];
           [py "t2"; X_TWEET; py "two"]])
    (Some [ERROR_HEADER]) (Some [ANALYTICS_HEADER]) [].

(** A calendar written by hand: lines ended by LF, and quotes around a
    field that does not need them. *)
Definition hand_written_line : str :=
  py "2023-12-16," ++ [QUOTE] ++ py "X Tweet" ++ [QUOTE] ++ py ",tomorrow,Done".

Definition hand_written : str :=
  py "date_planned,platform,content,status" ++ [NEWLINE]
  ++ hand_written_line ++ [NEWLINE].

Definition quiet_row : list str := [py "2023-12-16"; X_TWEET; py "tomorrow"; py "Done"].

(** The world whose calendar file holds a text. *)
Definition with_text (text : str) : world :=
  World [] 0 (Some (csv_read text)) None None None [].

Definition tweet_row : list str := [py "2023-12-15"; X_TWEET; py "hello"; POST_NOW].
Definition thread_row : list str := [py "2023-12-15"; X_THREAD; py "a|||b|||c"; POST_NOW].
Definition done_row : list str := [py "2023-12-15"; X_TWEET; py "old news"; py "Done"].
Definition later_row : list str := [py "2023-12-16"; X_TWEET; py "tomorrow"; POST_NOW].
Definition bad_date_row : list str := [py "15-12-2023"; X_TWEET; py "hello"; POST_NOW].

End Sample.

(** * The vocabulary of the specification *)

(** Two worlds with the same clock and the same files: only the trace and
    the standard output may differ. *)
Definition same_files (w w' : world) : Prop :=
  clock w' = clock w /\ calendar w' = calendar w /\ success_log w' = success_log w
  /\ error_log w' = error_log w /\ analytics_log w' = analytics_log w.

(** No part of the list but the last ends with a pipe character. *)
Fixpoint no_inner_pipe_end (parts : list str) : Prop :=
  match parts with
  | p :: ((_ :: _) as rest) => last p <> Some PIPE /\ no_inner_pipe_end rest
  | _ => True
  end.

(** [keeps R m]: however [m] ends, the world it leaves is related by [R]
    to the world it started from. *)
Definition keeps {A} (R : world -> world -> Prop) (m : M A) : Prop :=
  forall w r w', m w = (r, w') -> R w w'.

(** A row is due when its status field is the trigger and its planned
    date is the current date. *)
Definition due (E : Env) (today : date) (row : list str) : Prop :=
  exists d p c rest, row = d :: p :: c :: POST_NOW :: rest /\ strptime E d = Some today.

Definition is_label (s : str) : Prop :=
  s = POSTED \/ s = DRY_RUN_LABEL \/ s = ERROR_LABEL.

(** What one run may do to one row of the store. *)
Definition row_outcome (E : Env) (today : date) (row row' : list str) : Prop :=
  (due E today row /\ exists label, is_label label /\ row' = <[3 := label]> row)
  \/ (~ due E today row /\ row' = row).

(** The world of [auto_schedule_publish] when it reads the calendar: two
    readings of the clock, two lines printed, the ledgers given their
    headers where they did not exist. *)
Definition prologue_world (E : Env) (dry_run : bool) (w : world) : world :=
  set_analytics_log (ensure_header ANALYTICS_HEADER)
    (set_error_log (ensure_header ERROR_HEADER)
       (set_success_log (ensure_header SUCCESS_HEADER)
          (set_stdout
             (fun out =>
                out ++ [py "Running social media scheduler (Dry Run: "
                          ++ bool_str dry_run ++ py ")";
                        py "Current time: " ++ dt_str (datetime_now E (S (clock w)))])
             (set_clock (fun n => S (S n)) w)))).

(** The line printed for a warning. *)
Definition warning_line (warning : str) : str :=
  py "  " ++ WARNING_SIGN ++ py "  " ++ warning.

(** The world after [log_success] and after [log_error]: one reading of
    the clock and one row more in one ledger. *)
Definition logged_success (E : Env) (platform content : str) (post_id : option str)
    (w : world) : world :=
  set_success_log
    (append_row (success_row (datetime_now E (clock w)) platform content post_id))
    (set_clock S w).

Definition logged_error (E : Env) (platform content message : str) (w : world) : world :=
  set_error_log
    (append_row (error_row (datetime_now E (clock w)) platform content message))
    (set_clock S w).

(** The preview a dry run prints. *)
Definition dry_run_preview (platform content : str) : str :=
  py "DRY RUN " ++ [ARROW] ++ py " Would post to " ++ platform ++ py ": " ++ content.

(** A row the validator has nothing against: four cells at least, a date
    that parses, one of the two platforms, content that is not blank and,
    for a thread, at least one part. *)
Definition row_ok (E : Env) (row : list str) : Prop :=
  exists d p c s rest,
    row = d :: p :: c :: s :: rest
    /\ strptime E d <> None
    /\ (p = X_TWEET \/ p = X_THREAD)
    /\ strip c <> []
    /\ (p = X_THREAD -> thread_parts c <> []).

(** The rows of a file, none when it does not exist. *)
Definition rows_of (f : csv_file) : list (list str) := default [] f.

(** Every ledger of [w'] begins with the rows the same ledger has in [w]. *)
Definition ledgers_grow (w w' : world) : Prop :=
  rows_of (success_log w) `prefix_of` rows_of (success_log w')
  /\ rows_of (error_log w) `prefix_of` rows_of (error_log w')
  /\ rows_of (analytics_log w) `prefix_of` rows_of (analytics_log w').

(** The ledgers that exist in [w] exist in [w']. *)
Definition ledgers_stay (w w' : world) : Prop :=
  (success_log w <> None -> success_log w' <> None)
  /\ (error_log w <> None -> error_log w' <> None)
  /\ (analytics_log w <> None -> analytics_log w' <> None).

(** The identifiers asked of [get_status] in a trace. *)
Fixpoint status_queries (t : list event) : list str :=
  match t with
  | [] => []
  | GetStatus id :: t' => id :: status_queries t'
  | _ :: t' => status_queries t'
  end.

(** The pair [track_analytics] keeps of a row of the success ledger, if
    any: its platform and its post identifier. *)
Definition collected (row : list str) : option (str * str) :=
  match row !! 4 with
  | Some post_id =>
      if truthy post_id && negb (str_eqb post_id (py "N/A"))
         && negb (str_eqb post_id (py "DryRun"))
      then Some (default [] (row !! 1), post_id) else None
  | None => None
  end.

(** Whether the platform of a collected pair is one [track_analytics]
    asks about. *)
Definition asks (pair : str * str) : bool := str_in (fst pair) [X_TWEET; X_THREAD].

(** The identifier [track_analytics] has to ask about for a row of the
    success ledger, if any. *)
Definition tracked (row : list str) : option str :=
  match row !! 4 with
  | Some post_id =>
      if truthy post_id && negb (str_eqb post_id (py "N/A"))
         && negb (str_eqb post_id (py "DryRun"))
         && str_in (default [] (row !! 1)) [X_TWEET; X_THREAD]
      then Some post_id else None
  | None => None
  end.

(** ** The order of a thread, as the specification words it

    [posted E t prev texts ids t' last]: from the trace [t], with [prev] the
    identifier of the part posted just before (none for the first part),
    every text of [texts] is accepted by the platform in turn, each after a
    pause of one unit and as a reply to its predecessor unless it is the
    first; [ids] are the identifiers returned, [t'] the trace reached and
    [last] the identifier of the last part posted. *)

Definition pause (prev : option str) : list event :=
  match prev with
  | None => []
  | Some _ => [Sleep 1]
  end.

Inductive posted (E : Env) :
  list event -> option str -> list str -> list str -> list event -> option str -> Prop :=
  | posted_nil t prev : posted E t prev [] [] t prev
  | posted_cons t prev text texts id ids t' last :
      update_status E (t ++ pause prev) text prev = inl id ->
      posted E (t ++ pause prev ++ [UpdateStatus text prev]) (Some id) texts ids t' last ->
      posted E t prev (text :: texts) (id :: ids) t' last.

(** The calls of a thread, written out. *)
Fixpoint chain_events (prev : option str) (texts ids : list str) : list event :=
  match texts, ids with
  | text :: texts', id :: ids' =>
      pause prev ++ UpdateStatus text prev :: chain_events (Some id) texts' ids'
  | _, _ => []
  end.

(** The texts of the posting calls of a trace. *)
Fixpoint posted_texts (t : list event) : list str :=
  match t with
  | [] => []
  | UpdateStatus status _ :: t' => status :: posted_texts t'
  | _ :: t' => posted_texts t'
  end.

(** * Properties *)

(** ** Strings *)

Lemma char_eqb_eq (a b : char) : char_eqb a b = true <-> a = b.
Proof. apply N.eqb_eq. Qed.

Lemma str_eqb_eq (a b : str) : str_eqb a b = true <-> a = b.
Proof.
  revert b. induction a as [|x a IH]; intros [|y b]; simpl; try (split; congruence).
  rewrite andb_true_iff, char_eqb_eq, IH. split.
  - intros [-> ->]. reflexivity.
  - intros [= -> ->]. auto.
Qed.

Lemma str_eqb_refl (a : str) : str_eqb a a = true.
Proof. apply str_eqb_eq. reflexivity. Qed.

Lemma str_eqb_neq (a b : str) : str_eqb a b = false <-> a <> b.
Proof.
  rewrite <- str_eqb_eq. destruct (str_eqb a b); split; congruence.
Qed.

Lemma date_eqb_eq (a b : date) : date_eqb a b = true <-> a = b.
Proof.
  destruct a, b. unfold date_eqb. simpl.
  rewrite !andb_true_iff, !Nat.eqb_eq. split.
  - intros [[-> ->] ->]. reflexivity.
  - intros [= -> -> ->]. auto.
Qed.

(** ** The monad *)

Lemma bind_ok {A B} (m : M A) (k : A -> M B) w a w1 :
  m w = (Ok a, w1) -> (m ≫= k) w = k a w1.
Proof. intros H. unfold mbind, M_bind, bind. rewrite H. reflexivity. Qed.

Lemma bind_raised {A B} (m : M A) (k : A -> M B) w e w1 :
  m w = (Raised e, w1) -> (m ≫= k) w = (Raised e, w1).
Proof. intros H. unfold mbind, M_bind, bind. rewrite H. reflexivity. Qed.

Lemma try_ok {A} (m : M A) (h : exn -> M A) w a w1 :
  m w = (Ok a, w1) -> try_except m h w = (Ok a, w1).
Proof. intros H. unfold try_except. rewrite H. reflexivity. Qed.

Lemma try_raised {A} (m : M A) (h : exn -> M A) w e w1 :
  m w = (Raised e, w1) -> try_except m h w = h e w1.
Proof. intros H. unfold try_except. rewrite H. reflexivity. Qed.

Ltac run :=
  unfold mbind, M_bind, bind, ret, raise, try_except, print, emit, sleep, modify,
    get_trace; simpl.

Lemma same_files_refl w : same_files w w.
Proof. repeat split. Qed.

Lemma set_trace_id w : set_trace (fun _ => trace w) w = w.
Proof. destruct w. reflexivity. Qed.

Lemma posted_texts_app t1 t2 : posted_texts (t1 ++ t2) = posted_texts t1 ++ posted_texts t2.
Proof.
  induction t1 as [|e t1 IH]; simpl; [reflexivity|].
  destruct e; simpl; rewrite ?IH; reflexivity.
Qed.

Lemma posted_texts_pause prev : posted_texts (pause prev) = [].
Proof. destruct prev; reflexivity. Qed.

Lemma posted_length E t prev texts ids t' last :
  posted E t prev texts ids t' last -> length ids = length texts.
Proof. induction 1; simpl; congruence. Qed.

Lemma posted_trace E t prev texts ids t' last :
  posted E t prev texts ids t' last -> t' = t ++ chain_events prev texts ids.
Proof.
  induction 1 as [t prev | t prev text texts id ids t' last Hid _ IH]; simpl.
  - rewrite app_nil_r. reflexivity.
  - rewrite IH, <- !app_assoc. reflexivity.
Qed.

Lemma posted_texts_chain prev texts ids :
  length ids = length texts -> posted_texts (chain_events prev texts ids) = texts.
Proof.
  revert prev ids. induction texts as [|text texts IH]; intros prev [|id ids] Hlen;
    simpl in *; try congruence.
  rewrite posted_texts_app, posted_texts_pause. simpl. rewrite IH by lia. reflexivity.
Qed.

Lemma posted_functional E t prev texts ids1 t1 last1 ids2 t2 last2 :
  posted E t prev texts ids1 t1 last1 -> posted E t prev texts ids2 t2 last2 ->
  ids1 = ids2 /\ t1 = t2 /\ last1 = last2.
Proof.
  intros H1. revert ids2 t2 last2.
  induction H1 as [t prev | t prev text texts id ids t' last Hid _ IH];
    intros ids2 t2 last2 H2; inversion H2; subst.
  - auto.
  - assert (id = id0) by congruence. subst id0.
    destruct (IH _ _ _ ltac:(eassumption)) as (-> & -> & ->). auto.
Qed.

(** ** One call to the platform *)

Lemma client_update_status_ok E w text prev id :
  update_status E (trace w) text prev = inl id ->
  client_update_status E text prev w
  = (Ok id, set_trace (fun t => t ++ [UpdateStatus text prev]) w).
Proof. intros H. unfold client_update_status. run. rewrite H. reflexivity. Qed.

Lemma client_update_status_err E w text prev e :
  update_status E (trace w) text prev = inr e ->
  client_update_status E text prev w
  = (Raised (PlatformError e), set_trace (fun t => t ++ [UpdateStatus text prev]) w).
Proof. intros H. unfold client_update_status. run. rewrite H. reflexivity. Qed.

(** The call of one round of the loop of [publish_thread]. *)
Lemma round_ok E i prev w text id :
  (i = 0 <-> prev = None) ->
  update_status E (trace w ++ pause prev) text prev = inl id ->
  (if i =? 0 then client_update_status E text None
   else sleep 1;; client_update_status E text prev) w
  = (Ok id, set_trace (fun t => t ++ pause prev ++ [UpdateStatus text prev]) w).
Proof.
  intros Hi H. destruct prev as [p|]; simpl in *.
  - destruct i as [|i]; [destruct Hi as [Hi _]; discriminate Hi; reflexivity|].
    simpl. unfold client_update_status. run. rewrite H.
    unfold set_trace. simpl. rewrite <- app_assoc. reflexivity.
  - assert (i = 0) as -> by (apply Hi; reflexivity).
    simpl. rewrite app_nil_r in H.
    unfold client_update_status. run. rewrite H. reflexivity.
Qed.

Lemma round_err E i prev w text e :
  (i = 0 <-> prev = None) ->
  update_status E (trace w ++ pause prev) text prev = inr e ->
  (if i =? 0 then client_update_status E text None
   else sleep 1;; client_update_status E text prev) w
  = (Raised (PlatformError e),
     set_trace (fun t => t ++ pause prev ++ [UpdateStatus text prev]) w).
Proof.
  intros Hi H. destruct prev as [p|]; simpl in *.
  - destruct i as [|i]; [destruct Hi as [Hi _]; discriminate Hi; reflexivity|].
    simpl. unfold client_update_status. run. rewrite H.
    unfold set_trace. simpl. rewrite <- app_assoc. reflexivity.
  - assert (i = 0) as -> by (apply Hi; reflexivity).
    simpl. rewrite app_nil_r in H.
    unfold client_update_status. run. rewrite H. reflexivity.
Qed.

Lemma next_round i (id : str) : S i = 0 <-> Some id = None.
Proof. split; discriminate. Qed.

(** ** The loop of [publish_thread] *)

Lemma thread_loop_posted E contents : forall i prev acc w ids t' last,
  (i = 0 <-> prev = None) ->
  posted E (trace w) prev (truncate <$> contents) ids t' last ->
  thread_loop E i prev acc contents w = (Ok (acc ++ ids), set_trace (fun _ => t') w).
Proof.
  induction contents as [|content rest IH]; intros i prev acc w ids t' last Hi Hp;
    simpl in Hp; inversion Hp; subst; simpl.
  - rewrite app_nil_r, set_trace_id. reflexivity.
  - erewrite bind_ok by (apply round_ok; eassumption).
    erewrite IH; [|apply next_round|simpl; eassumption].
    rewrite <- app_assoc. reflexivity.
Qed.

Lemma thread_loop_fails E pre : forall p post i prev acc w ids t1 last e,
  (i = 0 <-> prev = None) ->
  posted E (trace w) prev (truncate <$> pre) ids t1 last ->
  update_status E (t1 ++ pause last) (truncate p) last = inr e ->
  thread_loop E i prev acc (pre ++ p :: post) w
  = (Raised (PlatformError e),
     set_trace (fun _ => t1 ++ pause last ++ [UpdateStatus (truncate p) last]) w).
Proof.
  induction pre as [|content pre IH]; intros p post i prev acc w ids t1 last e Hi Hp He;
    simpl in Hp; inversion Hp; subst; simpl.
  - erewrite bind_raised by (apply round_err; eassumption). reflexivity.
  - erewrite bind_ok by (apply round_ok; eassumption).
    erewrite IH; [reflexivity|apply next_round| |eassumption].
    simpl. eassumption.
Qed.

(** Every run of the loop is one of the two above. *)
Lemma thread_loop_cases E contents : forall prev t,
  (exists ids t' last, posted E t prev (truncate <$> contents) ids t' last)
  \/ (exists pre p post ids t1 last e,
        contents = pre ++ p :: post
        /\ posted E t prev (truncate <$> pre) ids t1 last
        /\ update_status E (t1 ++ pause last) (truncate p) last = inr e).
Proof.
  induction contents as [|content rest IH]; intros prev t.
  - left. exists [], t, prev. constructor.
  - destruct (update_status E (t ++ pause prev) (truncate content) prev)
      as [id|e] eqn:Hcall.
    + destruct (IH (Some id) (t ++ pause prev ++ [UpdateStatus (truncate content) prev]))
        as [(ids & t' & last & Hp) | (pre & p & post & ids & t1 & last & e & -> & Hp & He)].
      * left. exists (id :: ids), t', last. simpl. econstructor; eassumption.
      * right. exists (content :: pre), p, post, (id :: ids), t1, last, e.
        split; [reflexivity|]. split; [|assumption].
        simpl. econstructor; eassumption.
    + right. exists [], content, rest, [], t, prev, e.
      split; [reflexivity|]. split; [constructor|assumption].
Qed.

(** ** [get_twitter_client], [publish_thread] and [publish_tweet] *)

Lemma get_twitter_client_ok E w :
  tweepy_API E (trace w) = None ->
  get_twitter_client E w = (Ok true, set_trace (fun t => t ++ [GetClient]) w).
Proof. intros H. unfold get_twitter_client. run. rewrite H. reflexivity. Qed.

Lemma get_twitter_client_none E w e :
  tweepy_API E (trace w) = Some e ->
  get_twitter_client E w
  = (Ok false,
     set_stdout (fun out => out ++ [py "Error initializing Twitter client: " ++ e])
       (set_trace (fun t => t ++ [GetClient]) w)).
Proof. intros H. unfold get_twitter_client. run. rewrite H. reflexivity. Qed.

Lemma zero_round : 0 = 0 <-> @None str = None.
Proof. split; reflexivity. Qed.

Lemma publish_thread_posted E parts w ids t' last :
  tweepy_API E (trace w) = None ->
  posted E (trace w ++ [GetClient]) None (truncate <$> parts) ids t' last ->
  publish_thread E parts false w
  = (Ok (replicate (length parts) TAG_SUCCESS, IdList ids), set_trace (fun _ => t') w).
Proof.
  intros Hc Hp. unfold publish_thread.
  apply try_ok. erewrite bind_ok by (apply get_twitter_client_ok; exact Hc). simpl.
  erewrite bind_ok by (eapply thread_loop_posted; [apply zero_round|exact Hp]).
  reflexivity.
Qed.

Lemma publish_thread_fails E pre p post w ids t1 last e :
  tweepy_API E (trace w) = None ->
  posted E (trace w ++ [GetClient]) None (truncate <$> pre) ids t1 last ->
  update_status E (t1 ++ pause last) (truncate p) last = inr e ->
  publish_thread E (pre ++ p :: post) false w
  = (Ok ([TAG_ERROR], ErrorText e),
     set_trace (fun _ => t1 ++ pause last ++ [UpdateStatus (truncate p) last]) w).
Proof.
  intros Hc Hp He. unfold publish_thread.
  erewrite try_raised.
  2:{ erewrite bind_ok by (apply get_twitter_client_ok; exact Hc). simpl.
      erewrite bind_raised by (eapply thread_loop_fails; [apply zero_round|exact Hp|exact He]).
      reflexivity. }
  reflexivity.
Qed.

Lemma publish_thread_no_client E parts w e :
  tweepy_API E (trace w) = Some e ->
  publish_thread E parts false w
  = (Ok ([TAG_ERROR], ErrorText NOT_INITIALIZED),
     set_stdout (fun out => out ++ [py "Error initializing Twitter client: " ++ e])
       (set_trace (fun t => t ++ [GetClient]) w)).
Proof.
  intros Hc. unfold publish_thread.
  apply try_ok. erewrite bind_ok by (apply get_twitter_client_none; exact Hc).
  reflexivity.
Qed.

(** The three ways a live [publish_thread] can end. *)
Lemma publish_thread_cases E parts w :
  (exists e, tweepy_API E (trace w) = Some e)
  \/ (tweepy_API E (trace w) = None
      /\ exists ids t' last,
           posted E (trace w ++ [GetClient]) None (truncate <$> parts) ids t' last)
  \/ (tweepy_API E (trace w) = None
      /\ exists pre p post ids t1 last e,
           parts = pre ++ p :: post
           /\ posted E (trace w ++ [GetClient]) None (truncate <$> pre) ids t1 last
           /\ update_status E (t1 ++ pause last) (truncate p) last = inr e).
Proof.
  destruct (tweepy_API E (trace w)) as [e|] eqn:Hc; [left; eauto|right].
  destruct (thread_loop_cases E parts None (trace w ++ [GetClient])) as [H|H];
    [left|right]; (split; [reflexivity|exact H]).
Qed.

Lemma publish_tweet_ok E content w id :
  tweepy_API E (trace w) = None ->
  update_status E (trace w ++ [GetClient]) (truncate content) None = inl id ->
  publish_tweet E content false w
  = (Ok (TAG_SUCCESS, Some id),
     set_trace (fun t => t ++ [GetClient; UpdateStatus (truncate content) None]) w).
Proof.
  intros Hc Hu. unfold publish_tweet.
  apply try_ok. erewrite bind_ok by (apply get_twitter_client_ok; exact Hc). simpl.
  erewrite bind_ok by (apply client_update_status_ok; exact Hu).
  unfold ret, set_trace. simpl. rewrite <- app_assoc. reflexivity.
Qed.

Lemma publish_tweet_err E content w e :
  tweepy_API E (trace w) = None ->
  update_status E (trace w ++ [GetClient]) (truncate content) None = inr e ->
  publish_tweet E content false w
  = (Ok (TAG_ERROR, Some e),
     set_trace (fun t => t ++ [GetClient; UpdateStatus (truncate content) None]) w).
Proof.
  intros Hc Hu. unfold publish_tweet.
  erewrite try_raised.
  2:{ erewrite bind_ok by (apply get_twitter_client_ok; exact Hc). simpl.
      erewrite bind_raised by (apply client_update_status_err; exact Hu). reflexivity. }
  unfold ret, set_trace. simpl. rewrite <- app_assoc. reflexivity.
Qed.

Lemma publish_tweet_no_client E content w e :
  tweepy_API E (trace w) = Some e ->
  publish_tweet E content false w
  = (Ok (TAG_ERROR, Some NOT_INITIALIZED),
     set_stdout (fun out => out ++ [py "Error initializing Twitter client: " ++ e])
       (set_trace (fun t => t ++ [GetClient]) w)).
Proof.
  intros Hc. unfold publish_tweet.
  apply try_ok. erewrite bind_ok by (apply get_twitter_client_none; exact Hc).
  reflexivity.
Qed.

(** ** [safe_publish] *)

Arguments py : simpl never.
Arguments str_of_nat : simpl never.
Arguments publish_thread : simpl never.
Arguments publish_tweet : simpl never.
Arguments publish_dispatch : simpl never.
Arguments safe_publish : simpl never.

Lemma safe_publish_dry E platform content row_index w :
  safe_publish E platform content row_index true w
  = (Ok DRY_RUN_LABEL,
     set_stdout (fun out => out ++ [dry_run_preview platform content]) w).
Proof. reflexivity. Qed.

Lemma safe_publish_posted E platform content row_index w post_id w1 :
  publish_dispatch E platform content false w = (Ok post_id, w1) ->
  safe_publish E platform content row_index false w
  = (Ok POSTED, logged_success E platform content post_id w1).
Proof.
  intros H. unfold safe_publish. apply try_ok.
  erewrite bind_ok by exact H. reflexivity.
Qed.

Lemma safe_publish_failed E platform content row_index w e w1 :
  publish_dispatch E platform content false w = (Raised e, w1) ->
  safe_publish E platform content row_index false w
  = (Ok ERROR_LABEL, logged_error E platform content (exn_str e) w1).
Proof.
  intros H. unfold safe_publish. erewrite try_raised.
  2:{ erewrite bind_raised by exact H. reflexivity. }
  reflexivity.
Qed.

Lemma str_in_replicate_success n : str_in TAG_ERROR (replicate n TAG_SUCCESS) = false.
Proof. induction n as [|n IH]; [reflexivity|]. simpl. exact IH. Qed.

Lemma same_files_set_trace f w : same_files w (set_trace f w).
Proof. repeat split. Qed.

Lemma same_files_set_stdout f w : same_files w (set_stdout f w).
Proof. repeat split. Qed.

Lemma same_files_set_both f g w : same_files w (set_stdout f (set_trace g w)).
Proof. repeat split. Qed.

Create HintDb files.
#[local] Hint Resolve same_files_set_trace same_files_set_stdout same_files_set_both
  same_files_refl : files.

(** The dispatch only talks to the platform and to the standard output. *)
Lemma publish_dispatch_files E platform content w :
  exists r w1, publish_dispatch E platform content false w = (r, w1) /\ same_files w w1.
Proof.
  unfold publish_dispatch.
  destruct (str_eqb platform X_THREAD) eqn:Hthread.
  - destruct (thread_parts content) as [|part parts] eqn:Hparts; simpl.
    + do 2 eexists. split; [reflexivity|auto with files].
    + destruct (publish_thread_cases E (part :: parts) w)
        as [[e Hc] | [[Hc (ids & t' & last & Hp)]
                     | [Hc (pre & p & post & ids & t1 & last & e & Heq & Hp & He)]]].
      * erewrite bind_ok by (apply publish_thread_no_client; exact Hc).
        do 2 eexists. split; [reflexivity|auto with files].
      * erewrite bind_ok by (eapply publish_thread_posted; [exact Hc|exact Hp]).
        simpl. change (str_in TAG_ERROR (TAG_SUCCESS :: replicate (length parts) TAG_SUCCESS))
          with (str_in TAG_ERROR (replicate (length parts) TAG_SUCCESS)).
        rewrite str_in_replicate_success.
        do 2 eexists. split; [reflexivity|auto with files].
      * rewrite Heq.
        erewrite bind_ok by (eapply publish_thread_fails; [exact Hc|exact Hp|exact He]).
        do 2 eexists. split; [reflexivity|auto with files].
  - destruct (str_eqb platform X_TWEET) eqn:Htweet.
    + destruct (tweepy_API E (trace w)) as [e|] eqn:Hc.
      * erewrite bind_ok by (apply publish_tweet_no_client; exact Hc).
        do 2 eexists. split; [reflexivity|auto with files].
      * destruct (update_status E (trace w ++ [GetClient]) (truncate content) None)
          as [id|e] eqn:Hu.
        -- erewrite bind_ok by (apply publish_tweet_ok; [exact Hc|exact Hu]).
           do 2 eexists. split; [reflexivity|auto with files].
        -- erewrite bind_ok by (apply publish_tweet_err; [exact Hc|exact Hu]).
           do 2 eexists. split; [reflexivity|auto with files].
    + do 2 eexists. split; [reflexivity|auto with files].
Qed.

(** A live [safe_publish] ends in one of two ways. *)
Lemma safe_publish_live E platform content row_index w :
  exists w1, same_files w w1
    /\ ((exists post_id,
           safe_publish E platform content row_index false w
           = (Ok POSTED, logged_success E platform content post_id w1))
        \/ (exists message,
              safe_publish E platform content row_index false w
              = (Ok ERROR_LABEL, logged_error E platform content message w1))).
Proof.
  destruct (publish_dispatch_files E platform content w) as (r & w1 & Hrun & Hfiles).
  exists w1. split; [exact Hfiles|]. destruct r as [post_id|e].
  - left. exists post_id. apply safe_publish_posted. exact Hrun.
  - right. exists (exn_str e). apply safe_publish_failed. exact Hrun.
Qed.

Lemma labels_distinct :
  POSTED <> DRY_RUN_LABEL /\ POSTED <> ERROR_LABEL /\ DRY_RUN_LABEL <> ERROR_LABEL.
Proof. repeat split; discriminate. Qed.

Lemma append_row_neq row (f : csv_file) : append_row row f <> f.
Proof.
  unfold append_row. destruct f as [rows|]; simpl; [|discriminate].
  intros [= H]. apply (f_equal length) in H. rewrite length_app in H. simpl in H. lia.
Qed.

(** ** The ledger after a publish *)

(** C1, as the code has it: a call that ends in the posted label appends
    exactly one row to the success ledger and none to the error ledger; a
    call that ends in the error label appends exactly one row to the error
    ledger and none to the success ledger; a call that ends in the dry-run
    label appends nothing to either ledger. *)
Theorem safe_publish_ledger E platform content row_index dry_run w label w' :
  safe_publish E platform content row_index dry_run w = (Ok label, w') ->
  (label = POSTED ->
     exists ts post_id,
       success_log w' = append_row (success_row ts platform content post_id) (success_log w)
       /\ error_log w' = error_log w)
  /\ (label = ERROR_LABEL ->
        exists ts message,
          error_log w' = append_row (error_row ts platform content message) (error_log w)
          /\ success_log w' = success_log w)
  /\ (label = DRY_RUN_LABEL ->
        success_log w' = success_log w /\ error_log w' = error_log w).
Proof.
  destruct labels_distinct as (Hpd & Hpe & Hde).
  intros Hrun. destruct dry_run.
  - rewrite safe_publish_dry in Hrun. injection Hrun as <- <-.
    repeat split; try (intros Heq; congruence).
  - destruct (safe_publish_live E platform content row_index w)
      as (w1 & (_ & _ & Hs & He & _) & [[post_id H] | [message H]]);
      rewrite H in Hrun; injection Hrun as <- <-.
    + split; [|split]; intros Heq; try congruence.
      exists (datetime_now E (clock w1)), post_id. simpl. rewrite Hs, He. auto.
    + split; [|split]; intros Heq; try congruence.
      exists (datetime_now E (clock w1)), message. simpl. rewrite Hs, He. auto.
Qed.

(** ** [safe_publish] never raises *)

Lemma safe_publish_returns E platform content row_index dry_run w :
  exists label w',
    safe_publish E platform content row_index dry_run w = (Ok label, w')
    /\ is_label label.
Proof.
  unfold is_label. destruct dry_run.
  - do 2 eexists. split; [apply safe_publish_dry|auto].
  - destruct (safe_publish_live E platform content row_index w)
      as (w1 & _ & [[post_id H] | [message H]]); do 2 eexists; (split; [exact H|auto]).
Qed.

(** As long as the row of the ledger is taken to be written, then,
    [safe_publish] returns for every platform, content and dry-run flag, and
    what it returns is the posted label, the dry-run label or the error
    label. *)
Lemma safe_publish_total E platform content row_index dry_run w :
  exists label w',
    safe_publish E platform content row_index dry_run w = (Ok label, w')
    /\ (label = POSTED \/ label = DRY_RUN_LABEL \/ label = ERROR_LABEL).
Proof. apply safe_publish_returns. Qed.

(** ** When the row of the ledger cannot be written

    The row is written by [log_success] inside the [try] block and by
    [log_error] inside the [except] block, lines 151 and 155 of the source.
    With the encoding of the row written out the two functions are the ones
    above as long as the line of the row can be encoded, and raise when it
    cannot. *)

Lemma log_success_utf8_encodable E platform content post_id w :
  encode_error (csv_line (success_row (datetime_now E (clock w)) platform content post_id))
  = None ->
  log_success_utf8 E platform content post_id w = log_success E platform content post_id w.
Proof.
  intros Hline. unfold log_success_utf8, log_success.
  erewrite !bind_ok by reflexivity. unfold write_row. cbn [clock set_clock].
  rewrite Hline. reflexivity.
Qed.

Lemma log_error_utf8_encodable E platform content message w :
  encode_error (csv_line (error_row (datetime_now E (clock w)) platform content message))
  = None ->
  log_error_utf8 E platform content message w = log_error E platform content message w.
Proof.
  intros Hline. unfold log_error_utf8, log_error.
  erewrite !bind_ok by reflexivity. unfold write_row. cbn [clock set_clock].
  rewrite Hline. reflexivity.
Qed.

Lemma log_error_utf8_raises E platform content message text w :
  encode_error (csv_line (error_row (datetime_now E (clock w)) platform content message))
  = Some text ->
  log_error_utf8 E platform content message w
  = (Raised (ValueError text),
     set_error_log (fun f => Some (default [] f)) (set_clock S w)).
Proof.
  intros Hline. unfold log_error_utf8.
  erewrite bind_ok by reflexivity. unfold write_row. cbn [clock set_clock].
  rewrite Hline. reflexivity.
Qed.

(** A dry run writes no row, and is the same with the encoding written
    out. *)
Lemma safe_publish_utf8_dry E platform content row_index w :
  safe_publish_utf8 E platform content row_index true w
  = safe_publish E platform content row_index true w.
Proof. reflexivity. Qed.

(** Whatever the platform and the content, when the platform is not one of
    the two supported and the line of the error row cannot be encoded, the
    [ValueError] of the unsupported platform is caught and the error of the
    encoding, raised by [log_error] in the [except] block, leaves
    [safe_publish]: no label is returned and no row is written. *)
Lemma safe_publish_utf8_unsupported E platform content row_index text w :
  platform <> X_THREAD -> platform <> X_TWEET ->
  encode_error
    (csv_line (error_row (datetime_now E (clock w)) platform content
                 (py "Unsupported platform: " ++ platform)))
  = Some text ->
  safe_publish_utf8 E platform content row_index false w
  = (Raised (ValueError text),
     set_error_log (fun f => Some (default [] f)) (set_clock S w)).
Proof.
  intros Hthread Htweet Hline. unfold safe_publish_utf8.
  erewrite try_raised.
  2:{ erewrite bind_raised; [reflexivity|].
      unfold publish_dispatch.
      rewrite (proj2 (str_eqb_neq _ _) Hthread), (proj2 (str_eqb_neq _ _) Htweet).
      reflexivity. }
  cbn [exn_str].
  erewrite bind_raised; [reflexivity|].
  apply log_error_utf8_raises. exact Hline.
Qed.

(** C8: [safe_publish] does raise.  Called on the platform [Facebook] with
    a content that holds the one code point U+D800 and no dry run, it
    catches the [ValueError] of the unsupported platform, and [log_error],
    called in the [except] block, raises [UnicodeEncodeError] when it writes
    the content to the error ledger; this error leaves [safe_publish], so no
    label is returned and the error ledger receives no row. *)
Theorem safe_publish_escapes :
  safe_publish_utf8 Sample.friendly (py "Facebook") [55296%N] 2 false Sample.ready_world
  = (Raised (ValueError (py "'utf-8' codec can't encode character '\ud800' in position 29: surrogates not allowed")),
     set_clock S Sample.ready_world).
Proof. vm_compute. reflexivity. Qed.

(** ** The dry run *)

Lemma print_thread_trace contents : forall i w,
  exists w', print_thread i contents w = (Ok tt, w') /\ trace w' = trace w.
Proof.
  induction contents as [|content rest IH]; intros i w; simpl.
  - eexists. split; reflexivity.
  - run. destruct (IH (S i) (set_stdout
        (fun out => out ++ [py "  Tweet " ++ str_of_nat (i + 1) ++ py ": " ++ content]) w))
      as (w' & Hrun & Htrace).
    exists w'. split; [exact Hrun|exact Htrace].
Qed.

Lemma publish_thread_dry E parts w :
  exists w', publish_thread E parts true w
             = (Ok (replicate (length parts) TAG_DRY_RUN, NoneValue), w')
             /\ trace w' = trace w.
Proof.
  unfold publish_thread.
  destruct (print_thread_trace parts 0 (set_stdout
      (fun out => out ++ [py "DRY RUN " ++ [ARROW] ++ py " Would post thread with "
                            ++ str_of_nat (length parts) ++ py " tweets"]) w))
    as (w' & Hrun & Htrace).
  exists w'. split; [|exact Htrace].
  erewrite bind_ok by reflexivity. erewrite bind_ok by exact Hrun. reflexivity.
Qed.

(** C10: in dry-run mode [safe_publish] returns the dry-run label for
    every platform and every content; in live mode a platform outside the
    supported set and a thread that is empty after splitting each end in the
    error label with their own message in the error ledger; and a call that
    changes the error ledger is a live call. *)
Theorem dry_run_precedes_checks E :
  (forall platform content row_index w,
      fst (safe_publish E platform content row_index true w) = Ok DRY_RUN_LABEL)
  /\ (forall platform content row_index w,
        platform <> X_THREAD -> platform <> X_TWEET ->
        safe_publish E platform content row_index false w
        = (Ok ERROR_LABEL,
           logged_error E platform content (py "Unsupported platform: " ++ platform) w))
  /\ (forall content row_index w,
        thread_parts content = [] ->
        safe_publish E X_THREAD content row_index false w
        = (Ok ERROR_LABEL,
           logged_error E X_THREAD content
             (py "Thread content is empty after splitting") w))
  /\ (forall platform content row_index dry_run w,
        error_log (snd (safe_publish E platform content row_index dry_run w)) <> error_log w ->
        dry_run = false).
Proof.
  split; [reflexivity|]. split; [|split].
  - intros platform content row_index w Hthread Htweet.
    apply str_eqb_neq in Hthread, Htweet.
    apply (safe_publish_failed E platform content row_index w
             (ValueError (py "Unsupported platform: " ++ platform)) w).
    unfold publish_dispatch. rewrite Hthread, Htweet. reflexivity.
  - intros content row_index w Hparts.
    apply (safe_publish_failed E X_THREAD content row_index w
             (ValueError (py "Thread content is empty after splitting")) w).
    unfold publish_dispatch. rewrite str_eqb_refl, Hparts. reflexivity.
  - intros platform content row_index [|] w H; [|reflexivity].
    exfalso. apply H. reflexivity.
Qed.

(** ** Truncation *)

Lemma truncate_long content :
  280 < length content ->
  truncate content = take 277 content ++ py "..." /\ length (truncate content) = 280.
Proof.
  intros H. unfold truncate.
  destruct (280 <? length content) eqn:Hlt; [|apply Nat.ltb_ge in Hlt; lia].
  split; [reflexivity|].
  rewrite length_app, length_take. change (length (py "...")) with 3. lia.
Qed.

Lemma truncate_short content : length content <= 280 -> truncate content = content.
Proof.
  intros H. unfold truncate.
  destruct (280 <? length content) eqn:Hlt; [apply Nat.ltb_lt in Hlt; lia|reflexivity].
Qed.

Lemma publish_tweet_trace E content w :
  tweepy_API E (trace w) = None ->
  trace (snd (publish_tweet E content false w))
  = trace w ++ [GetClient; UpdateStatus (truncate content) None].
Proof.
  intros Hc.
  destruct (update_status E (trace w ++ [GetClient]) (truncate content) None)
    as [id|e] eqn:Hu.
  - rewrite (publish_tweet_ok E content w id Hc Hu). reflexivity.
  - rewrite (publish_tweet_err E content w e Hc Hu). reflexivity.
Qed.

Lemma publish_thread_texts E parts w :
  tweepy_API E (trace w) = None ->
  exists n,
    posted_texts (trace (snd (publish_thread E parts false w)))
    = posted_texts (trace w) ++ (truncate <$> take n parts).
Proof.
  intros Hc.
  destruct (publish_thread_cases E parts w)
    as [[e Hc'] | [[_ (ids & t' & last & Hp)]
                  | [_ (pre & p & post & ids & t1 & last & e & Heq & Hp & He)]]].
  - congruence.
  - exists (length parts).
    rewrite (publish_thread_posted E parts w ids t' last Hc Hp). simpl.
    rewrite (posted_trace _ _ _ _ _ _ _ Hp), !posted_texts_app. simpl.
    rewrite posted_texts_chain by (rewrite length_fmap; eapply eq_trans;
      [exact (posted_length _ _ _ _ _ _ _ Hp)|apply length_fmap]).
    rewrite firstn_all, app_nil_r. reflexivity.
  - exists (S (length pre)). subst parts.
    rewrite (publish_thread_fails E pre p post w ids t1 last e Hc Hp He). simpl.
    rewrite (posted_trace _ _ _ _ _ _ _ Hp), !posted_texts_app, posted_texts_pause.
    simpl. rewrite posted_texts_chain by (rewrite length_fmap; eapply eq_trans;
      [exact (posted_length _ _ _ _ _ _ _ Hp)|apply length_fmap]).
    rewrite app_nil_r.
    replace (take (S (length pre)) (pre ++ p :: post)) with (pre ++ [p]).
    + rewrite fmap_app, app_assoc. reflexivity.
    + change (p :: post) with ([p] ++ post). rewrite app_assoc.
      rewrite take_app_length'; [reflexivity|]. rewrite length_app. simpl. lia.
Qed.

(** C3: content longer than 280 characters is cut to its first 277
    characters followed by the three characters [...], 280 characters in
    all, and content of at most 280 characters is left as it is; the text of
    the one posting call of [publish_tweet] is the content so treated.  For
    [publish_thread] the texts of the posting calls are fixed by the
    answers of the platform: when it accepts every part, they are all the
    parts, each so treated on its own, in order; when it accepts the parts
    of [pre] and refuses the part [p] after them, they are the parts of
    [pre] and then [p], each so treated on its own, in order, and no part
    after [p]; and one of the two is always the case. *)
Theorem truncation_280 E content (parts : list str) w :
  tweepy_API E (trace w) = None ->
  (forall text, 280 < length text ->
     truncate text = take 277 text ++ py "..." /\ length (truncate text) = 280)
  /\ (forall text, length text <= 280 -> truncate text = text)
  /\ trace (snd (publish_tweet E content false w))
     = trace w ++ [GetClient; UpdateStatus (truncate content) None]
  /\ (forall ids t' last,
        posted E (trace w ++ [GetClient]) None (truncate <$> parts) ids t' last ->
        posted_texts (trace (snd (publish_thread E parts false w)))
        = posted_texts (trace w) ++ (truncate <$> parts))
  /\ (forall pre p post ids t1 last e,
        parts = pre ++ p :: post ->
        posted E (trace w ++ [GetClient]) None (truncate <$> pre) ids t1 last ->
        update_status E (t1 ++ pause last) (truncate p) last = inr e ->
        posted_texts (trace (snd (publish_thread E parts false w)))
        = posted_texts (trace w) ++ (truncate <$> pre ++ [p]))
  /\ ((exists ids t' last,
         posted E (trace w ++ [GetClient]) None (truncate <$> parts) ids t' last)
      \/ (exists pre p post ids t1 last e,
            parts = pre ++ p :: post
            /\ posted E (trace w ++ [GetClient]) None (truncate <$> pre) ids t1 last
            /\ update_status E (t1 ++ pause last) (truncate p) last = inr e)).
Proof.
  intros Hc.
  split; [intros text; apply truncate_long|].
  split; [intros text; apply truncate_short|].
  split; [apply publish_tweet_trace; exact Hc|].
  split; [|split].
  - intros ids t' last Hp.
    rewrite (publish_thread_posted E parts w ids t' last Hc Hp). simpl.
    rewrite (posted_trace _ _ _ _ _ _ _ Hp), !posted_texts_app. simpl.
    rewrite posted_texts_chain by (rewrite length_fmap; eapply eq_trans;
      [exact (posted_length _ _ _ _ _ _ _ Hp)|apply length_fmap]).
    rewrite app_nil_r. reflexivity.
  - intros pre p post ids t1 last e Heq Hp He. subst parts.
    rewrite (publish_thread_fails E pre p post w ids t1 last e Hc Hp He). simpl.
    rewrite (posted_trace _ _ _ _ _ _ _ Hp), !posted_texts_app, posted_texts_pause.
    simpl. rewrite posted_texts_chain by (rewrite length_fmap; eapply eq_trans;
      [exact (posted_length _ _ _ _ _ _ _ Hp)|apply length_fmap]).
    rewrite app_nil_r, fmap_app, app_assoc. reflexivity.
  - destruct (publish_thread_cases E parts w)
      as [[e Hc'] | [[_ Hall] | [_ Hsome]]]; [congruence|left; exact Hall|right; exact Hsome].
Qed.

(** ** The chain of a thread *)

(** C7: with a client at hand, a live [publish_thread] returns the list
    of identifiers [ids] exactly when the platform accepts the parts in the
    order of the specification: the first part as a standalone post, every
    later part after a pause of one unit and as a reply to the identifier
    returned for the part just before it.  The calls made are then the
    chain written out by [chain_events], and [ids] has one identifier per
    part, in posting order. *)
Theorem thread_chained E parts w :
  tweepy_API E (trace w) = None ->
  (forall ids t' last,
      posted E (trace w ++ [GetClient]) None (truncate <$> parts) ids t' last ->
      publish_thread E parts false w
      = (Ok (replicate (length parts) TAG_SUCCESS, IdList ids), set_trace (fun _ => t') w)
      /\ t' = trace w ++ GetClient :: chain_events None (truncate <$> parts) ids
      /\ length ids = length parts)
  /\ (forall results ids w',
        publish_thread E parts false w = (Ok (results, IdList ids), w') ->
        exists t' last,
          posted E (trace w ++ [GetClient]) None (truncate <$> parts) ids t' last
          /\ w' = set_trace (fun _ => t') w).
Proof.
  intros Hc. split.
  - intros ids t' last Hp. split; [apply (publish_thread_posted E parts w ids t' last Hc Hp)|].
    split.
    + rewrite (posted_trace _ _ _ _ _ _ _ Hp), <- app_assoc. reflexivity.
    + rewrite (posted_length _ _ _ _ _ _ _ Hp). apply length_fmap.
  - intros results ids w' Hrun.
    destruct (publish_thread_cases E parts w)
      as [[e Hc'] | [[_ (ids' & t' & last & Hp)]
                    | [_ (pre & p & post & ids' & t1 & last & e & Heq & Hp & He)]]].
    + congruence.
    + rewrite (publish_thread_posted E parts w ids' t' last Hc Hp) in Hrun.
      injection Hrun as _ <- <-. exists t', last. split; [exact Hp|reflexivity].
    + subst parts.
      rewrite (publish_thread_fails E pre p post w ids' t1 last e Hc Hp He) in Hrun.
      discriminate Hrun.
Qed.

(** ** What a computation leaves alone *)

Section Keeps.

Variable R : world -> world -> Prop.
Hypothesis R_refl : forall w, R w w.
Hypothesis R_trans : forall w1 w2 w3, R w1 w2 -> R w2 w3 -> R w1 w3.
Hypothesis R_print : forall line w, R w (set_stdout (fun out => out ++ [line]) w).
Hypothesis R_emit : forall e w, R w (set_trace (fun t => t ++ [e]) w).
Hypothesis R_clock : forall w, R w (set_clock S w).
Hypothesis R_success : forall row w, R w (set_success_log (append_row row) w).
Hypothesis R_error : forall row w, R w (set_error_log (append_row row) w).
Hypothesis R_analytics : forall row w, R w (set_analytics_log (append_row row) w).
Variable E : Env.

Lemma keeps_ret {A} (a : A) : keeps R (ret a).
Proof. intros w r w' [= <- <-]. apply R_refl. Qed.

Lemma keeps_raise {A} e : keeps R (@raise A e).
Proof. intros w r w' [= <- <-]. apply R_refl. Qed.

Lemma keeps_bind {A B} (m : M A) (k : A -> M B) :
  keeps R m -> (forall a, keeps R (k a)) -> keeps R (m ≫= k).
Proof.
  intros Hm Hk w r w' Hrun. unfold mbind, M_bind, bind in Hrun.
  destruct (m w) as [[a|e] w1] eqn:Hmw.
  - eapply R_trans; [eapply Hm; exact Hmw|eapply Hk; exact Hrun].
  - injection Hrun as <- <-. eapply Hm; exact Hmw.
Qed.

Lemma keeps_try {A} (m : M A) (h : exn -> M A) :
  keeps R m -> (forall e, keeps R (h e)) -> keeps R (try_except m h).
Proof.
  intros Hm Hh w r w' Hrun. unfold try_except in Hrun.
  destruct (m w) as [[a|e] w1] eqn:Hmw.
  - injection Hrun as <- <-. eapply Hm; exact Hmw.
  - eapply R_trans; [eapply Hm; exact Hmw|eapply Hh; exact Hrun].
Qed.

Lemma keeps_modify f : (forall w, R w (f w)) -> keeps R (modify f).
Proof. intros Hf w r w' [= <- <-]. apply Hf. Qed.

Lemma keeps_print line : keeps R (print line).
Proof. apply keeps_modify. apply R_print. Qed.

Lemma keeps_emit e : keeps R (emit e).
Proof. apply keeps_modify. apply R_emit. Qed.

Lemma keeps_get_trace : keeps R get_trace.
Proof. intros w r w' [= <- <-]. apply R_refl. Qed.

Lemma keeps_now : keeps R (now E).
Proof. intros w r w' [= <- <-]. apply R_clock. Qed.

Lemma keeps_read_calendar : keeps R read_calendar.
Proof. intros w r w' [= <- <-]. apply R_refl. Qed.

Lemma keeps_read_success_log : keeps R read_success_log.
Proof.
  intros w r w' Hrun. unfold read_success_log in Hrun.
  destruct (success_log w); injection Hrun as <- <-; apply R_refl.
Qed.

Ltac keeps_step :=
  first
    [ apply keeps_ret | apply keeps_raise | apply keeps_print | apply keeps_emit
    | apply keeps_get_trace | apply keeps_now | apply keeps_read_calendar
    | apply keeps_read_success_log
    | apply keeps_bind; [|intros]
    | apply keeps_try; [|intros]
    | apply keeps_modify; intros
    | assumption
    | match goal with
      | |- keeps _ (if ?b then _ else _) => destruct b
      | |- keeps _ (match ?x with _ => _ end) => destruct x
      | |- keeps _ (let (_, _) := ?x in _) => destruct x
      end ].

Lemma keeps_log_success platform content post_id :
  keeps R (log_success E platform content post_id).
Proof. unfold log_success. repeat keeps_step. apply R_success. Qed.

Lemma keeps_log_error platform content message :
  keeps R (log_error E platform content message).
Proof. unfold log_error. repeat keeps_step. apply R_error. Qed.

Lemma keeps_log_analytics platform post_id metrics :
  keeps R (log_analytics E platform post_id metrics).
Proof. unfold log_analytics. repeat keeps_step. apply R_analytics. Qed.

Lemma keeps_get_twitter_client : keeps R (get_twitter_client E).
Proof. unfold get_twitter_client. repeat keeps_step. Qed.

Lemma keeps_client_update_status status in_reply_to :
  keeps R (client_update_status E status in_reply_to).
Proof. unfold client_update_status. repeat keeps_step. Qed.

Lemma keeps_client_get_status post_id : keeps R (client_get_status E post_id).
Proof. unfold client_get_status. repeat keeps_step. Qed.

Lemma keeps_publish_tweet content dry_run : keeps R (publish_tweet E content dry_run).
Proof.
  unfold publish_tweet. destruct dry_run; repeat keeps_step.
Qed.

Lemma keeps_print_thread contents : forall i, keeps R (print_thread i contents).
Proof.
  induction contents as [|content rest IH]; intros i; simpl; repeat keeps_step. apply IH.
Qed.

Lemma keeps_thread_loop contents : forall i prev acc,
  keeps R (thread_loop E i prev acc contents).
Proof.
  induction contents as [|content rest IH]; intros i prev acc; simpl.
  - apply keeps_ret.
  - apply keeps_bind; [|intros; apply IH].
    destruct (i =? 0); repeat keeps_step.
Qed.

Lemma keeps_publish_thread contents dry_run : keeps R (publish_thread E contents dry_run).
Proof.
  unfold publish_thread. destruct dry_run.
  - repeat (apply keeps_bind; [|intros]); try apply keeps_print; try apply keeps_ret.
    apply keeps_print_thread.
  - apply keeps_try; [|intros; apply keeps_ret].
    apply keeps_bind; [apply keeps_get_twitter_client|]. intros client.
    destruct (negb client); [apply keeps_ret|].
    apply keeps_bind; [apply keeps_thread_loop|]. intros. apply keeps_ret.
Qed.

Lemma keeps_publish_dispatch platform content dry_run :
  keeps R (publish_dispatch E platform content dry_run).
Proof.
  unfold publish_dispatch.
  destruct (str_eqb platform X_THREAD); [|destruct (str_eqb platform X_TWEET)].
  - cbv zeta. destruct (is_empty (thread_parts content)); [apply keeps_raise|].
    apply keeps_bind; [apply keeps_publish_thread|]. intros [results ids].
    destruct (str_in TAG_ERROR results); repeat keeps_step.
  - apply keeps_bind; [apply keeps_publish_tweet|]. intros [result id_or_error].
    destruct (str_eqb result TAG_ERROR); repeat keeps_step.
  - apply keeps_raise.
Qed.

Lemma keeps_safe_publish platform content row_index dry_run :
  keeps R (safe_publish E platform content row_index dry_run).
Proof.
  unfold safe_publish. apply keeps_try.
  - destruct dry_run.
    + apply keeps_bind; [apply keeps_print|]. intros. apply keeps_ret.
    + apply keeps_bind; [apply keeps_publish_dispatch|]. intros post_id.
      apply keeps_bind; [apply keeps_log_success|]. intros. apply keeps_ret.
  - intros e. apply keeps_bind; [apply keeps_log_error|]. intros. apply keeps_ret.
Qed.

Lemma keeps_collect_post_ids rows : forall post_ids, keeps R (collect_post_ids rows post_ids).
Proof.
  induction rows as [|row rest IH]; intros post_ids; simpl; [apply keeps_ret|].
  destruct (row !! 4); [apply IH|apply keeps_raise].
Qed.

Lemma keeps_track_posts post_ids : keeps R (track_posts E post_ids).
Proof.
  induction post_ids as [|[platform post_id] rest IH]; simpl; [apply keeps_ret|].
  apply keeps_bind; [|intros; apply IH].
  match goal with |- keeps _ (if ?b then _ else _) => destruct b end; [|apply keeps_ret].
  apply keeps_try; [|intros; apply keeps_print].
  apply keeps_bind; [apply keeps_client_get_status|]. intros. apply keeps_log_analytics.
Qed.

Lemma keeps_track_analytics : keeps R (track_analytics E).
Proof.
  unfold track_analytics. apply keeps_try; [|intros; apply keeps_print].
  apply keeps_bind; [apply keeps_get_twitter_client|]. intros client.
  destruct (negb client); [apply keeps_print|].
  apply keeps_bind; [apply keeps_read_success_log|]. intros [|header rows].
  - apply keeps_raise.
  - apply keeps_bind; [apply keeps_collect_post_ids|]. intros. apply keeps_track_posts.
Qed.

Lemma keeps_print_each prefix items : keeps R (print_each prefix items).
Proof. induction items as [|item rest IH]; simpl; repeat keeps_step. Qed.

Lemma keeps_schedule_row today dry_run i row posted_count :
  keeps R (schedule_row E today dry_run i row posted_count).
Proof.
  unfold schedule_row.
  destruct row as [|d [|p [|c [|s rest]]]]; try apply keeps_ret.
  destruct (strptime E d) as [planned|]; [|apply keeps_ret].
  destruct (str_eqb s POST_NOW && date_eqb planned today); [|apply keeps_ret].
  apply keeps_bind; [apply keeps_print|]. intros _.
  apply keeps_bind; [apply keeps_safe_publish|]. intros result.
  cbv zeta. repeat keeps_step.
Qed.

Lemma keeps_schedule_rows today dry_run rows : forall i posted_count,
  keeps R (schedule_rows E today dry_run i rows posted_count).
Proof.
  induction rows as [|row rest IH]; intros i posted_count; simpl; [apply keeps_ret|].
  apply keeps_bind; [apply keeps_schedule_row|]. intros [row' count'].
  apply keeps_bind; [apply IH|]. intros [rest' count'']. apply keeps_ret.
Qed.

End Keeps.

(** ** The publishing loop *)

Lemma contains_labels :
  contains (py "Posted") POSTED = true
  /\ contains (py "Posted") DRY_RUN_LABEL = false
  /\ contains (py "Error") DRY_RUN_LABEL = false
  /\ contains (py "Posted") ERROR_LABEL = false
  /\ contains (py "Error") ERROR_LABEL = true.
Proof. vm_compute. auto. Qed.

(** What [schedule_row] does with a row once [safe_publish] has answered. *)
Lemma schedule_row_published E today dry_run i d p c rest posted_count w label w1 :
  strptime E d = Some today ->
  safe_publish E p c (i + 1) dry_run
    (set_stdout (fun out => out ++ [[NEWLINE] ++ py "Processing row " ++ str_of_nat (i + 1)
                                      ++ py ": " ++ p]) w)
  = (Ok label, w1) ->
  is_label label ->
  exists posted_count' w2,
    schedule_row E today dry_run i (d :: p :: c :: POST_NOW :: rest) posted_count w
    = (Ok (d :: p :: c :: label :: rest, posted_count'), w2)
    /\ (label = ERROR_LABEL -> posted_count' = posted_count)
    /\ trace w2 = trace w1 /\ same_files w1 w2.
Proof.
  intros Hdate Hrun Hlabel.
  destruct contains_labels as (Hpp & Hpd & Hed & Hpe & Hee).
  assert (Hstep : forall k : str -> M (list str * nat),
    (if str_eqb POST_NOW POST_NOW && date_eqb today today
     then print ([NEWLINE] ++ py "Processing row " ++ str_of_nat (i + 1) ++ py ": " ++ p)
          ≫= (fun _ => safe_publish E p c (i + 1) dry_run ≫= k)
     else ret (d :: p :: c :: POST_NOW :: rest, posted_count)) w
    = k label w1).
  { intros k. rewrite str_eqb_refl, (proj2 (date_eqb_eq today today) eq_refl).
    change (true && true) with true. cbv iota.
    erewrite bind_ok by reflexivity. erewrite bind_ok by exact Hrun. reflexivity. }
  unfold schedule_row. rewrite Hdate, Hstep. cbv zeta.
  destruct Hlabel as [-> | [-> | ->]].
  - rewrite Hpp. do 2 eexists. split; [reflexivity|].
    split; [intros; discriminate|]. split; [reflexivity|apply same_files_refl].
  - rewrite Hpd, Hed. do 2 eexists. split; [reflexivity|].
    split; [intros; discriminate|]. split; [reflexivity|apply same_files_refl].
  - rewrite Hpe, Hee. do 2 eexists. split; [reflexivity|].
    split; [reflexivity|]. split; [reflexivity|apply same_files_set_stdout].
Qed.

Lemma not_due_test E today d p c s rest planned :
  strptime E d = Some planned ->
  ~ due E today (d :: p :: c :: s :: rest) ->
  str_eqb s POST_NOW && date_eqb planned today = false.
Proof.
  intros Hdate Hnot.
  destruct (str_eqb s POST_NOW) eqn:Hs; [|reflexivity].
  destruct (date_eqb planned today) eqn:Hd; [|reflexivity].
  exfalso. apply Hnot. apply str_eqb_eq in Hs. apply date_eqb_eq in Hd. subst.
  exists d, p, c, rest. auto.
Qed.

Lemma due_dec E today row : due E today row \/ ~ due E today row.
Proof.
  destruct row as [|d [|p [|c [|s rest]]]];
    try (right; intros (d' & p' & c' & rest' & Heq & _); discriminate Heq).
  destruct (str_eqb s POST_NOW) eqn:Hs.
  - apply str_eqb_eq in Hs. subst s.
    destruct (strptime E d) as [planned|] eqn:Hdate.
    + destruct (date_eqb planned today) eqn:Hd.
      * apply date_eqb_eq in Hd. subst. left. exists d, p, c, rest. auto.
      * right. intros (d' & p' & c' & rest' & [= <- <- <- <-] & Hdate').
        rewrite Hdate in Hdate'. injection Hdate' as ->.
        rewrite (proj2 (date_eqb_eq today today) eq_refl) in Hd. discriminate.
    + right. intros (d' & p' & c' & rest' & [= <- <- <- <-] & Hdate'). congruence.
  - right. intros (d' & p' & c' & rest' & [= _ _ _ -> _] & _).
    rewrite str_eqb_refl in Hs. discriminate.
Qed.

Lemma schedule_row_outcome E today dry_run i row posted_count w :
  exists row' posted_count' w',
    schedule_row E today dry_run i row posted_count w = (Ok (row', posted_count'), w')
    /\ row_outcome E today row row'.
Proof.
  destruct (due_dec E today row) as [Hdue | Hnot].
  - destruct Hdue as (d & p & c & rest & -> & Hdate).
    destruct (safe_publish_returns E p c (i + 1) dry_run
                (set_stdout (fun out => out ++ [[NEWLINE] ++ py "Processing row "
                   ++ str_of_nat (i + 1) ++ py ": " ++ p]) w))
      as (label & w1 & Hrun & Hlabel).
    destruct (schedule_row_published E today dry_run i d p c rest posted_count w label w1
                Hdate Hrun Hlabel) as (count' & w2 & Hrow & _).
    exists (d :: p :: c :: label :: rest), count', w2. split; [exact Hrow|].
    left. split; [exists d, p, c, rest; auto|]. exists label. split; [exact Hlabel|reflexivity].
  - exists row, posted_count, w. split; [|right; auto].
    unfold schedule_row.
    destruct row as [|d [|p [|c [|s rest]]]]; try reflexivity.
    destruct (strptime E d) as [planned|] eqn:Hdate; [|reflexivity].
    rewrite (not_due_test E today d p c s rest planned Hdate Hnot). reflexivity.
Qed.

Lemma schedule_rows_outcome E today dry_run rows : forall i posted_count w,
  exists rows' posted_count' w',
    schedule_rows E today dry_run i rows posted_count w = (Ok (rows', posted_count'), w')
    /\ Forall2 (row_outcome E today) rows rows'.
Proof.
  induction rows as [|row rest IH]; intros i posted_count w; simpl.
  - exists [], posted_count, w. split; [reflexivity|constructor].
  - destruct (schedule_row_outcome E today dry_run i row posted_count w)
      as (row' & count1 & w1 & Hrow & Hout).
    destruct (IH (S i) count1 w1) as (rest' & count2 & w2 & Hrest & Houts).
    exists (row' :: rest'), count2, w2. split; [|constructor; assumption].
    erewrite bind_ok by exact Hrow. cbv beta iota.
    erewrite bind_ok by exact Hrest. reflexivity.
Qed.

(** ** A thread that fails part-way *)

(** C4: let the parts of a thread row be [pre ++ p :: post], let the
    platform accept the parts of [pre] and refuse [p] with the text [e].
    Then the calls made stop at the refused one (nothing of [post] is
    attempted), [publish_thread] returns the error tag with the text [e] and
    none of the identifiers of [pre], [safe_publish] returns the error label
    having appended one row carrying [e] to the error ledger and nothing to
    the success ledger, and the scheduler writes the error label in the
    status field of the row. *)
Theorem thread_failure E content row_index w pre p post ids t1 last e :
  thread_parts content = pre ++ p :: post ->
  tweepy_API E (trace w) = None ->
  posted E (trace w ++ [GetClient]) None (truncate <$> pre) ids t1 last ->
  update_status E (t1 ++ pause last) (truncate p) last = inr e ->
  let attempted := t1 ++ pause last ++ [UpdateStatus (truncate p) last] in
  let message := py "Thread posting failed: " ++ e in
  posted_texts attempted = posted_texts (trace w) ++ (truncate <$> pre ++ [p])
  /\ publish_thread E (thread_parts content) false w
     = (Ok ([TAG_ERROR], ErrorText e), set_trace (fun _ => attempted) w)
  /\ (exists w',
        safe_publish E X_THREAD content row_index false w = (Ok ERROR_LABEL, w')
        /\ trace w' = attempted
        /\ error_log w'
           = append_row (error_row (datetime_now E (clock w)) X_THREAD content message)
               (error_log w)
        /\ success_log w' = success_log w)
  /\ (forall today i d rest posted_count,
        strptime E d = Some today ->
        exists w',
          schedule_row E today false i (d :: X_THREAD :: content :: POST_NOW :: rest)
            posted_count w
          = (Ok (d :: X_THREAD :: content :: ERROR_LABEL :: rest, posted_count), w')
          /\ trace w' = attempted
          /\ error_log w'
             = append_row (error_row (datetime_now E (clock w)) X_THREAD content message)
                 (error_log w)
          /\ success_log w' = success_log w).
Proof.
  intros Hparts Hc Hp He attempted message.
  assert (Hthread : forall w0, trace w0 = trace w ->
            publish_thread E (thread_parts content) false w0
            = (Ok ([TAG_ERROR], ErrorText e), set_trace (fun _ => attempted) w0)).
  { intros w0 Htrace. rewrite Hparts.
    apply (publish_thread_fails E pre p post w0 ids t1 last e); rewrite ?Htrace; assumption. }
  assert (Hsafe : forall w0 n, trace w0 = trace w ->
            safe_publish E X_THREAD content n false w0
            = (Ok ERROR_LABEL,
               logged_error E X_THREAD content message (set_trace (fun _ => attempted) w0))).
  { intros w0 n Htrace.
    apply (safe_publish_failed E X_THREAD content n w0 (Exception message)).
    unfold publish_dispatch. rewrite str_eqb_refl. cbv zeta.
    destruct (thread_parts content) as [|part parts] eqn:Hsplit.
    - destruct pre; discriminate Hparts.
    - cbv iota beta delta [is_empty].
      erewrite bind_ok by (apply Hthread; exact Htrace). reflexivity. }
  split; [|split; [|split]].
  - unfold attempted.
    rewrite (posted_trace _ _ _ _ _ _ _ Hp), !posted_texts_app, posted_texts_pause.
    simpl. rewrite posted_texts_chain by (rewrite length_fmap; eapply eq_trans;
      [exact (posted_length _ _ _ _ _ _ _ Hp)|apply length_fmap]).
    rewrite app_nil_r, fmap_app, app_assoc. reflexivity.
  - apply Hthread. reflexivity.
  - eexists. split; [apply Hsafe; reflexivity|]. repeat split.
  - intros today i d rest posted_count Hdate.
    pose (w0 := set_stdout (fun out => out ++ [[NEWLINE] ++ py "Processing row "
                  ++ str_of_nat (i + 1) ++ py ": " ++ X_THREAD]) w).
    destruct (schedule_row_published E today false i d X_THREAD content rest posted_count w
                ERROR_LABEL _ Hdate (Hsafe w0 (i + 1) eq_refl))
      as (count' & w2 & Hrow & Hcount & Htrace & (_ & _ & Hs & Herr & _)).
    { right. right. reflexivity. }
    rewrite (Hcount eq_refl) in Hrow.
    exists w2. split; [exact Hrow|]. rewrite Htrace, Herr, Hs. repeat split.
Qed.

(** ** The scheduler *)

Arguments process_calendar : simpl never.
Arguments schedule_rows : simpl never.
Arguments track_analytics : simpl never.
Arguments validate_content_calendar : simpl never.

Lemma auto_schedule_reads E dry_run w reader :
  calendar w = Some reader ->
  auto_schedule_publish E dry_run w
  = process_calendar E (dt_date (datetime_now E (clock w))) dry_run reader
      (prologue_world E dry_run w).
Proof.
  intros Hcal. unfold auto_schedule_publish. run. rewrite Hcal.
  unfold prologue_world, set_stdout. simpl. rewrite <- app_assoc. reflexivity.
Qed.

Lemma set_stdout_nil w : set_stdout (fun out => out ++ []) w = w.
Proof. destruct w. unfold set_stdout. simpl. rewrite app_nil_r. reflexivity. Qed.

Lemma set_stdout_app l1 l2 w :
  set_stdout (fun out => out ++ l2) (set_stdout (fun out => out ++ l1) w)
  = set_stdout (fun out => out ++ l1 ++ l2) w.
Proof. unfold set_stdout. simpl. rewrite <- app_assoc. reflexivity. Qed.

Lemma print_each_run prefix items : forall w,
  print_each prefix items w
  = (Ok tt, set_stdout (fun out => out ++ ((fun item => prefix ++ item) <$> items)) w).
Proof.
  induction items as [|item rest IH]; intros w; simpl.
  - rewrite set_stdout_nil. reflexivity.
  - erewrite bind_ok by reflexivity. rewrite IH, set_stdout_app. reflexivity.
Qed.

Lemma warnings_phase (warnings : list str) w :
  exists lines,
    (if negb (is_empty warnings)
     then print ([NEWLINE] ++ py "Warnings:");;
          print_each (py "  " ++ WARNING_SIGN ++ py "  ") warnings
     else ret tt) w
    = (Ok tt, set_stdout (fun out => out ++ lines) w)
    /\ forall warning, warning ∈ warnings -> warning_line warning ∈ lines.
Proof.
  destruct warnings as [|x warnings].
  - exists []. simpl. rewrite set_stdout_nil. split; [reflexivity|].
    intros warning H. inversion H.
  - eexists. split.
    + cbv beta iota delta [is_empty negb].
      erewrite bind_ok by reflexivity. rewrite print_each_run, set_stdout_app. reflexivity.
    + intros warning H. apply list_elem_of_In. right. apply list_elem_of_In.
      apply (list_elem_of_fmap_2 (fun item => py "  " ++ WARNING_SIGN ++ py "  " ++ item)) in H.
      unfold warning_line. exact H.
Qed.

(** The run of a calendar in which the validator finds an error. *)
Lemma process_calendar_errors E today dry_run header row rows errors warnings w :
  validate_content_calendar E (row :: rows) = (errors, warnings) ->
  errors <> [] ->
  exists lines,
    process_calendar E today dry_run (header :: row :: rows) w
    = (Ok tt, set_stdout (fun out => out ++ lines) w)
    /\ forall warning, warning ∈ warnings -> warning_line warning ∈ lines.
Proof.
  intros Hval Herr. unfold process_calendar. rewrite Hval.
  destruct (warnings_phase warnings w) as (lines & Hrun & Hin).
  destruct errors as [|error errors]; [congruence|].
  eexists. split.
  - erewrite bind_ok by exact Hrun. cbv beta iota delta [is_empty negb].
    erewrite bind_ok by reflexivity.
    erewrite bind_ok by apply print_each_run.
    unfold print, modify. rewrite !set_stdout_app. reflexivity.
  - intros warning H. apply elem_of_app. left. apply Hin. exact H.
Qed.

Lemma stdout_grows_trans w1 w2 w3 :
  stdout w1 `prefix_of` stdout w2 -> stdout w2 `prefix_of` stdout w3 ->
  stdout w1 `prefix_of` stdout w3.
Proof. intros H1 H2. etransitivity; eassumption. Qed.

Lemma schedule_rows_stdout E today dry_run rows i posted_count w r w' :
  schedule_rows E today dry_run i rows posted_count w = (r, w') ->
  stdout w `prefix_of` stdout w'.
Proof.
  intros Hrun.
  refine (keeps_schedule_rows (fun w w' => stdout w `prefix_of` stdout w')
            _ _ _ _ _ _ _ E today dry_run rows i posted_count w r w' Hrun);
    try reflexivity; try (intros; reflexivity).
  - apply stdout_grows_trans.
  - intros line w0. simpl. apply prefix_app_r. reflexivity.
Qed.

Ltac calendar_side := intros; simpl; first [reflexivity | congruence].
Ltac stdout_side :=
  intros; simpl;
  first [reflexivity | apply prefix_app_r; reflexivity | etransitivity; eassumption].

(** What follows the publishing loop keeps the calendar just written and
    only adds to the standard output. *)
Lemma epilogue_kept E dry_run posted_count w :
  let w' := snd (((if negb dry_run && (0 <? posted_count)
                   then print ([NEWLINE] ++ py "Tracking analytics for previous posts...");;
                        track_analytics E
                   else ret tt);;
                  print ([NEWLINE; CHECK_MARK] ++ py " Auto-schedule complete. Posted "
                           ++ str_of_nat posted_count ++ py " items.")) w) in
  calendar w' = calendar w /\ stdout w `prefix_of` stdout w'.
Proof.
  match goal with |- let w' := snd (?T w) in _ => destruct (T w) as [r w1] eqn:Hrun end.
  simpl. split.
  - revert Hrun. apply (keeps_bind (fun w w' => calendar w' = calendar w)).
    + calendar_side.
    + destruct (negb dry_run && (0 <? posted_count)).
      * apply keeps_bind; [calendar_side|apply keeps_print; calendar_side|].
        intros _. apply keeps_track_analytics; calendar_side.
      * apply keeps_ret; calendar_side.
    + intros _. apply keeps_print; calendar_side.
  - revert Hrun. apply (keeps_bind (fun w w' => stdout w `prefix_of` stdout w')).
    + stdout_side.
    + destruct (negb dry_run && (0 <? posted_count)).
      * apply keeps_bind; [stdout_side|apply keeps_print; stdout_side|].
        intros _. apply keeps_track_analytics; stdout_side.
      * apply keeps_ret; stdout_side.
    + intros _. apply keeps_print; stdout_side.
Qed.

(** The run of a calendar in which the validator finds no error. *)
Lemma process_calendar_valid E today dry_run header row rows warnings w :
  validate_content_calendar E (row :: rows) = ([], warnings) ->
  exists lines rows' posted_count w1,
    (forall warning, warning ∈ warnings -> warning_line warning ∈ lines)
    /\ schedule_rows E today dry_run 1 (row :: rows) 0
         (set_stdout (fun out => out ++ lines) w)
       = (Ok (rows', posted_count), w1)
    /\ Forall2 (row_outcome E today) (row :: rows) rows'
    /\ calendar (snd (process_calendar E today dry_run (header :: row :: rows) w))
       = Some (header :: rows')
    /\ stdout w1 `prefix_of`
         stdout (snd (process_calendar E today dry_run (header :: row :: rows) w)).
Proof.
  intros Hval.
  destruct (warnings_phase warnings w) as (lines & Hwarn & Hin).
  destruct (schedule_rows_outcome E today dry_run (row :: rows) 1 0
              (set_stdout (fun out => out ++ lines) w))
    as (rows' & posted_count & w1 & Hrows & Hout).
  exists lines, rows', posted_count, w1.
  split; [exact Hin|]. split; [exact Hrows|]. split; [exact Hout|].
  unfold process_calendar. rewrite Hval.
  erewrite bind_ok by exact Hwarn. cbv beta iota delta [is_empty negb].
  erewrite bind_ok by exact Hrows. cbv beta iota.
  erewrite bind_ok by reflexivity.
  destruct (epilogue_kept E dry_run posted_count
              (set_calendar (fun _ => Some (header :: rows')) w1)) as [Hcal Hstd].
  split; [exact Hcal|exact Hstd].
Qed.

(** ** A dry run of the scheduler *)

Ltac trace_side := intros; simpl; first [reflexivity | congruence].

Lemma safe_publish_dry_trace E platform content row_index :
  keeps (fun w w' => trace w' = trace w) (safe_publish E platform content row_index true).
Proof. intros w r w' Hrun. rewrite safe_publish_dry in Hrun. injection Hrun as _ <-. reflexivity. Qed.

Lemma schedule_row_dry_trace E today i row posted_count :
  keeps (fun w w' => trace w' = trace w) (schedule_row E today true i row posted_count).
Proof.
  unfold schedule_row.
  destruct row as [|d [|p [|c [|s rest]]]]; try (apply keeps_ret; trace_side).
  destruct (strptime E d) as [planned|]; [|apply keeps_ret; trace_side].
  destruct (str_eqb s POST_NOW && date_eqb planned today); [|apply keeps_ret; trace_side].
  apply keeps_bind; [trace_side|apply keeps_print; trace_side|]. intros _.
  apply keeps_bind; [trace_side|apply safe_publish_dry_trace|]. intros result. cbv zeta.
  destruct (contains (py "Posted") result); [apply keeps_ret; trace_side|].
  destruct (contains (py "Error") result); [|apply keeps_ret; trace_side].
  apply keeps_bind; [trace_side|apply keeps_print; trace_side|].
  intros _. apply keeps_ret; trace_side.
Qed.

Lemma schedule_rows_dry_trace E today rows : forall i posted_count,
  keeps (fun w w' => trace w' = trace w) (schedule_rows E today true i rows posted_count).
Proof.
  induction rows as [|row rest IH]; intros i posted_count; cbn [schedule_rows];
    [apply keeps_ret; trace_side|].
  apply keeps_bind; [trace_side|apply schedule_row_dry_trace|]. intros [row' count'].
  apply keeps_bind; [trace_side|apply IH|]. intros [rest' count'']. apply keeps_ret; trace_side.
Qed.

Lemma process_calendar_dry_trace E today reader :
  keeps (fun w w' => trace w' = trace w) (process_calendar E today true reader).
Proof.
  unfold process_calendar.
  destruct reader as [|header [|row rows]]; try (apply keeps_print; trace_side).
  destruct (validate_content_calendar E (row :: rows)) as [errors warnings].
  apply keeps_bind; [trace_side| |intros _].
  - destruct (negb (is_empty warnings)); [|apply keeps_ret; trace_side].
    apply keeps_bind; [trace_side|apply keeps_print; trace_side|].
    intros _. apply keeps_print_each; trace_side.
  - destruct (negb (is_empty errors)).
    + apply keeps_bind; [trace_side|apply keeps_print; trace_side|]. intros _.
      apply keeps_bind; [trace_side|apply keeps_print_each; trace_side|]. intros _.
      apply keeps_print; trace_side.
    + apply keeps_bind; [trace_side|apply schedule_rows_dry_trace|]. intros [rows' count].
      apply keeps_bind; [trace_side|apply keeps_modify; trace_side|]. intros _.
      apply keeps_bind; [trace_side|apply keeps_ret; trace_side|]. intros _.
      apply keeps_print; trace_side.
Qed.

Lemma auto_schedule_dry_trace E w :
  trace (snd (auto_schedule_publish E true w)) = trace w.
Proof.
  destruct (auto_schedule_publish E true w) as [r w'] eqn:Hrun. simpl.
  revert Hrun. unfold auto_schedule_publish.
  apply (keeps_bind (fun w w' => trace w' = trace w)); [trace_side|apply keeps_now; trace_side|].
  intros today. cbv zeta.
  apply keeps_bind; [trace_side|apply keeps_print; trace_side|]. intros _.
  apply keeps_bind; [trace_side|apply keeps_now; trace_side|]. intros current.
  apply keeps_bind; [trace_side|apply keeps_print; trace_side|]. intros _.
  apply keeps_bind; [trace_side| |intros _].
  { unfold ensure_log_files.
    repeat (apply keeps_bind; [trace_side|apply keeps_modify; trace_side|intros _]).
    apply keeps_modify; trace_side. }
  apply keeps_bind; [trace_side|apply keeps_read_calendar; trace_side|].
  intros [reader|]; [apply process_calendar_dry_trace|].
  apply keeps_bind; [trace_side|apply keeps_print; trace_side|]. intros _.
  apply keeps_bind; [trace_side|apply keeps_print; trace_side|]. intros _.
  apply keeps_bind; [trace_side|apply keeps_modify; trace_side|]. intros _.
  apply keeps_print; trace_side.
Qed.

Lemma schedule_row_dry E today i d p c rest posted_count w :
  strptime E d = Some today ->
  fst (schedule_row E today true i (d :: p :: c :: POST_NOW :: rest) posted_count w)
  = Ok (d :: p :: c :: DRY_RUN_LABEL :: rest, posted_count).
Proof.
  intros Hdate. unfold schedule_row.
  rewrite Hdate, str_eqb_refl, (proj2 (date_eqb_eq today today) eq_refl).
  reflexivity.
Qed.

(** C2: with the dry-run flag set, [safe_publish] returns the dry-run
    label at once, having only printed the preview: the trace of calls to
    the platform (client initialisation, post, reply) is the one before the
    call.  The same holds of [publish_tweet] and of [publish_thread] called
    with the flag.  A dry run of the scheduler gives every due row the
    dry-run label and makes no call to the platform at all. *)
Theorem dry_run_no_platform_call E platform content row_index (parts : list str) w :
  safe_publish E platform content row_index true w
  = (Ok DRY_RUN_LABEL, set_stdout (fun out => out ++ [dry_run_preview platform content]) w)
  /\ trace (snd (safe_publish E platform content row_index true w)) = trace w
  /\ fst (publish_tweet E content true w) = Ok (TAG_DRY_RUN, None)
  /\ trace (snd (publish_tweet E content true w)) = trace w
  /\ fst (publish_thread E parts true w)
     = Ok (replicate (length parts) TAG_DRY_RUN, NoneValue)
  /\ trace (snd (publish_thread E parts true w)) = trace w
  /\ trace (snd (auto_schedule_publish E true w)) = trace w
  /\ (forall today i d rest posted_count,
        strptime E d = Some today ->
        fst (schedule_row E today true i (d :: platform :: content :: POST_NOW :: rest)
               posted_count w)
        = Ok (d :: platform :: content :: DRY_RUN_LABEL :: rest, posted_count)).
Proof.
  split; [apply safe_publish_dry|]. split; [reflexivity|].
  split; [reflexivity|]. split; [reflexivity|].
  destruct (publish_thread_dry E parts w) as (w' & Hrun & Htrace).
  rewrite Hrun. split; [reflexivity|]. split; [exact Htrace|].
  split; [apply auto_schedule_dry_trace|].
  intros today i d rest posted_count Hdate. apply schedule_row_dry. exact Hdate.
Qed.

(** ** The validator *)

Lemma validate_row_grows E i row errors warnings :
  exists extra,
    fst (validate_row E i row errors warnings) = errors ++ extra
    /\ (extra = [] -> 4 <= length row).
Proof.
  unfold validate_row.
  destruct row as [|d [|p [|c [|s rest]]]];
    try (eexists; split; [reflexivity|intros; discriminate]).
  assert (Hlen : 4 <= length (d :: p :: c :: s :: rest)) by (simpl; lia).
  destruct (strptime E d); destruct (negb (str_in p VALID_PLATFORMS));
    destruct (negb (truthy c) || negb (truthy (strip c)));
    destruct (str_eqb p X_TWEET && (280 <? length c));
    destruct (str_eqb p X_THREAD); destruct (is_empty (thread_parts c)); simpl fst;
    rewrite <- ?app_assoc;
    first [ exists []; split; [symmetry; apply app_nil_r|intros; exact Hlen]
          | eexists; split; [reflexivity|intros; exact Hlen] ].
Qed.

Lemma validate_rows_clean E rows : forall i errors warnings,
  fst (validate_rows E i rows errors warnings) = [] ->
  errors = [] /\ Forall (fun row => 4 <= length row) rows.
Proof.
  induction rows as [|row rest IH]; intros i errors warnings H; simpl in H.
  - split; [exact H|constructor].
  - destruct (validate_row_grows E i row errors warnings) as (extra & Hgrow & Hlen).
    destruct (validate_row E i row errors warnings) as [errors1 warnings1].
    simpl in Hgrow. destruct (IH _ _ _ H) as [Hnil Hrest].
    rewrite Hnil in Hgrow. symmetry in Hgrow. apply app_eq_nil in Hgrow as [-> ->].
    split; [reflexivity|]. constructor; [apply Hlen; reflexivity|exact Hrest].
Qed.

Lemma elem_of_grown (x : str) (l1 l2 : list str) : l1 `prefix_of` l2 -> x ∈ l1 -> x ∈ l2.
Proof. intros [k ->] H. apply elem_of_app. left. exact H. Qed.

(** C5: when the validator reports an error on the calendar, the run
    ends with the trace of platform calls, the calendar and the rows of the
    three ledgers as they were (the ledgers only receive their headers where
    they did not exist): nothing is published, no status is changed.  When
    it reports no error, the run goes on: every due row is published and
    given its label, the other rows stay, and the calendar is written back.
    In both cases every warning is printed. *)
Theorem validation_gate E dry_run w header row rows errors warnings :
  calendar w = Some (header :: row :: rows) ->
  validate_content_calendar E (row :: rows) = (errors, warnings) ->
  let w' := snd (auto_schedule_publish E dry_run w) in
  (errors <> [] ->
     trace w' = trace w /\ calendar w' = calendar w
     /\ success_log w' = ensure_header SUCCESS_HEADER (success_log w)
     /\ error_log w' = ensure_header ERROR_HEADER (error_log w)
     /\ analytics_log w' = ensure_header ANALYTICS_HEADER (analytics_log w))
  /\ (errors = [] ->
        exists rows',
          calendar w' = Some (header :: rows')
          /\ Forall2 (row_outcome E (dt_date (datetime_now E (clock w)))) (row :: rows) rows')
  /\ (forall warning, warning ∈ warnings -> warning_line warning ∈ stdout w').
Proof.
  intros Hcal Hval w'. subst w'. rewrite (auto_schedule_reads E dry_run w _ Hcal).
  set (today := dt_date (datetime_now E (clock w))).
  set (w0 := prologue_world E dry_run w).
  destruct errors as [|error errors].
  - destruct (process_calendar_valid E today dry_run header row rows warnings w0 Hval)
      as (lines & rows' & posted_count & w1 & Hin & Hrows & Hout & Hwritten & Hstd).
    split; [intros H; congruence|]. split.
    + intros _. exists rows'. split; [exact Hwritten|exact Hout].
    + intros warning H. eapply elem_of_grown; [exact Hstd|].
      eapply elem_of_grown; [eapply schedule_rows_stdout; exact Hrows|].
      simpl. apply elem_of_app. right. apply Hin. exact H.
  - destruct (process_calendar_errors E today dry_run header row rows (error :: errors)
                warnings w0 Hval) as (lines & Hrun & Hin); [discriminate|].
    rewrite Hrun. split; [|split].
    + intros _. simpl. rewrite Hcal. repeat split.
    + intros H. discriminate H.
    + intros warning H. simpl. apply elem_of_app. right. apply Hin. exact H.
Qed.

(** ** Rows that are not due *)

(** C6: in a calendar that passes validation every row has its four
    fields, and after a run the rows handed to [csv.writer] are the same
    header and as many rows; a row whose status is not [Post Now], or whose
    planned date is not the current date, is handed back with every cell as
    [csv.reader] gave it; a due row is handed back with its status cell
    replaced by one of the three labels and its other cells as they were.
    The text of the file is the one [csv.writer] gives these cells, which
    need not be the text the file had. *)
Theorem untouched_rows E dry_run w header rows :
  calendar w = Some (header :: rows) ->
  fst (validate_content_calendar E rows) = [] ->
  let today := dt_date (datetime_now E (clock w)) in
  exists rows',
    calendar (snd (auto_schedule_publish E dry_run w)) = Some (header :: rows')
    /\ length rows' = length rows
    /\ forall i row,
         rows !! i = Some row ->
         exists d p c s rest,
           row = d :: p :: c :: s :: rest
           /\ (s <> POST_NOW \/ strptime E d <> Some today -> rows' !! i = Some row)
           /\ (s = POST_NOW /\ strptime E d = Some today ->
               exists label, is_label label /\ rows' !! i = Some (d :: p :: c :: label :: rest)).
Proof.
  intros Hcal Hval today.
  destruct (validate_rows_clean E rows 2 [] [] Hval) as [_ Hshape].
  assert (Hout : exists rows',
            calendar (snd (auto_schedule_publish E dry_run w)) = Some (header :: rows')
            /\ Forall2 (row_outcome E today) rows rows').
  { rewrite (auto_schedule_reads E dry_run w _ Hcal). destruct rows as [|row rows].
    - exists []. split; [simpl; exact Hcal|constructor].
    - destruct (validate_content_calendar E (row :: rows)) as [errors warnings] eqn:Hv.
      simpl in Hval. subst errors.
      destruct (process_calendar_valid E today dry_run header row rows warnings
                  (prologue_world E dry_run w) Hv)
        as (lines & rows' & posted_count & w1 & _ & _ & Hout & Hwritten & _).
      exists rows'. split; [exact Hwritten|exact Hout]. }
  destruct Hout as (rows' & Hwritten & Hout).
  exists rows'. split; [exact Hwritten|].
  split; [symmetry; eapply Forall2_length; exact Hout|].
  intros i row Hrow.
  destruct (Forall2_lookup_l _ _ _ _ _ Hout Hrow) as (row' & Hrow' & Hcase).
  pose proof (proj1 (Forall_lookup _ _) Hshape i row Hrow) as Hlen.
  destruct row as [|d [|p [|c [|s rest]]]]; simpl in Hlen; try lia.
  exists d, p, c, s, rest. split; [reflexivity|]. split.
  - intros Hnot. destruct Hcase as [[(d' & p' & c' & rest' & [= <- <- <- -> <-] & Hdate) _]
                                   | [_ ->]]; [|exact Hrow'].
    destruct Hnot as [Hs | Hd]; [exfalso; apply Hs; reflexivity|contradiction].
  - intros [-> Hdate]. destruct Hcase as [[_ (label & Hlabel & ->)] | [Hnot _]].
    + exists label. split; [exact Hlabel|exact Hrow'].
    + exfalso. apply Hnot. exists d, p, c, rest. auto.
Qed.

(** ** Splitting a thread *)

Lemma split_delim rest : split_pipes (DELIM ++ rest) = [] :: split_pipes rest.
Proof. reflexivity. Qed.

Lemma startswith_delim c s :
  startswith DELIM (c :: s)
  = match s with
    | c2 :: c3 :: _ => char_eqb c PIPE && char_eqb c2 PIPE && char_eqb c3 PIPE
    | _ => false
    end.
Proof.
  assert (Hsym : forall a b, char_eqb a b = char_eqb b a) by (intros; apply N.eqb_sym).
  destruct s as [|c2 [|c3 rest]]; unfold DELIM; cbn [startswith].
  - apply andb_false_r.
  - rewrite andb_false_r. apply andb_false_r.
  - rewrite andb_true_r, (Hsym PIPE c), (Hsym PIPE c2), (Hsym PIPE c3).
    apply andb_assoc.
Qed.

Lemma split_cons c s :
  startswith DELIM (c :: s) = false -> split_pipes (c :: s) = push c (split_pipes s).
Proof.
  rewrite startswith_delim. intros H. simpl.
  destruct s as [|c2 [|c3 rest]]; try reflexivity. rewrite H. reflexivity.
Qed.

Lemma startswith_delim_true c s :
  startswith DELIM (c :: s) = true -> exists rest, c :: s = DELIM ++ rest.
Proof.
  rewrite startswith_delim. destruct s as [|c2 [|c3 rest]]; try discriminate.
  rewrite !andb_true_iff, !char_eqb_eq. intros [[-> ->] ->]. exists rest. reflexivity.
Qed.

(** Induction along the recursion of [split_pipes]. *)
Lemma split_pipes_ind (P : str -> Prop) :
  P [] ->
  (forall rest, P rest -> P (DELIM ++ rest)) ->
  (forall c s, startswith DELIM (c :: s) = false -> P s -> P (c :: s)) ->
  forall s, P s.
Proof.
  intros Hnil Hdelim Hcons s.
  assert (H : forall n s, length s <= n -> P s).
  { clear s. induction n as [|n IH]; intros s Hlen.
    - destruct s; [exact Hnil|simpl in Hlen; lia].
    - destruct s as [|c s]; [exact Hnil|].
      destruct (startswith DELIM (c :: s)) eqn:Hstart.
      + destruct (startswith_delim_true c s Hstart) as [rest Heq]. rewrite Heq.
        apply Hdelim. apply IH. apply (f_equal length) in Heq.
        simpl in Heq, Hlen. lia.
      + apply Hcons; [exact Hstart|]. apply IH. simpl in Hlen. lia. }
  apply (H (length s)). lia.
Qed.

Lemma startswith_app sub a k : startswith sub a = true -> startswith sub (a ++ k) = true.
Proof.
  revert a. induction sub as [|x sub IH]; intros [|y a]; simpl; try congruence.
  rewrite !andb_true_iff. intros [-> H]. auto.
Qed.

Lemma contains_cons sub c s :
  contains sub (c :: s) = false <-> startswith sub (c :: s) = false /\ contains sub s = false.
Proof. simpl. apply orb_false_iff. Qed.

Lemma contains_app_l sub a k : contains sub (a ++ k) = false -> contains sub a = false.
Proof.
  induction a as [|c a IH]; simpl.
  - destruct sub; [|reflexivity]. destruct k; simpl; discriminate.
  - rewrite !orb_false_iff. intros [Hs Hc]. split; [|apply IH; exact Hc].
    destruct (startswith sub (c :: a)) eqn:H; [|reflexivity].
    apply (startswith_app _ _ k) in H. simpl in H. congruence.
Qed.

(** A string without the delimiter is its own single piece. *)
Lemma split_no_delim p : contains DELIM p = false -> split_pipes p = [p].
Proof.
  induction p as [|c p IH]; [reflexivity|].
  rewrite contains_cons. intros [Hs Hc]. rewrite (split_cons c p Hs), (IH Hc). reflexivity.
Qed.

(** The first piece is a prefix of the string and no piece holds the
    delimiter. *)
Lemma split_pieces s :
  exists p ps k,
    split_pipes s = p :: ps /\ s = p ++ k
    /\ Forall (fun piece => contains DELIM piece = false) (p :: ps).
Proof.
  induction s as [|rest IH|c s Hstart IH] using split_pipes_ind.
  - exists [], [], []. repeat split. repeat constructor.
  - destruct IH as (p & ps & k & Heq & _ & Hall).
    exists [], (p :: ps), (DELIM ++ rest). rewrite split_delim, Heq.
    repeat split. constructor; [reflexivity|exact Hall].
  - destruct IH as (p & ps & k & Heq & Hpre & Hall).
    exists (c :: p), ps, k. rewrite (split_cons c s Hstart), Heq. simpl.
    split; [reflexivity|]. split; [rewrite Hpre; reflexivity|].
    inversion Hall as [|? ? Hp Hps]; subst. constructor; [|exact Hps].
    apply contains_cons. split; [|exact Hp].
    destruct (startswith DELIM (c :: p)) eqn:H; [|reflexivity].
    apply (startswith_app _ _ k) in H. simpl app in H. congruence.
Qed.

Lemma split_no_delim_pieces s :
  Forall (fun piece => contains DELIM piece = false) (split_pipes s).
Proof.
  destruct (split_pieces s) as (p & ps & k & -> & _ & H). exact H.
Qed.

(** What [lstrip] removes is a run of white space at the front. *)
Lemma lstrip_suffix s : exists k, s = k ++ lstrip s.
Proof.
  induction s as [|c s [k IH]]; [exists []; reflexivity|]. simpl.
  destruct (isspace c).
  - exists (c :: k). simpl. rewrite <- IH. reflexivity.
  - exists []. reflexivity.
Qed.

Lemma lstrip_head s h t : lstrip s = h :: t -> isspace h = false.
Proof.
  induction s as [|c s IH]; simpl; [discriminate|].
  destruct (isspace c) eqn:Hc; [exact IH|]. intros [= <- <-]. exact Hc.
Qed.

Lemma lstrip_fixed h t : isspace h = false -> lstrip (h :: t) = h :: t.
Proof. intros H. simpl. rewrite H. reflexivity. Qed.

Lemma lstrip_idem s : lstrip (lstrip s) = lstrip s.
Proof.
  destruct (lstrip s) as [|h t] eqn:H; [reflexivity|].
  apply lstrip_fixed. eapply lstrip_head. exact H.
Qed.

Lemma rstrip_prefix s : exists k, s = rstrip s ++ k.
Proof.
  unfold rstrip. destruct (lstrip_suffix (rev s)) as [k H].
  exists (rev k). rewrite <- rev_app_distr, <- H, rev_involutive. reflexivity.
Qed.

Lemma rstrip_idem s : rstrip (rstrip s) = rstrip s.
Proof. unfold rstrip. rewrite rev_involutive, lstrip_idem. reflexivity. Qed.

Lemma strip_idem s : strip (strip s) = strip s.
Proof.
  unfold strip. set (y := lstrip s).
  assert (H : lstrip (rstrip y) = rstrip y).
  { destruct (rstrip y) as [|h t] eqn:Hr; [reflexivity|].
    apply lstrip_fixed. destruct (rstrip_prefix y) as [k Hk]. rewrite Hr in Hk.
    apply (lstrip_head s h (t ++ k)). exact Hk. }
  rewrite H. apply rstrip_idem.
Qed.

Lemma contains_lstrip sub s : contains sub s = false -> contains sub (lstrip s) = false.
Proof.
  induction s as [|c s IH]; [auto|]. intros H. simpl lstrip.
  destruct (isspace c); [|exact H]. apply IH. apply contains_cons in H. apply H.
Qed.

Lemma contains_strip sub s : contains sub s = false -> contains sub (strip s) = false.
Proof.
  intros H. unfold strip. apply contains_lstrip in H.
  destruct (rstrip_prefix (lstrip s)) as [k Hk]. rewrite Hk in H.
  eapply contains_app_l. exact H.
Qed.

(** A part that holds no delimiter and does not end with a pipe is
    found again in front of the delimiter that follows it. *)
Lemma split_part_delim p rest :
  contains DELIM p = false -> last p <> Some PIPE ->
  split_pipes (p ++ DELIM ++ rest) = p :: split_pipes rest.
Proof.
  induction p as [|c p IH]; intros Hc Hl; [apply split_delim|].
  apply contains_cons in Hc as [Hs Hc].
  assert (Hstart : startswith DELIM (c :: p ++ DELIM ++ rest) = false).
  { rewrite startswith_delim in *. destruct p as [|c2 [|c3 p]]; cbn [app DELIM].
    - destruct (char_eqb c PIPE) eqn:H; [|reflexivity].
      apply char_eqb_eq in H. subst c. exfalso. apply Hl. reflexivity.
    - destruct (char_eqb c2 PIPE) eqn:H; [|apply andb_false_intro1, andb_false_r].
      apply char_eqb_eq in H. subst c2. exfalso. apply Hl. reflexivity.
    - exact Hs. }
  change ((c :: p) ++ DELIM ++ rest) with (c :: (p ++ DELIM ++ rest)).
  rewrite (split_cons _ _ Hstart), IH; [reflexivity|exact Hc|].
  destruct p as [|c2 p]; [discriminate|exact Hl].
Qed.

Lemma split_join parts :
  parts <> [] ->
  Forall (fun part => contains DELIM part = false) parts ->
  no_inner_pipe_end parts ->
  split_pipes (join DELIM parts) = parts.
Proof.
  induction parts as [|p parts IH]; intros Hne Hall Hinner; [congruence|].
  inversion Hall as [|? ? Hp Hrest]; subst.
  destruct parts as [|q parts].
  - simpl. apply split_no_delim. exact Hp.
  - destruct Hinner as [Hlast Hinner].
    change (join DELIM (p :: q :: parts)) with (p ++ DELIM ++ join DELIM (q :: parts)).
    rewrite (split_part_delim p _ Hp Hlast), IH; [reflexivity|discriminate|exact Hrest|exact Hinner].
Qed.

(** Every part of a thread is stripped, not empty and free of the
    delimiter. *)
Lemma thread_parts_clean content :
  Forall (fun part => strip part = part /\ truthy part = true
                      /\ contains DELIM part = false) (thread_parts content).
Proof.
  unfold thread_parts. apply Forall_fmap, Forall_forall. intros piece Hin.
  apply list_elem_of_filter in Hin as [Htruthy Hin]. simpl.
  split; [apply strip_idem|]. split; [exact Htruthy|].
  apply contains_strip.
  exact (proj1 (Forall_forall _ _) (split_no_delim_pieces content) piece Hin).
Qed.

Lemma clean_parts_kept parts :
  Forall (fun part => strip part = part /\ truthy part = true
                      /\ contains DELIM part = false) parts ->
  strip <$> filter (fun part => truthy (strip part) = true) parts = parts.
Proof.
  induction 1 as [|part parts (Hstrip & Htruthy & _) _ IH]; [reflexivity|].
  rewrite filter_cons_True by (rewrite Hstrip; exact Htruthy).
  simpl. rewrite Hstrip. f_equal. exact IH.
Qed.

Lemma thread_rejoin content :
  no_inner_pipe_end (thread_parts content) ->
  thread_parts (join DELIM (thread_parts content)) = thread_parts content.
Proof.
  intros Hinner. pose proof (thread_parts_clean content) as Hclean.
  destruct (thread_parts content) as [|p parts] eqn:Hparts; [reflexivity|].
  unfold thread_parts at 1. rewrite split_join; [|discriminate| |exact Hinner].
  - apply clean_parts_kept. exact Hclean.
  - eapply Forall_impl; [exact Hclean|]. intros part (_ & _ & H). exact H.
Qed.

Lemma validate_rows_app E rows1 rows2 : forall i errors warnings,
  validate_rows E i (rows1 ++ rows2) errors warnings
  = validate_rows E (i + length rows1) rows2
      (fst (validate_rows E i rows1 errors warnings))
      (snd (validate_rows E i rows1 errors warnings)).
Proof.
  induction rows1 as [|row rows1 IH]; intros i errors warnings; simpl.
  - rewrite Nat.add_0_r. reflexivity.
  - destruct (validate_row E i row errors warnings) as [errors1 warnings1].
    rewrite IH. replace (S i + length rows1) with (i + S (length rows1)) by lia.
    reflexivity.
Qed.

(** A thread row is judged by its parts alone. *)
Lemma validate_thread_row E i d s rest content1 content2 errors warnings :
  thread_parts content1 = thread_parts content2 ->
  truthy content1 && truthy (strip content1) = truthy content2 && truthy (strip content2) ->
  validate_row E i (d :: X_THREAD :: content1 :: s :: rest) errors warnings
  = validate_row E i (d :: X_THREAD :: content2 :: s :: rest) errors warnings.
Proof.
  intros Hparts Htruthy. unfold validate_row.
  change (str_eqb X_THREAD X_TWEET) with false.
  change (str_eqb X_THREAD X_THREAD) with true.
  rewrite Hparts.
  assert (H : negb (truthy content1) || negb (truthy (strip content1))
              = negb (truthy content2) || negb (truthy (strip content2))).
  { rewrite <- !negb_andb. f_equal. exact Htruthy. }
  rewrite H. reflexivity.
Qed.

(** C9, as the code has it: the contents ["a ||| b ||| "] and ["a|||b"]
    both split into the two parts ["a"] and ["b"], and a thread row with the
    one is validated as the same row with the other, wherever it stands in
    the calendar; splitting the parts of a content joined again by the
    delimiter gives the same parts, provided no part but the last ends with
    a pipe character. *)
Theorem thread_split_stable E :
  thread_parts (py "a ||| b ||| ") = [py "a"; py "b"]
  /\ thread_parts (py "a|||b") = [py "a"; py "b"]
  /\ (forall before after d s rest,
        validate_content_calendar E
          (before ++ (d :: X_THREAD :: py "a ||| b ||| " :: s :: rest) :: after)
        = validate_content_calendar E
            (before ++ (d :: X_THREAD :: py "a|||b" :: s :: rest) :: after))
  /\ (forall content,
        no_inner_pipe_end (thread_parts content) ->
        thread_parts (join DELIM (thread_parts content)) = thread_parts content).
Proof.
  split; [vm_compute; reflexivity|]. split; [vm_compute; reflexivity|]. split.
  - intros before after d s rest. unfold validate_content_calendar.
    rewrite !validate_rows_app. cbn [validate_rows].
    rewrite (validate_thread_row E _ d s rest (py "a ||| b ||| ") (py "a|||b"));
      [reflexivity|vm_compute; reflexivity|vm_compute; reflexivity].
  - apply thread_rejoin.
Qed.

(** * Concrete runs *)

Import Sample.

(** ** The scenarios of the specification *)

Example scenario_single_tweet :
  let w' := snd (auto_schedule_publish friendly false (with_calendar [tweet_row])) in
  calendar w' = Some [CALENDAR_HEADER; [py "2023-12-15"; X_TWEET; py "hello"; POSTED]]
  /\ success_log w'
     = Some [SUCCESS_HEADER;
             [py "2023-12-15 09:00:02"; X_TWEET; py "hello"; POSTED; py "123"]]
  /\ error_log w' = Some [ERROR_HEADER].
Proof. vm_compute. auto. Qed.

Example scenario_thread_second_call_fails :
  let w' := snd (auto_schedule_publish (failing 2) false (with_calendar [thread_row])) in
  calendar w'
  = Some [CALENDAR_HEADER; [py "2023-12-15"; X_THREAD; py "a|||b|||c"; ERROR_LABEL]]
  /\ success_log w' = Some [SUCCESS_HEADER]
  /\ error_log w'
     = Some [ERROR_HEADER;
             [py "2023-12-15 09:00:02"; X_THREAD; py "a|||b|||c";
              py "Thread posting failed: 503 Service Unavailable"; py "No"]]
  /\ trace w'
     = [GetClient; UpdateStatus (py "a") None; Sleep 1;
        UpdateStatus (py "b") (Some (py "123"))].
Proof. vm_compute. auto. Qed.

Example scenario_store_absent :
  let w' := snd (auto_schedule_publish friendly false empty_world) in
  calendar w' = Some SAMPLE_CALENDAR /\ trace w' = [].
Proof. vm_compute. auto. Qed.

Example scenario_malformed_date :
  validate_content_calendar friendly [bad_date_row]
  = ([py "Row 2: Invalid date format 15-12-2023. Use YYYY-MM-DD"], []).
Proof. vm_compute. reflexivity. Qed.

(** ** Where the written claims and the code part *)

(** C1, as written, fails: a dry run ends in the dry-run label and the
    success ledger receives no row. *)
Lemma dry_run_appends_no_record :
  fst (safe_publish friendly X_TWEET (py "hello") 2 true ready_world) = Ok DRY_RUN_LABEL
  /\ success_log (snd (safe_publish friendly X_TWEET (py "hello") 2 true ready_world))
     = Some [SUCCESS_HEADER]
  /\ forall row,
       success_log (snd (safe_publish friendly X_TWEET (py "hello") 2 true ready_world))
       <> append_row row (success_log ready_world).
Proof.
  split; [reflexivity|]. split; [reflexivity|].
  intros row H. apply (append_row_neq row (success_log ready_world)).
  symmetry. exact H.
Qed.

(** C9, as written, fails: the parts of ["a| |||b"] are ["a|"] and ["b"];
    joined again they read ["a||||b"], whose parts are ["a"] and ["|b"]. *)
Lemma rejoin_moves_delimiter :
  thread_parts (py "a| |||b") = [py "a|"; py "b"]
  /\ join DELIM [py "a|"; py "b"] = py "a||||b"
  /\ thread_parts (py "a||||b") = [py "a"; py "|b"]
  /\ thread_parts (join DELIM (thread_parts (py "a| |||b"))) <> thread_parts (py "a| |||b").
Proof.
  split; [vm_compute; reflexivity|]. split; [vm_compute; reflexivity|].
  split; [vm_compute; reflexivity|]. vm_compute. discriminate.
Qed.

(** C6, as written, fails: the row of a calendar written by hand, with
    lines ended by LF and quotes around the platform, is not due, and is handed back with its four cells as they were; but the
    text written for the file ends its lines with CR LF and has no quotes
    around the platform, so the line the file had for that row is nowhere in
    the file after the run. *)
Lemma rewritten_row_differs :
  csv_read hand_written = [CALENDAR_HEADER; quiet_row]
  /\ ~ due friendly TODAY quiet_row
  /\ calendar (snd (auto_schedule_publish friendly false (with_text hand_written)))
     = Some [CALENDAR_HEADER; quiet_row]
  /\ csv_text [CALENDAR_HEADER; quiet_row]
     = py "date_planned,platform,content,status" ++ [CR; NEWLINE]
       ++ py "2023-12-16,X Tweet,tomorrow,Done" ++ [CR; NEWLINE]
  /\ csv_line quiet_row <> hand_written_line ++ [NEWLINE]
  /\ contains hand_written_line (csv_text [CALENDAR_HEADER; quiet_row]) = false
  /\ csv_text [CALENDAR_HEADER; quiet_row] <> hand_written.
Proof.
  split; [vm_compute; reflexivity|].
  split.
  { intros (d & p & c & rest & Hrow & _). vm_compute in Hrow. discriminate Hrow. }
  split; [vm_compute; reflexivity|].
  split; [vm_compute; reflexivity|].
  split; [vm_compute; discriminate|].
  split; [vm_compute; reflexivity|].
  vm_compute; discriminate.
Qed.

(** A CR inside a quoted cell does not come back either: the reader gives
    the cell with LF in its place, and that is what is written. *)
Example carriage_return_rewritten :
  csv_read (py "a," ++ [QUOTE] ++ py "x" ++ [CR] ++ py "y" ++ [QUOTE] ++ [CR; NEWLINE])
  = [[py "a"; py "x" ++ [NEWLINE] ++ py "y"]]
  /\ csv_text [[py "a"; py "x" ++ [NEWLINE] ++ py "y"]]
     = py "a," ++ [QUOTE] ++ py "x" ++ [NEWLINE] ++ py "y" ++ [QUOTE] ++ [CR; NEWLINE].
Proof. split; vm_compute; reflexivity. Qed.

(** ** The theorems at work *)

Lemma safe_publish_ledger_witness :
  safe_publish friendly X_TWEET (py "hello") 2 false ready_world
  = (Ok POSTED,
     logged_success friendly X_TWEET (py "hello") (Some (py "123"))
       (set_trace (fun _ => [GetClient; UpdateStatus (py "hello") None]) ready_world))
  /\ exists ts post_id,
       success_log (logged_success friendly X_TWEET (py "hello") (Some (py "123"))
                      (set_trace (fun _ => [GetClient; UpdateStatus (py "hello") None])
                         ready_world))
       = append_row (success_row ts X_TWEET (py "hello") post_id) (success_log ready_world)
       /\ error_log (logged_success friendly X_TWEET (py "hello") (Some (py "123"))
                       (set_trace (fun _ => [GetClient; UpdateStatus (py "hello") None])
                          ready_world))
          = error_log ready_world.
Proof.
  split; [vm_compute; reflexivity|].
  apply (safe_publish_ledger friendly X_TWEET (py "hello") 2 false ready_world POSTED);
    [vm_compute; reflexivity|reflexivity].
Defined.

Lemma truncation_280_witness :
  tweepy_API friendly (trace empty_world) = None
  /\ 280 < length (replicate 300 97%N)
  /\ length (truncate (replicate 300 97%N)) = 280
  /\ truncate (replicate 300 97%N) = replicate 277 97%N ++ py "..."
  /\ trace (snd (publish_tweet friendly (replicate 300 97%N) false empty_world))
     = [GetClient; UpdateStatus (replicate 277 97%N ++ py "...") None]
  /\ posted_texts
       (trace (snd (publish_thread friendly [replicate 300 97%N; py "b"] false empty_world)))
     = [replicate 277 97%N ++ py "..."; py "b"].
Proof.
  split; [reflexivity|]. split; [vm_compute; lia|].
  destruct (truncation_280 friendly (replicate 300 97%N) [replicate 300 97%N; py "b"]
              empty_world eq_refl)
    as (Hlong & _ & Htweet & Hall & _).
  destruct (Hlong (replicate 300 97%N)) as [Hcut Hlen]; [vm_compute; lia|].
  split; [exact Hlen|]. split; [exact Hcut|]. split; [exact Htweet|].
  apply (Hall [py "123"; py "124"]
           [GetClient; UpdateStatus (replicate 277 97%N ++ py "...") None; Sleep 1;
            UpdateStatus (py "b") (Some (py "123"))] (Some (py "124"))).
  apply (posted_cons friendly [GetClient] None (replicate 277 97%N ++ py "...") _
           (py "123")); [reflexivity|].
  apply (posted_cons friendly
           [GetClient; UpdateStatus (replicate 277 97%N ++ py "...") None]
           (Some (py "123")) (py "b") _ (py "124")); [reflexivity|].
  apply posted_nil.
Defined.

Lemma thread_failure_witness :
  thread_parts (py "a|||b|||c") = [py "a"] ++ py "b" :: [py "c"]
  /\ tweepy_API (failing 2) (trace empty_world) = None
  /\ posted (failing 2) (trace empty_world ++ [GetClient]) None (truncate <$> [py "a"])
       [py "123"] [GetClient; UpdateStatus (py "a") None] (Some (py "123"))
  /\ update_status (failing 2)
       ([GetClient; UpdateStatus (py "a") None] ++ pause (Some (py "123")))
       (truncate (py "b")) (Some (py "123"))
     = inr (py "503 Service Unavailable")
  /\ publish_thread (failing 2) (thread_parts (py "a|||b|||c")) false empty_world
     = (Ok ([TAG_ERROR], ErrorText (py "503 Service Unavailable")),
        set_trace
          (fun _ => [GetClient; UpdateStatus (py "a") None; Sleep 1;
                     UpdateStatus (py "b") (Some (py "123"))]) empty_world).
Proof.
  assert (Hposted : posted (failing 2) (trace empty_world ++ [GetClient]) None
                      (truncate <$> [py "a"]) [py "123"]
                      [GetClient; UpdateStatus (py "a") None] (Some (py "123"))).
  { apply (posted_cons (failing 2) [GetClient] None (py "a") [] (py "123") []);
      [reflexivity|apply posted_nil]. }
  split; [vm_compute; reflexivity|]. split; [reflexivity|]. split; [exact Hposted|].
  split; [reflexivity|].
  apply (thread_failure (failing 2) (py "a|||b|||c") 2 empty_world [py "a"] (py "b")
           [py "c"] [py "123"] [GetClient; UpdateStatus (py "a") None] (Some (py "123"))
           (py "503 Service Unavailable"));
    [vm_compute; reflexivity|reflexivity|exact Hposted|reflexivity].
Defined.

Lemma thread_chained_witness :
  tweepy_API friendly (trace empty_world) = None
  /\ publish_thread friendly [py "a"; py "b"; py "c"] false empty_world
     = (Ok ([TAG_SUCCESS; TAG_SUCCESS; TAG_SUCCESS], IdList [py "123"; py "124"; py "125"]),
        set_trace
          (fun _ => [GetClient; UpdateStatus (py "a") None; Sleep 1;
                     UpdateStatus (py "b") (Some (py "123")); Sleep 1;
                     UpdateStatus (py "c") (Some (py "124"))]) empty_world).
Proof.
  split; [reflexivity|].
  apply (proj1 (thread_chained friendly [py "a"; py "b"; py "c"] empty_world eq_refl)
           [py "123"; py "124"; py "125"] _ (Some (py "125"))).
  apply (posted_cons friendly [GetClient] None (py "a") _ (py "123")); [reflexivity|].
  apply (posted_cons friendly [GetClient; UpdateStatus (py "a") None] (Some (py "123"))
           (py "b") _ (py "124")); [reflexivity|].
  apply (posted_cons friendly
           [GetClient; UpdateStatus (py "a") None; Sleep 1;
            UpdateStatus (py "b") (Some (py "123"))] (Some (py "124"))
           (py "c") _ (py "125")); [reflexivity|].
  apply posted_nil.
Defined.

Lemma validation_gate_witness :
  calendar (with_calendar [bad_date_row]) = Some (CALENDAR_HEADER :: bad_date_row :: [])
  /\ validate_content_calendar friendly (bad_date_row :: [])
     = ([py "Row 2: Invalid date format 15-12-2023. Use YYYY-MM-DD"], [])
  /\ trace (snd (auto_schedule_publish friendly false (with_calendar [bad_date_row]))) = []
  /\ calendar (snd (auto_schedule_publish friendly false (with_calendar [bad_date_row])))
     = Some [CALENDAR_HEADER; bad_date_row]
  /\ error_log (snd (auto_schedule_publish friendly false (with_calendar [bad_date_row])))
     = Some [ERROR_HEADER].
Proof.
  assert (Hval : validate_content_calendar friendly (bad_date_row :: [])
                 = ([py "Row 2: Invalid date format 15-12-2023. Use YYYY-MM-DD"], []))
    by (vm_compute; reflexivity).
  split; [reflexivity|]. split; [exact Hval|].
  pose proof (validation_gate friendly false (with_calendar [bad_date_row]) CALENDAR_HEADER
                bad_date_row [] _ _ eq_refl Hval) as H.
  cbv zeta in H. destruct H as (Herr & _ & _).
  destruct Herr as (Htrace & Hcal & _ & Herror & _); [discriminate|].
  split; [exact Htrace|]. split; [exact Hcal|exact Herror].
Defined.

Lemma untouched_rows_witness :
  calendar (with_calendar [tweet_row; done_row; later_row])
  = Some (CALENDAR_HEADER :: [tweet_row; done_row; later_row])
  /\ fst (validate_content_calendar friendly [tweet_row; done_row; later_row]) = []
  /\ exists rows',
       calendar (snd (auto_schedule_publish friendly false
                        (with_calendar [tweet_row; done_row; later_row])))
       = Some (CALENDAR_HEADER :: rows')
       /\ rows' !! 1 = Some done_row /\ rows' !! 2 = Some later_row.
Proof.
  assert (Hval : fst (validate_content_calendar friendly [tweet_row; done_row; later_row]) = [])
    by (vm_compute; reflexivity).
  split; [reflexivity|]. split; [exact Hval|].
  pose proof (untouched_rows friendly false
                (with_calendar [tweet_row; done_row; later_row]) CALENDAR_HEADER
                [tweet_row; done_row; later_row] eq_refl Hval) as H.
  cbv zeta in H. destruct H as (rows' & Hcal & _ & Hrows).
  exists rows'. split; [exact Hcal|]. split.
  - destruct (Hrows 1 done_row eq_refl) as (d & p & c & s & rest & Heq & Hnot & _).
    apply Hnot. left. injection Heq as _ _ _ <- _. vm_compute. discriminate.
  - destruct (Hrows 2 later_row eq_refl) as (d & p & c & s & rest & Heq & Hnot & _).
    apply Hnot. right. injection Heq as <- _ _ _ _. vm_compute. discriminate.
Defined.

Lemma thread_split_stable_witness :
  no_inner_pipe_end (thread_parts (py "x ||| y"))
  /\ thread_parts (join DELIM (thread_parts (py "x ||| y"))) = thread_parts (py "x ||| y").
Proof.
  assert (H : no_inner_pipe_end (thread_parts (py "x ||| y"))).
  { vm_compute. split; [discriminate|exact I]. }
  split; [exact H|].
  exact (proj2 (proj2 (proj2 (thread_split_stable friendly))) (py "x ||| y") H).
Defined.

Lemma dry_run_precedes_checks_witness :
  py "Facebook" <> X_THREAD /\ py "Facebook" <> X_TWEET
  /\ safe_publish friendly (py "Facebook") (py "hello") 2 false ready_world
     = (Ok ERROR_LABEL,
        logged_error friendly (py "Facebook") (py "hello")
          (py "Unsupported platform: Facebook") ready_world)
  /\ thread_parts (py " ||| ") = []
  /\ safe_publish friendly X_THREAD (py " ||| ") 2 false ready_world
     = (Ok ERROR_LABEL,
        logged_error friendly X_THREAD (py " ||| ")
          (py "Thread content is empty after splitting") ready_world).
Proof.
  assert (H1 : py "Facebook" <> X_THREAD) by (vm_compute; discriminate).
  assert (H2 : py "Facebook" <> X_TWEET) by (vm_compute; discriminate).
  assert (H3 : thread_parts (py " ||| ") = []) by (vm_compute; reflexivity).
  split; [exact H1|]. split; [exact H2|].
  destruct (dry_run_precedes_checks friendly) as (_ & Hplatform & Hempty & _).
  split; [exact (Hplatform (py "Facebook") (py "hello") 2 ready_world H1 H2)|].
  split; [exact H3|]. exact (Hempty (py " ||| ") 2 ready_world H3).
Defined.

Lemma dry_run_no_platform_call_witness :
  strptime friendly (py "2023-12-15") = Some TODAY
  /\ fst (schedule_row friendly TODAY true 1 tweet_row 0 (with_calendar [tweet_row]))
     = Ok ([py "2023-12-15"; X_TWEET; py "hello"; DRY_RUN_LABEL], 0)
  /\ trace (snd (auto_schedule_publish friendly true (with_calendar [tweet_row]))) = [].
Proof.
  assert (Hdate : strptime friendly (py "2023-12-15") = Some TODAY) by reflexivity.
  split; [exact Hdate|].
  destruct (dry_run_no_platform_call friendly X_TWEET (py "hello") 2 []
              (with_calendar [tweet_row])) as (_ & _ & _ & _ & _ & _ & Htrace & Hrow).
  split; [exact (Hrow TODAY 1 (py "2023-12-15") [] 0 Hdate)|exact Htrace].
Defined.

(** * Further properties of the program *)

(** ** The validator, row by row *)

Lemma part_warnings_acc i parts : forall j warnings,
  part_warnings i j parts warnings = warnings ++ part_warnings i j parts [].
Proof.
  induction parts as [|part rest IH]; intros j warnings; simpl.
  - rewrite app_nil_r. reflexivity.
  - destruct (280 <? length part).
    + rewrite IH, (IH _ [_]), app_assoc. reflexivity.
    + apply IH.
Qed.

Lemma validate_row_acc E i row errors warnings :
  validate_row E i row errors warnings
  = (errors ++ fst (validate_row E i row [] []),
     warnings ++ snd (validate_row E i row [] [])).
Proof.
  unfold validate_row.
  destruct row as [|d [|p [|c [|s rest]]]]; try (simpl; rewrite app_nil_r; reflexivity).
  destruct (strptime E d); destruct (negb (str_in p VALID_PLATFORMS));
    destruct (negb (truthy c) || negb (truthy (strip c)));
    destruct (str_eqb p X_TWEET && (280 <? length c));
    destruct (str_eqb p X_THREAD); destruct (is_empty (thread_parts c));
    cbn [fst snd app]; rewrite ?app_nil_r, <- ?app_assoc; try reflexivity;
    rewrite part_warnings_acc; reflexivity.
Qed.

Lemma validate_rows_acc E rows : forall i errors warnings,
  validate_rows E i rows errors warnings
  = (errors ++ fst (validate_rows E i rows [] []),
     warnings ++ snd (validate_rows E i rows [] [])).
Proof.
  induction rows as [|row rest IH]; intros i errors warnings; simpl.
  - rewrite !app_nil_r. reflexivity.
  - rewrite (validate_row_acc E i row errors warnings).
    destruct (validate_row E i row [] []) as [errors1 warnings1]. simpl.
    rewrite IH, (IH _ errors1 warnings1). simpl. rewrite !app_assoc. reflexivity.
Qed.

Lemma truthy_iff (s : str) : truthy s = true <-> s <> [].
Proof. destruct s; simpl; split; congruence. Qed.

Lemma strip_nil : strip [] = [].
Proof. reflexivity. Qed.

Lemma blank_test c :
  negb (truthy c) || negb (truthy (strip c)) = false <-> strip c <> [].
Proof.
  rewrite orb_false_iff, !negb_false_iff, !truthy_iff. split; [tauto|].
  intros H. split; [|exact H]. intros ->. apply H. reflexivity.
Qed.

Lemma valid_platform_iff p :
  str_in p VALID_PLATFORMS = true <-> p = X_TWEET \/ p = X_THREAD.
Proof.
  unfold str_in, VALID_PLATFORMS. cbn [existsb].
  rewrite orb_false_r, orb_true_iff, !str_eqb_eq. tauto.
Qed.

Lemma is_empty_iff {A} (l : list A) : is_empty l = false <-> l <> [].
Proof. destruct l; simpl; split; congruence. Qed.

Lemma platforms_differ : str_eqb X_THREAD X_TWEET = false /\ str_eqb X_TWEET X_THREAD = false.
Proof. split; reflexivity. Qed.

Lemma row_errors_nil_iff E i row :
  fst (validate_row E i row [] []) = [] <-> row_ok E row.
Proof.
  split.
  - destruct row as [|d [|p [|c [|s rest]]]]; try (simpl; discriminate).
    unfold validate_row.
    destruct (strptime E d) as [planned|] eqn:Hdate;
      destruct (str_in p VALID_PLATFORMS) eqn:Hplatform;
      destruct (negb (truthy c) || negb (truthy (strip c))) eqn:Hblank;
      destruct (str_eqb p X_TWEET && (280 <? length c)) eqn:Htweet;
      destruct (str_eqb p X_THREAD) eqn:Hthread;
      destruct (is_empty (thread_parts c)) eqn:Hparts;
      cbn [negb fst app]; try discriminate; intros _;
      exists d, p, c, s, rest;
      (split; [reflexivity|]); (split; [rewrite Hdate; discriminate|]);
      (split; [apply valid_platform_iff; exact Hplatform|]);
      (split; [apply blank_test; exact Hblank|]);
      intros ->;
      first [ apply is_empty_iff; exact Hparts
            | rewrite str_eqb_refl in Hthread; discriminate
            | rewrite (proj1 platforms_differ) in Htweet; discriminate ].
  - intros (d & p & c & s & rest & -> & Hdate & Hplatform & Hblank & Hparts).
    unfold validate_row.
    destruct (strptime E d) as [planned|]; [|congruence].
    apply valid_platform_iff in Hplatform as Hin. rewrite Hin.
    apply blank_test in Hblank. rewrite Hblank. cbn [negb].
    destruct Hplatform as [-> | ->].
    + rewrite str_eqb_refl. destruct (280 <? length c); [reflexivity|].
      cbn [andb]. rewrite (proj2 platforms_differ). reflexivity.
    + rewrite (proj1 platforms_differ), str_eqb_refl. cbn [andb].
      rewrite (proj2 (is_empty_iff _) (Hparts eq_refl)). reflexivity.
Qed.

Lemma rows_clean_iff E rows : forall i,
  fst (validate_rows E i rows [] []) = [] <-> Forall (row_ok E) rows.
Proof.
  induction rows as [|row rest IH]; intros i; simpl.
  - split; [constructor|reflexivity].
  - rewrite (surjective_pairing (validate_row E i row [] [])), validate_rows_acc.
    cbn [fst]. rewrite Forall_cons, <- (IH (S i)), <- (row_errors_nil_iff E i row).
    split.
    + intros H. apply app_eq_nil in H. exact H.
    + intros [-> ->]. reflexivity.
Qed.

Lemma calendar_clean E rows :
  Forall (row_ok E) rows -> fst (validate_content_calendar E rows) = [].
Proof. apply rows_clean_iff. Qed.

(** The validator reports no error exactly when every row has at least
    four cells, a date that parses, one of the two platforms, content that
    is not blank and, for a thread, at least one part. *)
Theorem validate_clean_iff E rows :
  fst (validate_content_calendar E rows) = [] <-> Forall (row_ok E) rows.
Proof. apply rows_clean_iff. Qed.

Lemma validate_calendar_app E rows1 rows2 :
  validate_content_calendar E (rows1 ++ rows2)
  = (fst (validate_content_calendar E rows1)
       ++ fst (validate_rows E (2 + length rows1) rows2 [] []),
     snd (validate_content_calendar E rows1)
       ++ snd (validate_rows E (2 + length rows1) rows2 [] [])).
Proof.
  unfold validate_content_calendar. rewrite validate_rows_app. apply validate_rows_acc.
Qed.

(** Validation goes row by row: the errors and the warnings of a calendar
    are those of its first rows followed by those of the rows after them,
    numbered from where the first rows end. *)
Theorem validate_app E rows1 rows2 :
  validate_content_calendar E (rows1 ++ rows2)
  = (fst (validate_content_calendar E rows1)
       ++ fst (validate_rows E (2 + length rows1) rows2 [] []),
     snd (validate_content_calendar E rows1)
       ++ snd (validate_rows E (2 + length rows1) rows2 [] [])).
Proof. apply validate_calendar_app. Qed.

Lemma validate_row_status E i row status errors warnings :
  validate_row E i (<[3 := status]> row) errors warnings
  = validate_row E i row errors warnings.
Proof. destruct row as [|d [|p [|c [|s rest]]]]; reflexivity. Qed.

Lemma validate_rows_status E (status_of : list str -> str) rows : forall i errors warnings,
  validate_rows E i ((fun row => <[3 := status_of row]> row) <$> rows) errors warnings
  = validate_rows E i rows errors warnings.
Proof.
  induction rows as [|row rest IH]; intros i errors warnings; [reflexivity|].
  cbn [fmap list_fmap validate_rows]. rewrite validate_row_status.
  destruct (validate_row E i row errors warnings) as [errors1 warnings1]. apply IH.
Qed.

(** The validator does not read the status cell: whatever is written in
    the status cells, the errors and the warnings are the same. *)
Theorem validate_ignores_status E (status_of : list str -> str) rows :
  validate_content_calendar E ((fun row => <[3 := status_of row]> row) <$> rows)
  = validate_content_calendar E rows.
Proof. apply validate_rows_status. Qed.

(** A calendar whose only defect is one date that does not parse gets
    exactly one error, the one naming that row and that date. *)
Theorem one_bad_date E before after d p c s rest :
  Forall (row_ok E) before -> Forall (row_ok E) after ->
  strptime E d = None ->
  (p = X_TWEET \/ p = X_THREAD) -> strip c <> [] -> (p = X_THREAD -> thread_parts c <> []) ->
  fst (validate_content_calendar E (before ++ (d :: p :: c :: s :: rest) :: after))
  = [row_label (2 + length before) ++ py ": Invalid date format " ++ d
       ++ py ". Use YYYY-MM-DD"].
Proof.
  intros Hbefore Hafter Hdate Hplatform Hblank Hparts.
  rewrite validate_calendar_app. cbn [fst].
  rewrite (calendar_clean E before Hbefore). cbn [app validate_rows].
  rewrite (surjective_pairing (validate_row E _ _ [] [])), validate_rows_acc. cbn [fst].
  rewrite (proj2 (rows_clean_iff E after _) Hafter), app_nil_r.
  unfold validate_row. rewrite Hdate.
  apply valid_platform_iff in Hplatform as Hin. rewrite Hin.
  apply blank_test in Hblank. rewrite Hblank. cbn [negb].
  destruct Hplatform as [-> | ->].
  - rewrite str_eqb_refl. destruct (280 <? length c); [reflexivity|].
    cbn [andb]. rewrite (proj2 platforms_differ). reflexivity.
  - rewrite (proj1 platforms_differ), str_eqb_refl. cbn [andb].
    rewrite (proj2 (is_empty_iff _) (Hparts eq_refl)). reflexivity.
Qed.

(** ** What a whole run leaves alone *)

Section KeepsRun.

Variable R : world -> world -> Prop.
Hypothesis R_refl : forall w, R w w.
Hypothesis R_trans : forall w1 w2 w3, R w1 w2 -> R w2 w3 -> R w1 w3.
Hypothesis R_print : forall line w, R w (set_stdout (fun out => out ++ [line]) w).
Hypothesis R_emit : forall e w, R w (set_trace (fun t => t ++ [e]) w).
Hypothesis R_clock : forall w, R w (set_clock S w).
Hypothesis R_success : forall row w, R w (set_success_log (append_row row) w).
Hypothesis R_error : forall row w, R w (set_error_log (append_row row) w).
Hypothesis R_analytics : forall row w, R w (set_analytics_log (append_row row) w).
Hypothesis R_ensure_success : forall h w, R w (set_success_log (ensure_header h) w).
Hypothesis R_ensure_error : forall h w, R w (set_error_log (ensure_header h) w).
Hypothesis R_ensure_analytics : forall h w, R w (set_analytics_log (ensure_header h) w).
Hypothesis R_calendar : forall rows w, R w (set_calendar (fun _ => Some rows) w).
Variable E : Env.

Lemma keeps_ensure_log_files : keeps R ensure_log_files.
Proof.
  unfold ensure_log_files.
  apply keeps_bind; [exact R_trans|apply keeps_modify; apply R_ensure_success|intros _].
  apply keeps_bind; [exact R_trans|apply keeps_modify; apply R_ensure_error|intros _].
  apply keeps_modify; apply R_ensure_analytics.
Qed.

Lemma keeps_process_calendar today dry_run reader :
  keeps R (process_calendar E today dry_run reader).
Proof.
  unfold process_calendar.
  destruct reader as [|header [|row rows]]; try (apply keeps_print; exact R_print).
  destruct (validate_content_calendar E (row :: rows)) as [errors warnings].
  apply keeps_bind; [exact R_trans| |intros _].
  - destruct (negb (is_empty warnings)); [|apply keeps_ret; exact R_refl].
    apply keeps_bind; [exact R_trans|apply keeps_print; exact R_print|].
    intros _. apply keeps_print_each; assumption.
  - destruct (negb (is_empty errors)).
    + apply keeps_bind; [exact R_trans|apply keeps_print; exact R_print|]. intros _.
      apply keeps_bind; [exact R_trans|apply keeps_print_each; assumption|]. intros _.
      apply keeps_print; exact R_print.
    + apply keeps_bind; [exact R_trans|apply keeps_schedule_rows; assumption|].
      intros [rows' count].
      apply keeps_bind; [exact R_trans|apply keeps_modify; intros; apply R_calendar|].
      intros _.
      apply keeps_bind; [exact R_trans| |intros _; apply keeps_print; exact R_print].
      destruct (negb dry_run && (0 <? count)); [|apply keeps_ret; exact R_refl].
      apply keeps_bind; [exact R_trans|apply keeps_print; exact R_print|].
      intros _. apply keeps_track_analytics; assumption.
Qed.

Lemma keeps_auto_schedule_publish dry_run : keeps R (auto_schedule_publish E dry_run).
Proof.
  unfold auto_schedule_publish.
  apply keeps_bind; [exact R_trans|apply keeps_now; exact R_clock|]. intros today. cbv zeta.
  apply keeps_bind; [exact R_trans|apply keeps_print; exact R_print|]. intros _.
  apply keeps_bind; [exact R_trans|apply keeps_now; exact R_clock|]. intros current.
  apply keeps_bind; [exact R_trans|apply keeps_print; exact R_print|]. intros _.
  apply keeps_bind; [exact R_trans|apply keeps_ensure_log_files|]. intros _.
  apply keeps_bind; [exact R_trans|apply keeps_read_calendar; exact R_refl|].
  intros [reader|]; [apply keeps_process_calendar|].
  apply keeps_bind; [exact R_trans|apply keeps_print; exact R_print|]. intros _.
  apply keeps_bind; [exact R_trans|apply keeps_print; exact R_print|]. intros _.
  apply keeps_bind; [exact R_trans|apply keeps_modify; intros; apply R_calendar|]. intros _.
  apply keeps_print; exact R_print.
Qed.

Lemma keeps_print_menu rows : forall i, keeps R (print_menu i rows).
Proof.
  induction rows as [|row rest IH]; intros i; cbn [print_menu]; [apply keeps_ret; exact R_refl|].
  apply keeps_bind; [exact R_trans| |intros _; apply IH].
  destruct row as [|d [|p [|c [|s more]]]];
    first [apply keeps_ret; exact R_refl|apply keeps_print; exact R_print].
Qed.

Lemma keeps_post_now dry_run entered : keeps R (post_now E dry_run entered).
Proof.
  unfold post_now.
  apply keeps_bind; [exact R_trans|apply keeps_read_calendar; exact R_refl|].
  intros [[|header rows]|]; [apply keeps_raise; exact R_refl| |apply keeps_print; exact R_print].
  apply keeps_bind; [exact R_trans|apply keeps_print; exact R_print|]. intros _.
  apply keeps_bind; [exact R_trans|apply keeps_print_menu|]. intros _.
  apply keeps_try; [exact R_trans| |].
  - apply keeps_bind; [exact R_trans|apply keeps_print; exact R_print|]. intros _.
    apply keeps_bind; [exact R_trans| |].
    { intros w r w' [= <- <-]. apply R_refl. }
    intros n. cbv zeta.
    destruct ((n - 1 <? 0)%Z || (Z.of_nat (length rows) <=? n - 1)%Z);
      [apply keeps_print; exact R_print|].
    destruct (rows !! Z.to_nat (n - 1)) as [row|]; [|apply keeps_raise; exact R_refl].
    destruct row as [|d [|p [|c [|s more]]]]; try (apply keeps_print; exact R_print).
    apply keeps_bind; [exact R_trans|apply keeps_print; exact R_print|]. intros _.
    apply keeps_bind; [exact R_trans|apply keeps_safe_publish; assumption|]. intros result.
    apply keeps_bind; [exact R_trans|apply keeps_modify; intros; apply R_calendar|].
    intros _. apply keeps_print; exact R_print.
  - intros e. destruct e; apply keeps_print; exact R_print.
Qed.

End KeepsRun.

(** ** The ledgers *)

Lemma rows_of_append row f : rows_of f `prefix_of` rows_of (append_row row f).
Proof. unfold rows_of, append_row. simpl. apply prefix_app_r. reflexivity. Qed.

Lemma rows_of_ensure h f : rows_of f `prefix_of` rows_of (ensure_header h f).
Proof. destruct f; simpl; [reflexivity|apply prefix_nil]. Qed.

Lemma ledgers_grow_refl w : ledgers_grow w w.
Proof. repeat split; reflexivity. Qed.

Lemma ledgers_grow_trans w1 w2 w3 :
  ledgers_grow w1 w2 -> ledgers_grow w2 w3 -> ledgers_grow w1 w3.
Proof.
  intros (H1 & H2 & H3) (K1 & K2 & K3). repeat split; etransitivity; eassumption.
Qed.

Ltac grow_side :=
  first
    [ exact ledgers_grow_refl
    | exact ledgers_grow_trans
    | intros; unfold ledgers_grow; cbn [success_log error_log analytics_log set_stdout
        set_trace set_clock set_calendar set_success_log set_error_log set_analytics_log];
      repeat split;
      first [reflexivity | apply rows_of_append | apply rows_of_ensure] ].

(** [ensure_log_files] creates the ledgers that do not exist, with their
    headers, and leaves the ones that exist as they are; run twice it does
    what it does run once. *)
Theorem ensure_log_files_idempotent w :
  let w' := snd (ensure_log_files w) in
  success_log w' = Some (default [SUCCESS_HEADER] (success_log w))
  /\ error_log w' = Some (default [ERROR_HEADER] (error_log w))
  /\ analytics_log w' = Some (default [ANALYTICS_HEADER] (analytics_log w))
  /\ calendar w' = calendar w /\ trace w' = trace w
  /\ snd (ensure_log_files w') = w'.
Proof.
  destruct w as [t n cal [s|] [e|] [a|] out]; repeat split.
Qed.

(** The ledgers are append-only: after a scheduled run or a manual
    publish, in either mode and whatever the platform answers, each of the
    three ledgers begins with the rows it had before. *)
Theorem ledgers_append_only E dry_run entered w :
  ledgers_grow w (snd (auto_schedule_publish E dry_run w))
  /\ ledgers_grow w (snd (post_now E dry_run entered w)).
Proof.
  split.
  - destruct (auto_schedule_publish E dry_run w) as [r w'] eqn:Hrun. simpl.
    eapply (keeps_auto_schedule_publish ledgers_grow); [..|exact Hrun]; grow_side.
  - destruct (post_now E dry_run entered w) as [r w'] eqn:Hrun. simpl.
    eapply (keeps_post_now ledgers_grow); [..|exact Hrun]; grow_side.
Qed.

(** ** The outcome of a live publish *)

(** When the client cannot be built, a live publish of a tweet or of a
    thread ends in the error label: the construction of the client is the
    only thing asked of the platform, nothing is posted, one row with the
    message [... posting failed: Twitter client not initialized] goes to the
    error ledger and none to the success ledger. *)
Theorem no_client_no_post E content row_index w e :
  tweepy_API E (trace w) = Some e ->
  (exists w',
      safe_publish E X_TWEET content row_index false w = (Ok ERROR_LABEL, w')
      /\ trace w' = trace w ++ [GetClient]
      /\ error_log w'
         = append_row (error_row (datetime_now E (clock w)) X_TWEET content
                         (py "Tweet posting failed: Twitter client not initialized"))
             (error_log w)
      /\ success_log w' = success_log w)
  /\ (thread_parts content <> [] ->
      exists w',
        safe_publish E X_THREAD content row_index false w = (Ok ERROR_LABEL, w')
        /\ trace w' = trace w ++ [GetClient]
        /\ error_log w'
           = append_row (error_row (datetime_now E (clock w)) X_THREAD content
                           (py "Thread posting failed: Twitter client not initialized"))
               (error_log w)
        /\ success_log w' = success_log w).
Proof.
  intros Hc. split.
  - eexists. split.
    + apply (safe_publish_failed E X_TWEET content row_index w
               (Exception (py "Tweet posting failed: Twitter client not initialized"))).
      unfold publish_dispatch. rewrite (proj2 platforms_differ), str_eqb_refl.
      erewrite bind_ok by (apply publish_tweet_no_client; exact Hc). reflexivity.
    + repeat split.
  - intros Hparts. eexists. split.
    + apply (safe_publish_failed E X_THREAD content row_index w
               (Exception (py "Thread posting failed: Twitter client not initialized"))).
      unfold publish_dispatch. rewrite str_eqb_refl. cbv zeta.
      rewrite (proj2 (is_empty_iff _) Hparts).
      erewrite bind_ok by (apply publish_thread_no_client; exact Hc). reflexivity.
    + repeat split.
Qed.

(** A live publish of a single tweet mirrors the answer of the platform:
    when the post is accepted with identifier [id], the posted label and one
    success row whose last cell is [id] (or [N/A] when [id] is empty); when
    it is refused with text [e], the error label and one error row with the
    message [Tweet posting failed: e]. *)
Theorem tweet_outcome E content row_index w :
  tweepy_API E (trace w) = None ->
  let w1 := set_trace (fun t => t ++ [GetClient; UpdateStatus (truncate content) None]) w in
  (forall id,
      update_status E (trace w ++ [GetClient]) (truncate content) None = inl id ->
      safe_publish E X_TWEET content row_index false w
      = (Ok POSTED,
         set_success_log
           (append_row [dt_str (datetime_now E (clock w)); X_TWEET; take 100 content;
                        POSTED; if truthy id then id else py "N/A"])
           (set_clock S w1)))
  /\ (forall e,
        update_status E (trace w ++ [GetClient]) (truncate content) None = inr e ->
        safe_publish E X_TWEET content row_index false w
        = (Ok ERROR_LABEL,
           set_error_log
             (append_row [dt_str (datetime_now E (clock w)); X_TWEET; take 100 content;
                          py "Tweet posting failed: " ++ e; py "No"])
             (set_clock S w1))).
Proof.
  intros Hc w1. split.
  - intros id Hu.
    rewrite (safe_publish_posted E X_TWEET content row_index w (Some id) w1).
    + unfold logged_success, success_row, or_na. destruct id; reflexivity.
    + unfold publish_dispatch. rewrite (proj2 platforms_differ), str_eqb_refl.
      erewrite bind_ok by (apply publish_tweet_ok; [exact Hc|exact Hu]). reflexivity.
  - intros e Hu.
    rewrite (safe_publish_failed E X_TWEET content row_index w
               (Exception (py "Tweet posting failed: " ++ e)) w1); [reflexivity|].
    unfold publish_dispatch. rewrite (proj2 platforms_differ), str_eqb_refl.
    erewrite bind_ok by (apply publish_tweet_err; [exact Hc|exact Hu]). reflexivity.
Qed.

(** A thread whose parts are all accepted ends in the posted label, and
    the one row it adds to the success ledger carries the identifiers of all
    the parts, in posting order, joined by commas. *)
Theorem thread_outcome E content row_index w ids t' last :
  tweepy_API E (trace w) = None ->
  thread_parts content <> [] ->
  posted E (trace w ++ [GetClient]) None (truncate <$> thread_parts content) ids t' last ->
  safe_publish E X_THREAD content row_index false w
  = (Ok POSTED,
     logged_success E X_THREAD content (Some (join (py ",") ids))
       (set_trace (fun _ => t') w)).
Proof.
  intros Hc Hparts Hp.
  apply safe_publish_posted.
  unfold publish_dispatch. rewrite str_eqb_refl. cbv zeta.
  rewrite (proj2 (is_empty_iff _) Hparts).
  erewrite bind_ok by (eapply publish_thread_posted; [exact Hc|exact Hp]).
  cbv beta iota. rewrite str_in_replicate_success. reflexivity.
Qed.

Lemma truncate_le content : length (truncate content) <= 280.
Proof.
  destruct (Nat.le_gt_cases (length content) 280) as [H|H].
  - rewrite (truncate_short content H). exact H.
  - rewrite (proj2 (truncate_long content H)). reflexivity.
Qed.

Lemma truncated_parts_le (parts : list str) :
  Forall (fun text => length text <= 280) (truncate <$> parts).
Proof. apply Forall_fmap, Forall_forall. intros part _. apply truncate_le. Qed.

Lemma publish_dispatch_texts E platform content w :
  exists texts,
    posted_texts (trace (snd (publish_dispatch E platform content false w)))
    = posted_texts (trace w) ++ texts
    /\ Forall (fun text => length text <= 280) texts.
Proof.
  unfold publish_dispatch.
  destruct (str_eqb platform X_THREAD).
  - cbv zeta. destruct (is_empty (thread_parts content)).
    + exists []. split; [simpl; rewrite app_nil_r; reflexivity|constructor].
    + destruct (tweepy_API E (trace w)) as [e|] eqn:Hc.
      * erewrite bind_ok by (apply publish_thread_no_client; exact Hc).
        exists []. split; [|constructor]. simpl.
        rewrite posted_texts_app, app_nil_r. simpl. rewrite app_nil_r. reflexivity.
      * destruct (publish_thread_texts E (thread_parts content) w Hc) as [n Hn].
        exists (truncate <$> take n (thread_parts content)).
        split; [|apply truncated_parts_le]. rewrite <- Hn.
        destruct (publish_thread E (thread_parts content) false w) as [[[results ids]|e] w1] eqn:Hrun.
        -- erewrite bind_ok by exact Hrun. simpl.
           destruct (str_in TAG_ERROR results); reflexivity.
        -- erewrite bind_raised by exact Hrun. reflexivity.
  - destruct (str_eqb platform X_TWEET).
    + destruct (tweepy_API E (trace w)) as [e|] eqn:Hc.
      * erewrite bind_ok by (apply publish_tweet_no_client; exact Hc).
        exists []. split; [|constructor]. simpl.
        rewrite posted_texts_app, app_nil_r. simpl. rewrite app_nil_r. reflexivity.
      * exists [truncate content]. split; [|constructor; [apply truncate_le|constructor]].
        pose proof (publish_tweet_trace E content w Hc) as Htrace.
        destruct (publish_tweet E content false w) as [[[tag id]|e] w1] eqn:Hrun.
        -- erewrite bind_ok by exact Hrun. cbn [snd] in Htrace. cbv beta iota.
           destruct (str_eqb tag TAG_ERROR); unfold raise, ret; cbn [snd];
             rewrite Htrace, posted_texts_app; reflexivity.
        -- erewrite bind_raised by exact Hrun. cbn [snd] in *.
           rewrite Htrace, posted_texts_app. reflexivity.
    + exists []. split; [simpl; rewrite app_nil_r; reflexivity|constructor].
Qed.

(** Whatever the platform, the content and the mode, no call made by
    [safe_publish] posts a text of more than 280 characters. *)
Theorem never_over_280 E platform content row_index dry_run w :
  exists texts,
    posted_texts (trace (snd (safe_publish E platform content row_index dry_run w)))
    = posted_texts (trace w) ++ texts
    /\ Forall (fun text => length text <= 280) texts.
Proof.
  destruct dry_run.
  - exists []. rewrite safe_publish_dry. simpl. rewrite app_nil_r. split; [reflexivity|constructor].
  - destruct (publish_dispatch_texts E platform content w) as (texts & Htexts & Hall).
    exists texts. split; [|exact Hall]. rewrite <- Htexts.
    destruct (publish_dispatch E platform content false w) as [[post_id|e] w1] eqn:Hrun.
    + rewrite (safe_publish_posted E platform content row_index w post_id w1 Hrun).
      reflexivity.
    + rewrite (safe_publish_failed E platform content row_index w e w1 Hrun). reflexivity.
Qed.

(** ** Runs that have nothing to publish *)

Lemma schedule_row_not_due E today dry_run i row posted_count w :
  ~ due E today row ->
  schedule_row E today dry_run i row posted_count w = (Ok (row, posted_count), w).
Proof.
  intros Hnot. unfold schedule_row.
  destruct row as [|d [|p [|c [|s rest]]]]; try reflexivity.
  destruct (strptime E d) as [planned|] eqn:Hdate; [|reflexivity].
  rewrite (not_due_test E today d p c s rest planned Hdate Hnot). reflexivity.
Qed.

Lemma schedule_rows_cons E today dry_run i row rest posted_count :
  schedule_rows E today dry_run i (row :: rest) posted_count
  = ('(row, posted_count) ← schedule_row E today dry_run i row posted_count;
     '(rest, posted_count) ← schedule_rows E today dry_run (S i) rest posted_count;
     ret (row :: rest, posted_count)).
Proof. reflexivity. Qed.

Lemma schedule_rows_none_due E today dry_run rows : forall i posted_count w,
  Forall (fun row => ~ due E today row) rows ->
  schedule_rows E today dry_run i rows posted_count w = (Ok (rows, posted_count), w).
Proof.
  induction rows as [|row rest IH]; intros i posted_count w Hall; [reflexivity|].
  inversion Hall as [|? ? Hrow Hrest]; subst. rewrite schedule_rows_cons.
  erewrite bind_ok by (apply schedule_row_not_due; exact Hrow). cbv beta iota.
  erewrite bind_ok by (apply IH; exact Hrest). reflexivity.
Qed.

Lemma label_not_trigger label : is_label label -> label <> POST_NOW.
Proof. intros [-> | [-> | ->]]; discriminate. Qed.

(** A row that has been handled is due on no date. *)
Lemma handled_not_due E today today' row row' :
  due E today row -> row_outcome E today row row' -> ~ due E today' row'.
Proof.
  intros Hdue [[_ (label & Hlabel & ->)] | [Hnot _]]; [|contradiction].
  destruct Hdue as (d & p & c & rest & -> & _).
  intros (d' & p' & c' & rest' & Heq & _). simpl in Heq.
  injection Heq as _ _ _ Hl _. exact (label_not_trigger label Hlabel Hl).
Qed.

Lemma outcome_not_due E today row row' :
  row_outcome E today row row' -> ~ due E today row'.
Proof.
  intros Hout. destruct (due_dec E today row) as [Hdue | Hnot].
  - exact (handled_not_due E today today row row' Hdue Hout).
  - destruct Hout as [[Hdue _] | [_ ->]]; [contradiction|exact Hnot].
Qed.

Lemma validate_rows_outcome E today rows rows' :
  Forall2 (row_outcome E today) rows rows' ->
  forall i errors warnings,
    validate_rows E i rows' errors warnings = validate_rows E i rows errors warnings.
Proof.
  induction 1 as [|row row' rows rows' Hout _ IH]; intros i errors warnings; [reflexivity|].
  cbn [validate_rows].
  assert (Hrow : validate_row E i row' errors warnings = validate_row E i row errors warnings).
  { destruct Hout as [[_ (label & _ & ->)] | [_ ->]];
      [apply validate_row_status|reflexivity]. }
  rewrite Hrow. destruct (validate_row E i row errors warnings). apply IH.
Qed.

(** A run of a calendar that passes validation and has no due row. *)
Lemma process_calendar_idle E today dry_run header rows w :
  fst (validate_content_calendar E rows) = [] ->
  Forall (fun row => ~ due E today row) rows ->
  exists w',
    process_calendar E today dry_run (header :: rows) w = (Ok tt, w')
    /\ trace w' = trace w /\ clock w' = clock w
    /\ calendar w' = (match rows with [] => calendar w | _ => Some (header :: rows) end)
    /\ success_log w' = success_log w /\ error_log w' = error_log w
    /\ analytics_log w' = analytics_log w.
Proof.
  intros Hval Hnone. unfold process_calendar.
  destruct rows as [|row rows]; [eexists; split; [reflexivity|repeat split]|].
  destruct (validate_content_calendar E (row :: rows)) as [errors warnings].
  simpl in Hval. subst errors.
  destruct (warnings_phase warnings w) as (lines & Hwarn & _).
  erewrite bind_ok by exact Hwarn. cbv beta iota delta [is_empty negb].
  erewrite bind_ok by (apply schedule_rows_none_due; exact Hnone). cbv beta iota.
  erewrite bind_ok by reflexivity.
  change (0 <? 0) with false. rewrite andb_false_r.
  eexists. split; [reflexivity|repeat split].
Qed.

Lemma ledgers_of_prologue E dry_run w :
  success_log (prologue_world E dry_run w) = ensure_header SUCCESS_HEADER (success_log w)
  /\ error_log (prologue_world E dry_run w) = ensure_header ERROR_HEADER (error_log w)
  /\ analytics_log (prologue_world E dry_run w)
     = ensure_header ANALYTICS_HEADER (analytics_log w)
  /\ trace (prologue_world E dry_run w) = trace w
  /\ calendar (prologue_world E dry_run w) = calendar w.
Proof. repeat split. Qed.

Lemma auto_schedule_idle E dry_run w header rows :
  calendar w = Some (header :: rows) ->
  fst (validate_content_calendar E rows) = [] ->
  Forall (fun row => ~ due E (dt_date (datetime_now E (clock w))) row) rows ->
  let w' := snd (auto_schedule_publish E dry_run w) in
  trace w' = trace w /\ calendar w' = calendar w
  /\ success_log w' = ensure_header SUCCESS_HEADER (success_log w)
  /\ error_log w' = ensure_header ERROR_HEADER (error_log w)
  /\ analytics_log w' = ensure_header ANALYTICS_HEADER (analytics_log w).
Proof.
  intros Hcal Hval Hnone. cbv zeta.
  rewrite (auto_schedule_reads E dry_run w _ Hcal).
  destruct (process_calendar_idle E _ dry_run header rows (prologue_world E dry_run w)
              Hval Hnone) as (w' & Hrun & Ht & _ & Hc & Hs & He & Ha).
  rewrite Hrun. cbn [snd].
  destruct (ledgers_of_prologue E dry_run w) as (Ps & Pe & Pa & Pt & Pc).
  rewrite Ht, Hs, He, Ha, Ps, Pe, Pa, Pt. repeat split.
  rewrite Hc, Pc, Hcal. destruct rows; reflexivity.
Qed.

(** A run over a calendar that passes validation and holds no due row
    asks nothing of the platform, not even a client, whatever the mode: the
    trace and the calendar are as before and no row is added to a ledger. *)
Theorem idle_run E dry_run w header rows :
  calendar w = Some (header :: rows) ->
  fst (validate_content_calendar E rows) = [] ->
  Forall (fun row => ~ due E (dt_date (datetime_now E (clock w))) row) rows ->
  let w' := snd (auto_schedule_publish E dry_run w) in
  trace w' = trace w /\ calendar w' = calendar w
  /\ success_log w' = ensure_header SUCCESS_HEADER (success_log w)
  /\ error_log w' = ensure_header ERROR_HEADER (error_log w)
  /\ analytics_log w' = ensure_header ANALYTICS_HEADER (analytics_log w).
Proof. apply auto_schedule_idle. Qed.

(** ** Running again *)

Lemma ledgers_stay_refl w : ledgers_stay w w.
Proof. repeat split; auto. Qed.

Lemma ledgers_stay_trans w1 w2 w3 :
  ledgers_stay w1 w2 -> ledgers_stay w2 w3 -> ledgers_stay w1 w3.
Proof. intros (H1 & H2 & H3) (K1 & K2 & K3). repeat split; auto. Qed.

Ltac stay_side :=
  first
    [ exact ledgers_stay_refl
    | exact ledgers_stay_trans
    | intros; unfold ledgers_stay; cbn [success_log error_log analytics_log set_stdout
        set_trace set_clock set_calendar set_success_log set_error_log set_analytics_log];
      repeat split; intros Hsome;
      first [ exact Hsome | discriminate
            | match goal with |- ensure_header _ ?f <> None => destruct f; discriminate end ] ].

(** What a run over a calendar that passes validation leaves behind. *)
Lemma run_outcome E dry_run w header rows :
  calendar w = Some (header :: rows) ->
  fst (validate_content_calendar E rows) = [] ->
  exists rows',
    calendar (snd (auto_schedule_publish E dry_run w)) = Some (header :: rows')
    /\ Forall2 (row_outcome E (dt_date (datetime_now E (clock w)))) rows rows'
    /\ success_log (snd (auto_schedule_publish E dry_run w)) <> None
    /\ error_log (snd (auto_schedule_publish E dry_run w)) <> None
    /\ analytics_log (snd (auto_schedule_publish E dry_run w)) <> None.
Proof.
  intros Hcal Hval. rewrite (auto_schedule_reads E dry_run w _ Hcal).
  set (today := dt_date (datetime_now E (clock w))).
  assert (Hstay : ledgers_stay (prologue_world E dry_run w)
                    (snd (process_calendar E today dry_run (header :: rows)
                            (prologue_world E dry_run w)))).
  { destruct (process_calendar E today dry_run (header :: rows) (prologue_world E dry_run w))
      as [r w'] eqn:Hrun. cbn [snd].
    eapply (keeps_process_calendar ledgers_stay); [..|exact Hrun]; stay_side. }
  destruct Hstay as (Hs & He & Ha).
  assert (Hexist : forall h (f : csv_file), ensure_header h f <> None)
    by (intros h [x|]; discriminate).
  destruct (ledgers_of_prologue E dry_run w) as (Ps & Pe & Pa & _ & _).
  assert (Hout : exists rows',
            calendar (snd (process_calendar E today dry_run (header :: rows)
                             (prologue_world E dry_run w))) = Some (header :: rows')
            /\ Forall2 (row_outcome E today) rows rows').
  { destruct rows as [|row rows].
    - exists []. split; [simpl; exact Hcal|constructor].
    - destruct (validate_content_calendar E (row :: rows)) as [errors warnings] eqn:Hv.
      simpl in Hval. subst errors.
      destruct (process_calendar_valid E today dry_run header row rows warnings
                  (prologue_world E dry_run w) Hv)
        as (lines & rows' & posted_count & w1 & _ & _ & Hout & Hwritten & _).
      exists rows'. split; [exact Hwritten|exact Hout]. }
  destruct Hout as (rows' & Hwritten & Hout).
  exists rows'. split; [exact Hwritten|]. split; [exact Hout|].
  split; [apply Hs; rewrite Ps; apply Hexist|].
  split; [apply He; rewrite Pe; apply Hexist|apply Ha; rewrite Pa; apply Hexist].
Qed.

Lemma ensure_existing h (f : csv_file) : f <> None -> ensure_header h f = f.
Proof. destruct f; [reflexivity|congruence]. Qed.

(** Running the scheduler a second time on the same date, in either
    mode, does nothing: whatever the first run did, the second asks nothing
    of the platform and leaves the calendar and the three ledgers as the
    first run left them.  In particular a row marked by a dry run or by a
    failed attempt is not published by a later run. *)
Theorem rerun_same_day E dry_run dry_run' w header rows :
  calendar w = Some (header :: rows) ->
  fst (validate_content_calendar E rows) = [] ->
  let w1 := snd (auto_schedule_publish E dry_run w) in
  dt_date (datetime_now E (clock w1)) = dt_date (datetime_now E (clock w)) ->
  let w2 := snd (auto_schedule_publish E dry_run' w1) in
  trace w2 = trace w1 /\ calendar w2 = calendar w1
  /\ success_log w2 = success_log w1 /\ error_log w2 = error_log w1
  /\ analytics_log w2 = analytics_log w1.
Proof.
  intros Hcal Hval w1 Hday w2.
  destruct (run_outcome E dry_run w header rows Hcal Hval)
    as (rows' & Hcal1 & Hout & Hs & He & Ha).
  fold w1 in Hcal1, Hs, He, Ha.
  assert (Hval1 : fst (validate_content_calendar E rows') = []).
  { unfold validate_content_calendar.
    rewrite (validate_rows_outcome E _ rows rows' Hout). exact Hval. }
  assert (Hnone : Forall (fun row => ~ due E (dt_date (datetime_now E (clock w1))) row) rows').
  { rewrite Hday. apply Forall_forall. intros row' Hin.
    apply list_elem_of_lookup in Hin as [i Hi].
    destruct (Forall2_lookup_r _ _ _ _ _ Hout Hi) as (row & _ & Hrow).
    exact (outcome_not_due E _ row row' Hrow). }
  destruct (auto_schedule_idle E dry_run' w1 header rows' Hcal1 Hval1 Hnone)
    as (Ht & Hc & Hs2 & He2 & Ha2).
  fold w2 in Ht, Hc, Hs2, He2, Ha2.
  rewrite Hs2, He2, Ha2, !ensure_existing by assumption. repeat split; assumption.
Qed.

(** A row is handled once: a row that was due when the scheduler ran is,
    in the calendar that run wrote, due on no date, and a later run of the
    scheduler, on any date and in either mode, leaves it as it is. *)
Theorem published_once E dry_run dry_run' w header rows i row :
  calendar w = Some (header :: rows) ->
  fst (validate_content_calendar E rows) = [] ->
  rows !! i = Some row ->
  due E (dt_date (datetime_now E (clock w))) row ->
  let w1 := snd (auto_schedule_publish E dry_run w) in
  let w2 := snd (auto_schedule_publish E dry_run' w1) in
  exists rows1 rows2 row1,
    calendar w1 = Some (header :: rows1) /\ calendar w2 = Some (header :: rows2)
    /\ rows1 !! i = Some row1 /\ rows2 !! i = Some row1
    /\ forall today, ~ due E today row1.
Proof.
  intros Hcal Hval Hi Hdue w1 w2.
  destruct (run_outcome E dry_run w header rows Hcal Hval) as (rows1 & Hcal1 & Hout & _).
  fold w1 in Hcal1.
  assert (Hval1 : fst (validate_content_calendar E rows1) = []).
  { unfold validate_content_calendar.
    rewrite (validate_rows_outcome E _ rows rows1 Hout). exact Hval. }
  destruct (run_outcome E dry_run' w1 header rows1 Hcal1 Hval1) as (rows2 & Hcal2 & Hout2 & _).
  fold w2 in Hcal2.
  destruct (Forall2_lookup_l _ _ _ _ _ Hout Hi) as (row1 & Hi1 & Hrow).
  assert (Hnever : forall today, ~ due E today row1)
    by (intros today; exact (handled_not_due E _ today row row1 Hdue Hrow)).
  destruct (Forall2_lookup_l _ _ _ _ _ Hout2 Hi1) as (row2 & Hi2 & Hrow2).
  exists rows1, rows2, row1. repeat split; try assumption.
  destruct Hrow2 as [[Hdue2 _] | [_ ->]]; [|exact Hi2].
  exfalso. exact (Hnever _ Hdue2).
Qed.

(** ** The analytics pass *)

Lemma status_queries_app t1 t2 :
  status_queries (t1 ++ t2) = status_queries t1 ++ status_queries t2.
Proof.
  induction t1 as [|e t1 IH]; simpl; [reflexivity|].
  destruct e; simpl; rewrite ?IH; reflexivity.
Qed.

Lemma collect_post_ids_ok rows : forall post_ids w,
  Forall (fun row => 5 <= length row) rows ->
  collect_post_ids rows post_ids w = (Ok (post_ids ++ omap collected rows), w).
Proof.
  induction rows as [|row rest IH]; intros post_ids w Hall; cbn [collect_post_ids omap list_omap].
  - rewrite app_nil_r. reflexivity.
  - inversion Hall as [|? ? Hrow Hrest]; subst.
    unfold collected. destruct (row !! 4) as [post_id|] eqn:Hid.
    + rewrite (IH _ w Hrest).
      destruct (truthy post_id && negb (str_eqb post_id (py "N/A"))
                && negb (str_eqb post_id (py "DryRun"))).
      * rewrite <- app_assoc. reflexivity.
      * reflexivity.
    + apply lookup_ge_None in Hid. lia.
Qed.

Lemma collect_post_ids_short rows : forall post_ids w,
  Exists (fun row => length row < 5) rows ->
  collect_post_ids rows post_ids w = (Raised (IndexError (py "list index out of range")), w).
Proof.
  induction rows as [|row rest IH]; intros post_ids w Hex; [inversion Hex|].
  cbn [collect_post_ids]. destruct (row !! 4) as [post_id|] eqn:Hid; [|reflexivity].
  apply IH. inversion Hex as [? ? Hshort|? ? Hrest]; subst; [|exact Hrest].
  apply lookup_lt_Some in Hid. lia.
Qed.

Lemma client_get_status_ok E w post_id tweet :
  get_status E (trace w) post_id = inl tweet ->
  client_get_status E post_id w
  = (Ok tweet, set_trace (fun t => t ++ [GetStatus post_id]) w).
Proof. intros H. unfold client_get_status. run. rewrite H. reflexivity. Qed.

Lemma client_get_status_err E w post_id e :
  get_status E (trace w) post_id = inr e ->
  client_get_status E post_id w
  = (Raised (PlatformError e), set_trace (fun t => t ++ [GetStatus post_id]) w).
Proof. intros H. unfold client_get_status. run. rewrite H. reflexivity. Qed.

Lemma track_posts_run E post_ids : forall w,
  exists w',
    track_posts E post_ids w = (Ok tt, w')
    /\ status_queries (trace w')
       = status_queries (trace w) ++ (snd <$> filter (fun pair => asks pair = true) post_ids)
    /\ posted_texts (trace w') = posted_texts (trace w)
    /\ calendar w' = calendar w /\ success_log w' = success_log w
    /\ error_log w' = error_log w
    /\ rows_of (analytics_log w) `prefix_of` rows_of (analytics_log w').
Proof.
  induction post_ids as [|[platform post_id] rest IH]; intros w.
  - exists w. cbn. rewrite app_nil_r. repeat split; reflexivity.
  - cbn [track_posts]. unfold filter. cbn [list_filter]. fold (filter (fun pair => asks pair = true) rest).
    destruct (decide (asks (platform, post_id) = true)) as [Hask | Hask].
    + unfold asks in Hask. cbn [fst] in Hask. rewrite Hask.
      destruct (get_status E (trace w) post_id) as [tweet|e] eqn:Hget.
      * destruct (IH (set_analytics_log
                        (append_row ([dt_str (datetime_now E (clock w)); platform; post_id]
                           ++ [str_of_nat (favorite_count tweet);
                               str_of_nat (retweet_count tweet); py "0";
                               impressions_str tweet]))
                        (set_clock S (set_trace (fun t => t ++ [GetStatus post_id]) w))))
          as (w' & Hrun & Hq & Hp & Hc & Hs & He & Ha).
        exists w'. split.
        { erewrite bind_ok; [exact Hrun|]. apply try_ok.
          erewrite bind_ok by (apply client_get_status_ok; exact Hget). reflexivity. }
        cbn [trace set_analytics_log set_clock set_trace calendar success_log error_log
               analytics_log] in *.
        rewrite Hq, Hp, status_queries_app, posted_texts_app. cbn.
        rewrite app_nil_r, <- app_assoc. repeat split; try assumption.
        etransitivity; [|exact Ha]. apply rows_of_append.
      * destruct (IH (set_stdout
                        (fun out => out ++ [py "Error getting analytics for " ++ post_id
                                              ++ py ": " ++ e])
                        (set_trace (fun t => t ++ [GetStatus post_id]) w)))
          as (w' & Hrun & Hq & Hp & Hc & Hs & He & Ha).
        exists w'. split.
        { erewrite bind_ok; [exact Hrun|].
          erewrite try_raised
            by (erewrite bind_raised by (apply client_get_status_err; exact Hget);
                reflexivity).
          reflexivity. }
        cbn [trace set_stdout set_trace calendar success_log error_log analytics_log] in *.
        rewrite Hq, Hp, status_queries_app, posted_texts_app. cbn.
        rewrite app_nil_r, <- app_assoc. repeat split; assumption.
    + unfold asks in Hask. cbn [fst] in Hask. apply not_true_is_false in Hask. rewrite Hask.
      destruct (IH w) as (w' & Hrun & Hq & Hp & Hc & Hs & He & Ha).
      exists w'. split; [erewrite bind_ok by reflexivity; exact Hrun|].
      repeat split; assumption.
Qed.

Lemma tracked_row row :
  tracked row
  = match collected row with
    | Some found => if asks found then Some (snd found) else None
    | None => None
    end.
Proof.
  unfold tracked, collected, asks. destruct (row !! 4) as [post_id|]; [|reflexivity].
  destruct (truthy post_id && negb (str_eqb post_id (py "N/A"))
            && negb (str_eqb post_id (py "DryRun"))); reflexivity.
Qed.

Lemma tracked_collected (rows : list (list str)) :
  omap tracked rows = snd <$> filter (fun pair => asks pair = true) (omap collected rows).
Proof.
  induction rows as [|row rest IH]; [reflexivity|].
  cbn [omap list_omap]. rewrite tracked_row.
  destruct (collected row) as [found|]; [|exact IH].
  rewrite filter_cons. destruct (asks found) eqn:Hask.
  - destruct (decide (true = true)); [|congruence]. cbn [fmap list_fmap]. f_equal. exact IH.
  - destruct (decide (false = true)); [discriminate|]. exact IH.
Qed.

Lemma read_success_log_some w rows :
  success_log w = Some rows -> read_success_log w = (Ok rows, w).
Proof. intros H. unfold read_success_log. rewrite H. reflexivity. Qed.

Lemma track_analytics_full E w header rows :
  tweepy_API E (trace w) = None ->
  success_log w = Some (header :: rows) ->
  Forall (fun row => 5 <= length row) rows ->
  exists w',
    track_analytics E w = (Ok tt, w')
    /\ status_queries (trace w') = status_queries (trace w) ++ omap tracked rows
    /\ posted_texts (trace w') = posted_texts (trace w)
    /\ calendar w' = calendar w /\ success_log w' = success_log w
    /\ error_log w' = error_log w
    /\ rows_of (analytics_log w) `prefix_of` rows_of (analytics_log w').
Proof.
  intros Hc Hlog Hall.
  destruct (track_posts_run E (omap collected rows) (set_trace (fun t => t ++ [GetClient]) w))
    as (w' & Hrun & Hq & Hp & Hcal & Hs & He & Ha).
  exists w'. split.
  - unfold track_analytics. apply try_ok.
    erewrite bind_ok by (apply get_twitter_client_ok; exact Hc). cbn [negb].
    erewrite bind_ok by (apply read_success_log_some; exact Hlog). cbv iota.
    erewrite bind_ok by (apply collect_post_ids_ok; exact Hall). exact Hrun.
  - cbn [trace set_trace calendar success_log error_log analytics_log] in *.
    rewrite Hq, Hp, status_queries_app, posted_texts_app, tracked_collected. cbn.
    rewrite !app_nil_r. repeat split; assumption.
Qed.

Lemma track_analytics_aborted E w :
  (tweepy_API E (trace w) <> None
   \/ success_log w = None \/ success_log w = Some []
   \/ exists header rows,
        success_log w = Some (header :: rows) /\ Exists (fun row => length row < 5) rows) ->
  exists w',
    track_analytics E w = (Ok tt, w')
    /\ trace w' = trace w ++ [GetClient]
    /\ calendar w' = calendar w /\ success_log w' = success_log w
    /\ error_log w' = error_log w /\ analytics_log w' = analytics_log w.
Proof.
  intros Hcase. unfold track_analytics.
  destruct (tweepy_API E (trace w)) as [e|] eqn:Hc.
  - eexists. split.
    + apply try_ok. erewrite bind_ok by (apply get_twitter_client_none; exact Hc). reflexivity.
    + repeat split.
  - destruct Hcase as [Hno | [Hlog | [Hlog | (header & rows & Hlog & Hshort)]]];
      [congruence| | |].
    + eexists. split.
      * erewrite try_raised; [reflexivity|].
        erewrite bind_ok by (apply get_twitter_client_ok; exact Hc). cbn [negb].
        erewrite bind_raised; [reflexivity|].
        unfold read_success_log. cbn [success_log set_trace]. rewrite Hlog. reflexivity.
      * repeat split.
    + eexists. split.
      * erewrite try_raised; [reflexivity|].
        erewrite bind_ok by (apply get_twitter_client_ok; exact Hc). cbn [negb].
        erewrite bind_ok by (apply read_success_log_some; exact Hlog). reflexivity.
      * repeat split.
    + eexists. split.
      * erewrite try_raised; [reflexivity|].
        erewrite bind_ok by (apply get_twitter_client_ok; exact Hc). cbn [negb].
        erewrite bind_ok by (apply read_success_log_some; exact Hlog). cbv iota.
        erewrite bind_raised by (apply collect_post_ids_short; exact Hshort). reflexivity.
      * repeat split.
Qed.

(** With a client at hand and a success ledger whose rows have their five
    cells, the analytics pass asks the platform once about each row whose
    post identifier is present, is neither [N/A] nor [DryRun], and whose
    platform is one of the two, in the order of the ledger, and about
    nothing else; a refusal for one identifier does not stop the questions
    about those after it. *)
Theorem analytics_queries E w header rows :
  tweepy_API E (trace w) = None ->
  success_log w = Some (header :: rows) ->
  Forall (fun row => 5 <= length row) rows ->
  status_queries (trace (snd (track_analytics E w)))
  = status_queries (trace w) ++ omap tracked rows.
Proof.
  intros Hc Hlog Hall.
  destruct (track_analytics_full E w header rows Hc Hlog Hall) as (w' & Hrun & Hq & _).
  rewrite Hrun. exact Hq.
Qed.

(** The analytics pass asks about no identifier and writes no analytics
    row when the client cannot be built, when the success ledger does not
    exist or is empty, and when any of its rows has fewer than five cells:
    the construction of the client is then all that is asked of the
    platform, even if rows before the short one name posts. *)
Theorem analytics_aborts E w :
  (tweepy_API E (trace w) <> None
   \/ success_log w = None \/ success_log w = Some []
   \/ exists header rows,
        success_log w = Some (header :: rows) /\ Exists (fun row => length row < 5) rows) ->
  trace (snd (track_analytics E w)) = trace w ++ [GetClient]
  /\ analytics_log (snd (track_analytics E w)) = analytics_log w.
Proof.
  intros Hcase.
  destruct (track_analytics_aborted E w Hcase) as (w' & Hrun & Ht & _ & _ & _ & Ha).
  rewrite Hrun. split; assumption.
Qed.

Lemma short_row_dec (rows : list (list str)) :
  Forall (fun row => 5 <= length row) rows \/ Exists (fun row => length row < 5) rows.
Proof.
  induction rows as [|row rest [IH|IH]].
  - left. constructor.
  - destruct (le_lt_dec 5 (length row)); [left; constructor; assumption|].
    right. constructor. assumption.
  - right. apply Exists_cons_tl. exact IH.
Qed.

(** The analytics pass always returns, never posts, and leaves the
    calendar, the success ledger and the error ledger as they are; the
    analytics ledger keeps the rows it had. *)
Theorem analytics_frame E w :
  fst (track_analytics E w) = Ok tt
  /\ posted_texts (trace (snd (track_analytics E w))) = posted_texts (trace w)
  /\ calendar (snd (track_analytics E w)) = calendar w
  /\ success_log (snd (track_analytics E w)) = success_log w
  /\ error_log (snd (track_analytics E w)) = error_log w
  /\ rows_of (analytics_log w) `prefix_of` rows_of (analytics_log (snd (track_analytics E w))).
Proof.
  assert (Hcases :
    (tweepy_API E (trace w) <> None
     \/ success_log w = None \/ success_log w = Some []
     \/ exists header rows,
          success_log w = Some (header :: rows) /\ Exists (fun row => length row < 5) rows)
    \/ (tweepy_API E (trace w) = None
        /\ exists header rows,
             success_log w = Some (header :: rows)
             /\ Forall (fun row => 5 <= length row) rows)).
  { destruct (tweepy_API E (trace w)) as [e|]; [left; left; discriminate|].
    destruct (success_log w) as [[|header rows]|]; [left; auto| |left; auto].
    destruct (short_row_dec rows) as [Hall | Hshort].
    - right. split; [reflexivity|]. exists header, rows. auto.
    - left. right. right. right. exists header, rows. auto. }
  destruct Hcases as [Habort | (Hc & header & rows & Hlog & Hall)].
  - destruct (track_analytics_aborted E w Habort) as (w' & Hrun & Ht & Hcal & Hs & He & Ha).
    rewrite Hrun. cbn [fst snd]. rewrite Ht, posted_texts_app, Hcal, Hs, He, Ha. cbn.
    rewrite app_nil_r. repeat split; reflexivity.
  - destruct (track_analytics_full E w header rows Hc Hlog Hall)
      as (w' & Hrun & _ & Hp & Hcal & Hs & He & Ha).
    rewrite Hrun. cbn [fst snd]. repeat split; assumption.
Qed.

(** ** Manual publish *)

Arguments post_now : simpl never.

Lemma print_menu_run rows : forall i w,
  exists lines, print_menu i rows w = (Ok tt, set_stdout (fun out => out ++ lines) w).
Proof.
  induction rows as [|row rest IH]; intros i w; cbn [print_menu].
  - exists []. rewrite set_stdout_nil. reflexivity.
  - destruct row as [|d [|p [|c [|s more]]]];
      try (destruct (IH (S i) w) as [lines Hrun]; exists lines;
           erewrite bind_ok by reflexivity; exact Hrun).
    destruct (IH (S i) (set_stdout
        (fun out => out ++ [str_of_nat i ++ py ". " ++ p ++ py ": " ++ take 50 c
                              ++ py "... (Status: " ++ s ++ py ")"]) w)) as [lines Hrun].
    eexists. erewrite bind_ok by reflexivity.
    etransitivity; [exact Hrun|]. rewrite set_stdout_app. reflexivity.
Qed.

(** The run of [post_now] up to the question. *)
Lemma post_now_menu E dry_run entered w header rows :
  calendar w = Some (header :: rows) ->
  exists w0,
    same_files w w0 /\ trace w0 = trace w
    /\ post_now E dry_run entered w
    = try_except
        (n ← of_result entered;
         let choice := (n - 1)%Z in
         if (choice <? 0)%Z || (Z.of_nat (length rows) <=? choice)%Z then
           print (py "Invalid selection")
         else
           match rows !! Z.to_nat choice with
           | None => raise (IndexError (py "list index out of range"))
           | Some row =>
               match row with
               | date_planned :: platform :: content :: status :: _ =>
                   print (py "Posting: " ++ platform ++ py " - " ++ take 50 content
                            ++ py "...");;
                   result ← safe_publish E platform content (Z.to_nat choice + 2) dry_run;
                   let rows := <[Z.to_nat choice := <[3 := result]> row]> rows in
                   modify (set_calendar (fun _ => Some (header :: rows)));;
                   print (py "Result: " ++ result)
               | _ => print (py "Invalid row format")
               end
           end)
        (fun e =>
           match e with
           | ValueError _ => print (py "Please enter a valid number")
           | _ => print (py "Error: " ++ exn_str e)
           end)
        w0.
Proof.
  intros Hcal.
  destruct (print_menu_run rows 1
              (set_stdout (fun out => out ++ [py "Select content to post immediately:"]) w))
    as [lines Hmenu].
  exists (set_stdout (fun out => out ++ [[NEWLINE] ++ py "Enter row number to post: "])
            (set_stdout (fun out => out ++ lines)
               (set_stdout (fun out => out ++ [py "Select content to post immediately:"]) w))).
  split; [repeat split|]. split; [reflexivity|].
  unfold post_now.
  erewrite bind_ok by reflexivity. rewrite Hcal.
  erewrite bind_ok by reflexivity. erewrite bind_ok by exact Hmenu. reflexivity.
Qed.

Lemma same_files_step w w0 f : same_files w w0 -> same_files w (set_stdout f w0).
Proof. unfold same_files. simpl. tauto. Qed.

(** A manual publish changes nothing but the standard output when the
    answer is not a number, when the number is outside [1 .. len(rows)], and
    when the row chosen has fewer than four cells: nothing is asked of the
    platform, and the calendar and the ledgers stay as they are. *)
Theorem post_now_refused E dry_run w header rows entered :
  calendar w = Some (header :: rows) ->
  match entered with
  | Raised _ => True
  | Ok n =>
      (n < 1)%Z \/ (Z.of_nat (length rows) < n)%Z
      \/ exists row, rows !! Z.to_nat (n - 1) = Some row /\ length row < 4
  end ->
  fst (post_now E dry_run entered w) = Ok tt
  /\ trace (snd (post_now E dry_run entered w)) = trace w
  /\ same_files w (snd (post_now E dry_run entered w)).
Proof.
  intros Hcal Hcase.
  destruct (post_now_menu E dry_run entered w header rows Hcal) as (w0 & Hfiles & Htrace & ->).
  destruct entered as [n|e].
  - destruct ((n - 1 <? 0)%Z || (Z.of_nat (length rows) <=? n - 1)%Z) eqn:Hout.
    + erewrite try_ok.
      2:{ erewrite bind_ok by reflexivity. cbv zeta. rewrite Hout. reflexivity. }
      cbn [fst snd]. split; [reflexivity|]. split; [exact Htrace|].
      apply same_files_step. exact Hfiles.
    + apply orb_false_iff in Hout as [Hlow Hhigh].
      apply Z.ltb_ge in Hlow. apply Z.leb_gt in Hhigh.
      destruct Hcase as [Hn | [Hn | (row & Hrow & Hshort)]]; [lia|lia|].
      erewrite try_ok.
      2:{ erewrite bind_ok by reflexivity. cbv zeta.
          rewrite (proj2 (orb_false_iff _ _)
                     (conj (proj2 (Z.ltb_ge _ _) Hlow) (proj2 (Z.leb_gt _ _) Hhigh))).
          rewrite Hrow. destruct row as [|d [|p [|c [|s more]]]]; try reflexivity.
          simpl in Hshort. lia. }
      cbn [fst snd]. split; [reflexivity|]. split; [exact Htrace|].
      apply same_files_step. exact Hfiles.
  - erewrite try_raised by reflexivity.
    destruct e; cbn [fst snd]; (split; [reflexivity|]); (split; [exact Htrace|]);
      apply same_files_step; exact Hfiles.
Qed.

(** A manual publish of row number [k + 1] publishes that row whatever
    its status and its date, without validating the calendar: after the
    menu, which touches neither the files nor the trace, it makes the one
    call [safe_publish platform content (k + 2) dry_run] on the platform and
    content cells of that row, and the world it leaves is the world that
    call leaves (its trace, its ledgers, its clock) with one line printed and
    the calendar written back, the label that call returned in the status
    cell of that row and every other cell of the store as it was. *)
Theorem post_now_selected E dry_run w header rows k d p c s rest :
  calendar w = Some (header :: rows) ->
  rows !! k = Some (d :: p :: c :: s :: rest) ->
  exists w0 label w1,
    same_files w w0 /\ trace w0 = trace w
    /\ safe_publish E p c (k + 2) dry_run w0 = (Ok label, w1)
    /\ is_label label
    /\ post_now E dry_run (Ok (Z.of_nat k + 1)%Z) w
       = (Ok tt,
          set_stdout (fun out => out ++ [py "Result: " ++ label])
            (set_calendar
               (fun _ => Some (header :: <[k := d :: p :: c :: label :: rest]> rows)) w1))
    /\ trace (snd (post_now E dry_run (Ok (Z.of_nat k + 1)%Z) w)) = trace w1
    /\ success_log (snd (post_now E dry_run (Ok (Z.of_nat k + 1)%Z) w)) = success_log w1
    /\ error_log (snd (post_now E dry_run (Ok (Z.of_nat k + 1)%Z) w)) = error_log w1
    /\ calendar (snd (post_now E dry_run (Ok (Z.of_nat k + 1)%Z) w))
       = Some (header :: <[k := d :: p :: c :: label :: rest]> rows).
Proof.
  intros Hcal Hrow.
  destruct (post_now_menu E dry_run (Ok (Z.of_nat k + 1)%Z) w header rows Hcal)
    as (w0 & Hfiles & Htrace & Hrun0).
  pose proof (lookup_lt_Some _ _ _ Hrow) as Hk.
  destruct (safe_publish_returns E p c (k + 2) dry_run
              (set_stdout (fun out => out ++ [py "Posting: " ++ p ++ py " - " ++ take 50 c
                                                ++ py "..."]) w0))
    as (label & w1 & Hrun & Hlabel).
  exists (set_stdout (fun out => out ++ [py "Posting: " ++ p ++ py " - " ++ take 50 c
                                           ++ py "..."]) w0), label, w1.
  split; [apply same_files_step; exact Hfiles|]. split; [exact Htrace|].
  split; [exact Hrun|]. split; [exact Hlabel|].
  assert (post_now E dry_run (Ok (Z.of_nat k + 1)%Z) w
          = (Ok tt,
             set_stdout (fun out => out ++ [py "Result: " ++ label])
               (set_calendar
                  (fun _ => Some (header :: <[k := d :: p :: c :: label :: rest]> rows)) w1)))
    as ->.
  { rewrite Hrun0. erewrite try_ok; [reflexivity|].
    erewrite bind_ok by reflexivity. cbv zeta.
    replace (Z.of_nat k + 1 - 1)%Z with (Z.of_nat k) by lia.
    rewrite Nat2Z.id.
    replace ((Z.of_nat k <? 0)%Z || (Z.of_nat (length rows) <=? Z.of_nat k)%Z) with false.
    2:{ symmetry. apply orb_false_iff. split; [apply Z.ltb_ge|apply Z.leb_gt]; lia. }
    rewrite Hrow. erewrite bind_ok by reflexivity.
    erewrite bind_ok by exact Hrun. erewrite bind_ok by reflexivity. reflexivity. }
  repeat split.
Qed.

(** Without a calendar file a manual publish prints a message and does
    nothing else; with a calendar file that holds no line at all it raises
    [IndexError] at [reader[0]], before any question is asked. *)
Theorem post_now_no_rows E dry_run entered w :
  (calendar w = None ->
   post_now E dry_run entered w
   = (Ok tt, set_stdout (fun out => out ++ [py "Error: content_calendar.csv not found"]) w))
  /\ (calendar w = Some [] ->
      post_now E dry_run entered w
      = (Raised (IndexError (py "list index out of range")), w)).
Proof.
  split; intros Hcal; unfold post_now; erewrite bind_ok by reflexivity; rewrite Hcal;
    reflexivity.
Qed.

(** ** Nothing to read *)

(** When the calendar file does not exist the scheduler writes the sample
    calendar, and when it holds fewer than two lines the scheduler leaves it
    as it is; in both cases nothing is asked of the platform and the ledgers
    receive at most their headers. *)
Theorem nothing_to_read E dry_run w :
  let w' := snd (auto_schedule_publish E dry_run w) in
  (calendar w = None \/ exists reader, calendar w = Some reader /\ length reader < 2) ->
  calendar w' = Some (default SAMPLE_CALENDAR (calendar w))
  /\ trace w' = trace w
  /\ success_log w' = ensure_header SUCCESS_HEADER (success_log w)
  /\ error_log w' = ensure_header ERROR_HEADER (error_log w)
  /\ analytics_log w' = ensure_header ANALYTICS_HEADER (analytics_log w).
Proof.
  intros w' [Hcal | (reader & Hcal & Hlen)]; subst w'.
  - unfold auto_schedule_publish. run. rewrite Hcal. repeat split.
  - rewrite (auto_schedule_reads E dry_run w reader Hcal), Hcal.
    destruct reader as [|header [|row rows]]; [| |simpl in Hlen; lia];
      (split; [unfold process_calendar; simpl; rewrite Hcal; reflexivity|repeat split]).
Qed.

(** ** The parts of a thread *)

(** No part of a thread is empty, none begins or ends with white space
    (stripping it again changes nothing) and none contains the delimiter. *)
Theorem thread_parts_trimmed content :
  Forall (fun part => part <> [] /\ strip part = part /\ contains DELIM part = false)
    (thread_parts content).
Proof.
  eapply Forall_impl; [apply thread_parts_clean|].
  intros part (Hstrip & Htruthy & Hdelim). split; [|split; assumption].
  apply truthy_iff. exact Htruthy.
Qed.

Lemma split_pipes_not_nil s : split_pipes s <> [].
Proof.
  destruct (split_pieces s) as (p & ps & k & -> & _). discriminate.
Qed.

(** Splitting on the delimiter loses nothing: the pieces joined by the
    delimiter are the content again. *)
Theorem split_join_round_trip s : join DELIM (split_pipes s) = s.
Proof.
  induction s as [|rest IH|c s Hstart IH] using split_pipes_ind.
  - reflexivity.
  - rewrite split_delim. pose proof (split_pipes_not_nil rest) as Hne.
    destruct (split_pipes rest) as [|p ps]; [congruence|].
    change (join DELIM ([] :: p :: ps)) with ([] ++ DELIM ++ join DELIM (p :: ps)).
    rewrite IH. reflexivity.
  - rewrite (split_cons c s Hstart). pose proof (split_pipes_not_nil s) as Hne.
    destruct (split_pipes s) as [|p ps]; [congruence|].
    cbn [push]. rewrite <- IH. destruct ps; reflexivity.
Qed.

(** ** Further concrete runs *)

Lemma one_bad_date_witness :
  Forall (row_ok friendly) [tweet_row] /\ Forall (row_ok friendly) [done_row]
  /\ strptime friendly (py "15-12-2023") = None
  /\ fst (validate_content_calendar friendly [tweet_row; bad_date_row; done_row])
     = [py "Row 3: Invalid date format 15-12-2023. Use YYYY-MM-DD"].
Proof.
  assert (H1 : Forall (row_ok friendly) [tweet_row])
    by (apply (rows_clean_iff friendly _ 2); vm_compute; reflexivity).
  assert (H2 : Forall (row_ok friendly) [done_row])
    by (apply (rows_clean_iff friendly _ 2); vm_compute; reflexivity).
  split; [exact H1|]. split; [exact H2|]. split; [reflexivity|].
  apply (one_bad_date friendly [tweet_row] [done_row] (py "15-12-2023") X_TWEET
           (py "hello") POST_NOW [] H1 H2 eq_refl).
  - left. reflexivity.
  - vm_compute. discriminate.
  - vm_compute. discriminate.
Defined.

Lemma no_client_no_post_witness :
  tweepy_API offline (trace ready_world) = Some (py "401 Unauthorized")
  /\ exists w',
       safe_publish offline X_TWEET (py "hello") 2 false ready_world = (Ok ERROR_LABEL, w')
       /\ trace w' = [GetClient] /\ success_log w' = Some [SUCCESS_HEADER].
Proof.
  split; [reflexivity|].
  destruct (no_client_no_post offline (py "hello") 2 ready_world (py "401 Unauthorized")
              eq_refl) as [(w' & Hrun & Htrace & _ & Hs) _].
  exists w'. split; [exact Hrun|]. split; [exact Htrace|exact Hs].
Defined.

Lemma tweet_outcome_witness :
  tweepy_API friendly (trace ready_world) = None
  /\ update_status friendly (trace ready_world ++ [GetClient]) (truncate (py "hello")) None
     = inl (py "123")
  /\ success_log (snd (safe_publish friendly X_TWEET (py "hello") 2 false ready_world))
     = Some [SUCCESS_HEADER;
             [py "2023-12-15 09:00:00"; X_TWEET; py "hello"; POSTED; py "123"]].
Proof.
  split; [reflexivity|]. split; [reflexivity|].
  rewrite (proj1 (tweet_outcome friendly (py "hello") 2 ready_world eq_refl) (py "123") eq_refl).
  vm_compute. reflexivity.
Defined.

Lemma thread_outcome_witness :
  tweepy_API friendly (trace ready_world) = None
  /\ thread_parts (py "a|||b|||c") <> []
  /\ success_log (snd (safe_publish friendly X_THREAD (py "a|||b|||c") 2 false ready_world))
     = Some [SUCCESS_HEADER;
             [py "2023-12-15 09:00:00"; X_THREAD; py "a|||b|||c"; POSTED;
              py "123,124,125"]].
Proof.
  assert (Hparts : thread_parts (py "a|||b|||c") <> []) by (vm_compute; discriminate).
  split; [reflexivity|]. split; [exact Hparts|].
  rewrite (thread_outcome friendly (py "a|||b|||c") 2 ready_world
             [py "123"; py "124"; py "125"]
             [GetClient; UpdateStatus (py "a") None; Sleep 1;
              UpdateStatus (py "b") (Some (py "123")); Sleep 1;
              UpdateStatus (py "c") (Some (py "124"))]
             (Some (py "125")) eq_refl Hparts).
  - vm_compute. reflexivity.
  - vm_compute.
    apply (posted_cons friendly [GetClient] None _ _ _); [reflexivity|].
    apply (posted_cons friendly [GetClient; UpdateStatus _ None] (Some _) _ _ _);
      [reflexivity|].
    apply (posted_cons friendly
             [GetClient; UpdateStatus _ None; Sleep 1; UpdateStatus _ (Some _)]
             (Some _) _ _ _); [reflexivity|].
    apply posted_nil.
Defined.

Lemma idle_run_witness :
  calendar (with_calendar [done_row; later_row])
  = Some (CALENDAR_HEADER :: [done_row; later_row])
  /\ fst (validate_content_calendar friendly [done_row; later_row]) = []
  /\ Forall (fun row => ~ due friendly TODAY row) [done_row; later_row]
  /\ trace (snd (auto_schedule_publish friendly false (with_calendar [done_row; later_row])))
     = []
  /\ calendar (snd (auto_schedule_publish friendly false
                      (with_calendar [done_row; later_row])))
     = Some [CALENDAR_HEADER; done_row; later_row].
Proof.
  assert (Hval : fst (validate_content_calendar friendly [done_row; later_row]) = [])
    by (vm_compute; reflexivity).
  assert (Hnone : Forall (fun row => ~ due friendly TODAY row) [done_row; later_row]).
  { constructor; [|constructor; [|constructor]].
    - intros (d & p & c & rest & Heq & _). vm_compute in Heq. discriminate Heq.
    - intros (d & p & c & rest & Heq & Hdate). injection Heq as <- _ _ _.
      vm_compute in Hdate. discriminate Hdate. }
  split; [reflexivity|]. split; [exact Hval|]. split; [exact Hnone|].
  pose proof (idle_run friendly false (with_calendar [done_row; later_row]) CALENDAR_HEADER
                [done_row; later_row] eq_refl Hval Hnone) as H.
  cbv zeta in H. destruct H as (Htrace & Hcal & _). split; [exact Htrace|exact Hcal].
Defined.

Lemma rerun_same_day_witness :
  calendar (with_calendar [tweet_row]) = Some (CALENDAR_HEADER :: [tweet_row])
  /\ fst (validate_content_calendar friendly [tweet_row]) = []
  /\ trace (snd (auto_schedule_publish friendly false
                   (snd (auto_schedule_publish friendly true (with_calendar [tweet_row])))))
     = trace (snd (auto_schedule_publish friendly true (with_calendar [tweet_row])))
  /\ calendar (snd (auto_schedule_publish friendly false
                      (snd (auto_schedule_publish friendly true (with_calendar [tweet_row])))))
     = calendar (snd (auto_schedule_publish friendly true (with_calendar [tweet_row]))).
Proof.
  assert (Hval : fst (validate_content_calendar friendly [tweet_row]) = [])
    by (vm_compute; reflexivity).
  split; [reflexivity|]. split; [exact Hval|].
  pose proof (rerun_same_day friendly true false (with_calendar [tweet_row]) CALENDAR_HEADER
                [tweet_row] eq_refl Hval) as H.
  cbv zeta in H. destruct H as (Htrace & Hcal & _); [vm_compute; reflexivity|].
  split; [exact Htrace|exact Hcal].
Defined.

Lemma published_once_witness :
  calendar (with_calendar [tweet_row]) = Some (CALENDAR_HEADER :: [tweet_row])
  /\ fst (validate_content_calendar friendly [tweet_row]) = []
  /\ due friendly TODAY tweet_row
  /\ exists rows1 rows2 row1,
       calendar (snd (auto_schedule_publish friendly true (with_calendar [tweet_row])))
       = Some (CALENDAR_HEADER :: rows1)
       /\ calendar (snd (auto_schedule_publish friendly false
                           (snd (auto_schedule_publish friendly true
                                   (with_calendar [tweet_row])))))
          = Some (CALENDAR_HEADER :: rows2)
       /\ rows1 !! 0 = Some row1 /\ rows2 !! 0 = Some row1.
Proof.
  assert (Hval : fst (validate_content_calendar friendly [tweet_row]) = [])
    by (vm_compute; reflexivity).
  assert (Hdue : due friendly TODAY tweet_row).
  { exists (py "2023-12-15"), X_TWEET, (py "hello"), []. split; reflexivity. }
  split; [reflexivity|]. split; [exact Hval|]. split; [exact Hdue|].
  pose proof (published_once friendly true false (with_calendar [tweet_row]) CALENDAR_HEADER
                [tweet_row] 0 tweet_row eq_refl Hval eq_refl Hdue) as H.
  cbv zeta in H. destruct H as (rows1 & rows2 & row1 & H1 & H2 & H3 & H4 & _).
  exists rows1, rows2, row1. repeat split; assumption.
Defined.

Lemma analytics_queries_witness :
  tweepy_API friendly (trace tracked_world) = None
  /\ status_queries (trace (snd (track_analytics friendly tracked_world)))
     = [py "123"; py "124,125"].
Proof.
  split; [reflexivity|].
  rewrite (analytics_queries friendly tracked_world SUCCESS_HEADER
             [[py "t1"; X_TWEET; py "one"; POSTED; py "123"];
              [py "t2"; X_TWEET; py "two"; POSTED; py "DryRun"];
              [py "t3"; py "Mastodon"; py "three"; POSTED; py "77"];
              [py "t4"; X_THREAD; py "four"; POSTED; py "124,125"]] eq_refl eq_refl).
  - vm_compute. reflexivity.
  - repeat constructor.
Defined.

Lemma analytics_aborts_witness :
  Exists (fun row => length row < 5)
    [[py "t1"; X_TWEET; py "one"; POSTED; py "123"]; [py "t2"; X_TWEET; py "two"]]
  /\ trace (snd (track_analytics friendly torn_world)) = [GetClient]
  /\ analytics_log (snd (track_analytics friendly torn_world)) = Some [ANALYTICS_HEADER].
Proof.
  assert (Hshort : Exists (fun row => length row < 5)
            [[py "t1"; X_TWEET; py "one"; POSTED; py "123"]; [py "t2"; X_TWEET; py "two"]]).
  { apply Exists_cons_tl. apply Exists_cons_hd. simpl. lia. }
  split; [exact Hshort|].
  apply (analytics_aborts friendly torn_world).
  right. right. right. eexists _, _. split; [reflexivity|exact Hshort].
Defined.

Lemma post_now_refused_witness :
  calendar (with_calendar [tweet_row]) = Some (CALENDAR_HEADER :: [tweet_row])
  /\ (Z.of_nat (length [tweet_row]) < 5)%Z
  /\ trace (snd (post_now friendly false (Ok 5%Z) (with_calendar [tweet_row]))) = []
  /\ calendar (snd (post_now friendly false (Ok 5%Z) (with_calendar [tweet_row])))
     = Some [CALENDAR_HEADER; tweet_row].
Proof.
  assert (Hout : (Z.of_nat (length [tweet_row]) < 5)%Z) by (simpl; lia).
  split; [reflexivity|]. split; [exact Hout|].
  destruct (post_now_refused friendly false (with_calendar [tweet_row]) CALENDAR_HEADER
              [tweet_row] (Ok 5%Z) eq_refl (or_intror (or_introl Hout)))
    as (_ & Htrace & (_ & Hcal & _)).
  split; [exact Htrace|exact Hcal].
Defined.

Lemma post_now_selected_witness :
  calendar (with_calendar [later_row; done_row])
  = Some (CALENDAR_HEADER :: [later_row; done_row])
  /\ [later_row; done_row] !! 1 = Some done_row
  /\ exists w0 label w1,
       trace w0 = []
       /\ safe_publish friendly X_TWEET (py "old news") 3 false w0 = (Ok label, w1)
       /\ is_label label
       /\ post_now friendly false (Ok 2%Z) (with_calendar [later_row; done_row])
          = (Ok tt,
             set_stdout (fun out => out ++ [py "Result: " ++ label])
               (set_calendar
                  (fun _ => Some [CALENDAR_HEADER; later_row;
                                  [py "2023-12-15"; X_TWEET; py "old news"; label]]) w1)).
Proof.
  split; [reflexivity|]. split; [reflexivity|].
  destruct (post_now_selected friendly false (with_calendar [later_row; done_row])
              CALENDAR_HEADER [later_row; done_row] 1 (py "2023-12-15") X_TWEET
              (py "old news") (py "Done") [] eq_refl eq_refl)
    as (w0 & label & w1 & _ & Htrace & Hrun & Hlabel & Hpost & _).
  exists w0, label, w1.
  split; [exact Htrace|]. split; [exact Hrun|]. split; [exact Hlabel|exact Hpost].
Defined.

Lemma post_now_no_rows_witness :
  calendar (World [] 0 (Some []) None None None []) = Some []
  /\ post_now friendly true (Ok 1%Z) (World [] 0 (Some []) None None None [])
     = (Raised (IndexError (py "list index out of range")),
        World [] 0 (Some []) None None None []).
Proof.
  split; [reflexivity|].
  exact (proj2 (post_now_no_rows friendly true (Ok 1%Z)
                  (World [] 0 (Some []) None None None [])) eq_refl).
Defined.

Lemma nothing_to_read_witness :
  calendar empty_world = None
  /\ calendar (snd (auto_schedule_publish friendly false empty_world)) = Some SAMPLE_CALENDAR
  /\ trace (snd (auto_schedule_publish friendly false empty_world)) = [].
Proof.
  split; [reflexivity|].
  pose proof (nothing_to_read friendly false empty_world) as H.
  cbv zeta in H. destruct H as (Hcal & Htrace & _); [left; reflexivity|].
  split; [exact Hcal|exact Htrace].
Defined.
